(** * Zowe CLI: job submission and workflow start, as interaction trees

    The two TypeScript sources are sequential chains of awaited calls to
    the z/OSMF REST layer.  Every awaited call is an event of an interaction
    tree; a call that rejects is answered with [inl err], and an [async]
    function is a tree whose leaf is either the thrown value or the value
    the promise resolves to.  The unbounded [while] loop of the workflow
    handler is [ITree.iter].  Programs are run against an arbitrary
    deterministic model of the remote system by a fuelled executor. *)

From Stdlib Require Import String List Arith Lia Bool.
From ITree Require Import ITree Eq.Shallow.
Import ListNotations.
Local Open Scope list_scope.
Local Open Scope string_scope.

Set Implicit Arguments.

(** ** JavaScript values *)

(** An optional property: absent ([undefined]), [null], or a value. *)
Inductive js (A : Type) : Type :=
| undefined : js A
| null : js A
| val : A -> js A.
Arguments undefined {A}.
Arguments null {A}.
Arguments val {A} _.

(** [isNullOrUndefined(x)] of Node's util, also [x == null]. *)
Definition isNullOrUndefined {A} (x : js A) : bool :=
  match x with
  | val _ => false
  | _ => true
  end.

(** Truthiness of an optional boolean, [if (x)]. *)
Definition truthy_bool (x : js bool) : bool :=
  match x with
  | val b => b
  | _ => false
  end.

(** Truthiness of an optional string, [if (x)]: the string when it is
    defined and not empty. *)
Definition truthy_string (x : js string) : option string :=
  match x with
  | val EmptyString => None
  | val s => Some s
  | _ => None
  end.

(** Truthiness of an optional object. *)
Definition truthy_object {A} (x : js A) : bool := negb (isNullOrUndefined x).

(** String coercion in a concatenation, ["..." + x]. *)
Definition js_concat_string (x : js string) : string :=
  match x with
  | undefined => "undefined"
  | null => "null"
  | val s => s
  end.

(** ** Thrown values *)

(** An error object a remote call rejects with.  [toString] is what the
    object's own [toString()] method returns, the text used when the object
    is concatenated to a string. *)
Record ErrorObject : Type := mkErrorObject {
  message : string;
  toString : string
}.

(** The message of a failed expectation: a string literal of the source, or
    the constant [ZosJobsMessages.missingJcl.message] (declared in
    JobsMessages). *)
Inductive expect_message : Type :=
| literal (text : string)
| ZosJobsMessages_missingJcl.

(** What an [async] function of these sources can reject with. *)
Inductive thrown : Type :=
| ExpectError (msg : expect_message)  (* ImperativeError raised by ImperativeExpect *)
| Rejected (e : ErrorObject)     (* the error of a rejected remote call, as it is *)
| ThrownString (s : string).     (* [throw "..."] of a plain string *)

(** ** Running a tree against a model of the environment *)

Section Exec.
Context {E : Type -> Type} {W : Type}.

(** The environment answers each event from its current state. *)
Variable handle : forall X, E X -> W -> X * W.

(** One entry of a trace: an event with the answer it got. *)
Definition entry : Type := {X : Type & (E X * X)%type}.

Definition answered {X} (e : E X) (x : X) : entry := existT _ X (e, x).

(** The result of a run: the events performed with their answers, in
    order, and the leaf reached with the final state of the environment;
    [None] while the program is still running when the fuel is spent. *)
Record outcome (R : Type) : Type := mkOutcome {
  trace : list entry;
  final : option (R * W)
}.

Definition performed {R} (c : entry) (o : outcome R) : outcome R :=
  {| trace := c :: trace o; final := final o |}.

(** Runs [t] for at most [fuel] nodes of the tree: a leaf ends the run, a
    silent step is skipped, an event is answered by the environment and the
    run goes on with the continuation. *)
Fixpoint exec {R} (fuel : nat) (t : itree E R) (w : W) : outcome R :=
  match fuel with
  | 0 => {| trace := []; final := None |}
  | S n =>
      match observe t with
      | RetF r => {| trace := []; final := Some (r, w) |}
      | TauF t' => exec n t' w
      | VisF e k =>
          let (x, w') := handle e w in
          performed (answered e x) (exec n (k x) w')
      end
  end.

(** [t] run from [w] performs [tr], ends in [r] and leaves [w']. *)
Definition runs_to {R} (t : itree E R) (w : W) (tr : list entry) (r : R) (w' : W) : Prop :=
  exists fuel, exec fuel t w = {| trace := tr; final := Some (r, w') |}.

(** Some run of [t] from [w] reaches a leaf. *)
Definition terminates {R} (t : itree E R) (w : W) : Prop :=
  exists tr r w', runs_to t w tr r w'.

(** [t] run from [w] never reaches a leaf. *)
Definition diverges {R} (t : itree E R) (w : W) : Prop :=
  forall fuel, final (exec fuel t w) = None.
End Exec.
Arguments entry : clear implicits.

(** ** An [async] function: a tree ending in a thrown value or a result *)

Definition async (E : Type -> Type) (R : Type) : Type := itree E (thrown + R)%type.

(** [return r] *)
Definition resolve {E R} (r : R) : async E R := Ret (inr r).

(** [throw v] *)
Definition throw {E R} (v : thrown) : async E R := Ret (inl v).

(** [const x = await c; k x]: a rejection of [c] skips [k]. *)
Definition andThen {E A B} (c : async E A) (k : A -> async E B) : async E B :=
  ITree.bind c (fun r =>
    match r with
    | inl v => Ret (inl v)
    | inr a => k a
    end).

(** [try { await e } catch (err) { handler err }] around one remote call. *)
Definition try_await {E X} (e : E (ErrorObject + X)%type)
  (handler : ErrorObject -> async E X) : async E X :=
  ITree.bind (ITree.trigger e) (fun r =>
    match r with
    | inl err => handler err
    | inr x => Ret (inr x)
    end).

(** [while (cond s) { s = body s }] over the local variables [s], with no
    bound on the number of iterations: leaving the loop is the only way
    out, by the condition or by a rejection inside the body. *)
Definition while {E S} (cond : S -> bool) (body : S -> async E S) (s : S) : async E S :=
  ITree.iter
    (fun s =>
       if cond s then
         ITree.bind (body s) (fun r =>
           match r with
           | inl v => Ret (inr (inl v))
           | inr s' => Ret (inl s')
           end)
       else Ret (inr (inr s)))
    s.

(** A call that cannot reject (a local effect). *)
Definition perform {E X} (e : E X) : async E X :=
  ITree.bind (ITree.trigger e) (fun x => Ret (inr x)).

(** What an awaited call rejects or resolves with, given its answer. *)
Definition settled {X} (answer : ErrorObject + X) : thrown + X :=
  match answer with
  | inl err => inl (Rejected err)
  | inr x => inr x
  end.

(** An awaited remote call: a rejection is rethrown as it is. *)
Definition await {E X} (e : E (ErrorObject + X)%type) : async E X :=
  ITree.bind (ITree.trigger e) (fun answer => Ret (settled answer)).

Declare Scope async_scope.
Delimit Scope async_scope with async.
Notation "x <- c ;; k" := (andThen c (fun x => k))
  (at level 62, c at next level, right associativity) : async_scope.
Notation "c ;; k" := (andThen c (fun _ => k))
  (at level 62, right associativity) : async_scope.
Local Open Scope async_scope.

(** ** ImperativeExpect (from the imperative framework) *)

Module ImperativeExpect.
(** [toNotBeNullOrUndefined(actual, msg)] *)
Definition toNotBeNullOrUndefined {E A} (actual : js A) (msg : expect_message)
  : async E unit :=
  if isNullOrUndefined actual then throw (ExpectError msg) else resolve tt.

(** [toNotBeEqual(actual, expected, msg)] on strings *)
Definition toNotBeEqual {E} (actual : js string) (expected : string)
  (msg : expect_message) : async E unit :=
  match actual with
  | val s => if String.eqb s expected then throw (ExpectError msg) else resolve tt
  | _ => resolve tt
  end.

(** [keysToBeDefined(obj, keys, msg)], given the values [obj] holds under
    [keys]: the first one that is null or undefined raises the error. *)
Fixpoint keysToBeDefined {E A} (values : list (js A)) (msg : expect_message)
  : async E unit :=
  match values with
  | [] => resolve tt
  | v :: rest =>
      if isNullOrUndefined v then throw (ExpectError msg)
      else keysToBeDefined rest msg
  end.
End ImperativeExpect.

(** ** SubmitJobs *)

Module SubmitJobs.

Definition AbstractSession : Type := string.

(** [JOB_STATUS], declared in types/JobStatus. *)
Inductive JOB_STATUS : Type := ACTIVE | OUTPUT | INPUT.

(** The properties of a job document that this class reads. *)
Record IJob : Type := mkIJob {
  jobid : js string;
  jobname : js string;
  status : js string;
  retcode : js string
}.

(** A spool file descriptor, as listed by the remote system. *)
Record IJobFile : Type := mkIJobFile {
  id : nat;
  ddname : string;
  stepname : string;
  procstep : string
}.

(** A spool file with its content. *)
Record ISpoolFile : Type := mkISpoolFile {
  sp_id : nat;
  sp_ddName : string;
  sp_stepName : string;
  sp_procName : string;
  sp_data : string
}.

Record ISubmitJobParms : Type := mkISubmitJobParms {
  jobDataSet : js string
}.

Record ISubmitJobNotifyParm : Type := mkISubmitJobNotifyParm {
  jn_jobDataSet : js string;
  jn_status : js JOB_STATUS;
  jn_watchDelay : js nat
}.

Record ISubmitJclParms : Type := mkISubmitJclParms {
  jcl : js string;
  internalReaderRecfm : js string;
  internalReaderLrecl : js string
}.

Record ISubmitJclNotifyParm : Type := mkISubmitJclNotifyParm {
  cn_jcl : js string;
  cn_internalReaderRecfm : js string;
  cn_internalReaderLrecl : js string;
  cn_status : js JOB_STATUS;
  cn_watchDelay : js nat
}.

(** [ISubmitParms]; [task] tells whether a progress task object is given
    (the object itself is mutated through events). *)
Record ISubmitParms : Type := mkISubmitParms {
  viewAllSpoolContent : js bool;
  directory : js string;
  extension : js string;
  waitForActive : js bool;
  waitForOutput : js bool;
  task : js unit;
  maxAttempts : js nat;
  watchDelay : js nat
}.

Record IMonitorJobWaitForParms : Type := mkIMonitorJobWaitForParms {
  mw_jobname : js string;
  mw_jobid : js string;
  mw_status : js JOB_STATUS;
  mw_maxAttempts : js nat;
  mw_watchDelay : js nat
}.

(** [IO.normalizeExtension(ext)], left uninterpreted. *)
Inductive normalized : Type := IO_normalizeExtension (ext : string).

Record IDownloadAllSpoolContentParms : Type := mkIDownloadAllSpoolContentParms {
  dl_jobid : js string;
  dl_jobname : js string;
  dl_outDir : js string;
  dl_extension : js normalized
}.

(** A request header: one of the constants of the imperative framework
    and of ZosmfHeaders, or an object literal [{name: value}]. *)
Inductive header : Type :=
| Headers_APPLICATION_JSON
| Headers_TEXT_PLAIN_UTF8
| X_IBM_INTRDR_MODE_TEXT
| HeaderObject (name value : string).

(** Modelled from the spec: the constant [ZosmfHeaders.X_IBM_INTRDR_LRECL_80]
    (declared in the rest package), the header X-IBM-Intrdr-Lrecl with the
    default value 80. *)
Definition X_IBM_INTRDR_LRECL_80 : header := HeaderObject "X-IBM-Intrdr-Lrecl" "80".

(** Modelled from the spec: the constant [ZosmfHeaders.X_IBM_INTRDR_RECFM_F]
    (declared in the rest package), the header X-IBM-Intrdr-Recfm with the
    default value F. *)
Definition X_IBM_INTRDR_RECFM_F : header := HeaderObject "X-IBM-Intrdr-Recfm" "F".

(** Modelled from the spec: [TaskProgress.THIRTY_PERCENT], 30% at poll start. *)
Definition THIRTY_PERCENT : nat := 30.

(** Modelled from the spec: [TaskProgress.SEVENTY_PERCENT], 70% at the start
    of content retrieval. *)
Definition SEVENTY_PERCENT : nat := 70.

(** The body of a PUT to the jobs resource. *)
Inductive payload : Type :=
| JobObj (file : string)      (* the object [{file: ...}] *)
| JclText (text : js string). (* raw JCL text, [parms.jcl] as it is *)

(** [JobsConstants.RESOURCE], the jobs resource of the REST API. *)
Inductive resource : Type := JobsConstants_RESOURCE.

Inductive log_level : Type := trace_level | debug_level.

(** The calls this class makes.  Remote calls answer with the error they
    reject with or with their result.  A logging call keeps the level and
    the format string of the message, not its arguments. *)
Inductive SubmitE : Type -> Type :=
| Log (level : log_level) (format : string) : SubmitE unit
| SetStatusMessage (text : string) : SubmitE unit
| SetPercentComplete (percent : nat) : SubmitE unit
| PutExpectJSON (session : AbstractSession) (res : resource) (headers : list header)
    (body : payload) : SubmitE (ErrorObject + IJob)%type
| WaitForStatusCommon (session : AbstractSession) (parms : IMonitorJobWaitForParms)
    : SubmitE (ErrorObject + IJob)%type
| GetSpoolFilesForJob (session : AbstractSession) (job : IJob)
    : SubmitE (ErrorObject + list IJobFile)%type
| GetSpoolContent (session : AbstractSession) (file : IJobFile)
    : SubmitE (ErrorObject + string)%type
| DownloadAllSpoolContentCommon (session : AbstractSession)
    (parms : IDownloadAllSpoolContentParms) : SubmitE (ErrorObject + unit)%type.

(** Whether an entry of a trace is a call to the remote system. *)
Definition is_remote (c : entry SubmitE) : bool :=
  match fst (projT2 c) with
  | Log _ _ | SetStatusMessage _ | SetPercentComplete _ => false
  | _ => true
  end.

Definition remote_calls (tr : list (entry SubmitE)) : list (entry SubmitE) :=
  filter is_remote tr.

Definition M : Type -> Type := async SubmitE.

(** What [checkSubmitOptions] resolves to: [IJob | ISpoolFile[]]. *)
Inductive SubmitResult : Type :=
| ResJob (job : IJob)
| ResSpool (files : list ISpoolFile).

(** [for (const x of xs) { ... }] over a local accumulator. *)
Fixpoint for_of {A S} (xs : list A) (body : A -> S -> M S) (s : S) : M S :=
  match xs with
  | [] => resolve s
  | x :: rest => s' <- body x s ;; for_of rest body s'
  end.

(** [if (parms.task != null) { ... }] *)
Definition when_task (parms : ISubmitParms) (body : M unit) : M unit :=
  if negb (isNullOrUndefined (task parms)) then body else resolve tt.

(** The suffix [(job.retcode == null ? "" : ", " + job.retcode)]. *)
Definition retcode_suffix (job : IJob) : string :=
  if isNullOrUndefined (retcode job) then ""
  else ", " ++ js_concat_string (retcode job).

Definition submitJobCommon (session : AbstractSession) (parms : ISubmitJobParms) : M IJob :=
  perform (Log trace_level "submitJobCommon called with parms %s") ;;
  ImperativeExpect.keysToBeDefined [jobDataSet parms]
    (literal "You must provide a data set containing JCL to submit in parms.jobDataSet") ;;
  perform (Log debug_level "Submitting a job located in the data set '%s'") ;;
  let fullyQualifiedDataset := "//'" ++ js_concat_string (jobDataSet parms) ++ "'" in
  let jobObj := JobObj fullyQualifiedDataset in
  await (PutExpectJSON session JobsConstants_RESOURCE [Headers_APPLICATION_JSON] jobObj).

Definition submitJob (session : AbstractSession) (jobDataSet : js string) : M IJob :=
  perform (Log trace_level "submitJob called with data set %s") ;;
  submitJobCommon session {| jobDataSet := jobDataSet |}.

Definition submitJclCommon (session : AbstractSession) (parms : ISubmitJclParms) : M IJob :=
  perform (Log trace_level "submitJclCommon called with parms %s") ;;
  ImperativeExpect.keysToBeDefined [jcl parms]
    (literal "You must provide a JCL string to submit. The 'jcl' field of the provided parameters was undefined. ") ;;
  perform (Log debug_level "Submitting JCL of length %d") ;;
  let headers := [Headers_TEXT_PLAIN_UTF8; X_IBM_INTRDR_MODE_TEXT] in
  headers <-
    match truthy_string (internalReaderLrecl parms) with
    | Some lrecl =>
        perform (Log debug_level
          "Custom internal reader logical record length (internalReaderLrecl) '%s' specified ") ;;
        resolve (headers ++ [HeaderObject "X-IBM-Intrdr-Lrecl" lrecl])%list
    | None =>
        (* default to 80 record length *)
        resolve (headers ++ [X_IBM_INTRDR_LRECL_80])%list
    end ;;
  headers <-
    match truthy_string (internalReaderRecfm parms) with
    | Some recfm =>
        perform (Log debug_level
          "Custom internal reader record format (internalReaderRecfm) '%s' specified ") ;;
        resolve (headers ++ [HeaderObject "X-IBM-Intrdr-Recfm" recfm])%list
    | None =>
        (* default to fixed format records *)
        resolve (headers ++ [X_IBM_INTRDR_RECFM_F])%list
    end ;;
  await (PutExpectJSON session JobsConstants_RESOURCE headers (JclText (jcl parms))).

Definition submitJcl (session : AbstractSession) (jcl : js string)
  (internalReaderRecfm internalReaderLrecl : js string) : M IJob :=
  perform (Log trace_level
    "submitJcl called with jcl of length %d. internalReaderRecfm %s internalReaderLrecl %s") ;;
  submitJclCommon session
    {| jcl := jcl;
       internalReaderRecfm := internalReaderRecfm;
       internalReaderLrecl := internalReaderLrecl |}.

Definition checkSubmitOptions (session : AbstractSession) (parms : ISubmitParms)
  (responseJobInfo : IJob) : M SubmitResult :=
  let jobParms :=
    {| mw_jobname := jobname responseJobInfo;
       mw_jobid := jobid responseJobInfo;
       mw_status := val (if truthy_bool (waitForActive parms) then ACTIVE else OUTPUT);
       mw_maxAttempts := maxAttempts parms;
       mw_watchDelay := watchDelay parms |} in
  if truthy_bool (waitForActive parms) then
    activeJob <- await (WaitForStatusCommon session jobParms) ;;
    resolve (ResJob activeJob)
  else if truthy_bool (viewAllSpoolContent parms) || truthy_bool (waitForOutput parms) then
    when_task parms
      (perform (SetStatusMessage
         ("Waiting for " ++ js_concat_string (jobid responseJobInfo) ++ " to enter OUTPUT")) ;;
       perform (SetPercentComplete THIRTY_PERCENT)) ;;
    job <- await (WaitForStatusCommon session jobParms) ;;
    if negb (truthy_bool (viewAllSpoolContent parms)) then
      resolve (ResJob job)
    else
      when_task parms
        (perform (SetStatusMessage
           ("Retrieving spool content for " ++ js_concat_string (jobid job)
              ++ retcode_suffix job)) ;;
         perform (SetPercentComplete SEVENTY_PERCENT)) ;;
      spoolFiles <- await (GetSpoolFilesForJob session job) ;;
      arrOfSpoolFile <-
        for_of spoolFiles
          (fun file arrOfSpoolFile =>
             spoolContent <- await (GetSpoolContent session file) ;;
             resolve (arrOfSpoolFile ++
               [{| sp_id := id file;
                   sp_ddName := ddname file;
                   sp_stepName := stepname file;
                   sp_procName := procstep file;
                   sp_data := spoolContent |}])%list)
          [] ;;
      resolve (ResSpool arrOfSpoolFile)
  else
    match truthy_string (directory parms) with
    | Some _ =>
        when_task parms
          (perform (SetStatusMessage
             ("Waiting for " ++ js_concat_string (jobid responseJobInfo)
                ++ " to enter OUTPUT")) ;;
           perform (SetPercentComplete THIRTY_PERCENT)) ;;
        job <- await (WaitForStatusCommon session jobParms) ;;
        let downloadParms :=
          {| dl_jobid := jobid job;
             dl_jobname := jobname job;
             dl_outDir := directory parms;
             dl_extension :=
               match truthy_string (extension parms) with
               | Some ext => val (IO_normalizeExtension ext)
               | None => undefined
               end |} in
        when_task parms
          (perform (SetStatusMessage
             ("Downloading spool content for " ++ js_concat_string (jobid job)
                ++ retcode_suffix job)) ;;
           perform (SetPercentComplete SEVENTY_PERCENT)) ;;
        await (DownloadAllSpoolContentCommon session downloadParms) ;;
        resolve (ResJob job)
    | None => resolve (ResJob responseJobInfo)
    end.

Definition submitJclString (session : AbstractSession) (jcl : js string)
  (parms : ISubmitParms) : M SubmitResult :=
  ImperativeExpect.toNotBeNullOrUndefined jcl ZosJobsMessages_missingJcl ;;
  ImperativeExpect.toNotBeEqual jcl "" ZosJobsMessages_missingJcl ;;
  responseJobInfo <-
    submitJclCommon session
      {| jcl := jcl; internalReaderRecfm := undefined; internalReaderLrecl := undefined |} ;;
  checkSubmitOptions session parms responseJobInfo.

Definition submitNotifyCommon (session : AbstractSession) (job : IJob)
  (status : js JOB_STATUS) (watchDelay : js nat) : M IJob :=
  perform (Log trace_level
    "submitNotiyCommon called with job %s, status %s, watchDelay %s") ;;
  ImperativeExpect.keysToBeDefined [jobname job; jobid job]
    (literal "The job object you provide must contain both 'jobname' and 'jobid'.") ;;
  perform (Log debug_level
    "Waiting to be notified of job completion from Monitor Jobs API for job %s (%s)") ;;
  await (WaitForStatusCommon session
    {| mw_jobname := jobname job;
       mw_jobid := jobid job;
       mw_status := status;
       mw_maxAttempts := undefined;
       mw_watchDelay := watchDelay |}).

Definition submitJclNotifyCommon (session : AbstractSession)
  (parms : ISubmitJclNotifyParm) : M IJob :=
  perform (Log trace_level "submitJclNotifyCommon called with parms %s") ;;
  job <-
    submitJclCommon session
      {| jcl := cn_jcl parms;
         internalReaderRecfm := cn_internalReaderRecfm parms;
         internalReaderLrecl := cn_internalReaderLrecl parms |} ;;
  submitNotifyCommon session job (cn_status parms) (cn_watchDelay parms).

Definition submitJclNotify (session : AbstractSession) (jcl : js string)
  (internalReaderRecfm internalReaderLrecl : js string) : M IJob :=
  perform (Log trace_level
    "submitJclNotiy called with jcl of length %s, internalReaderRecfm %s, internalReaderLrecl %s") ;;
  submitJclNotifyCommon session
    {| cn_jcl := jcl;
       cn_internalReaderRecfm := internalReaderRecfm;
       cn_internalReaderLrecl := internalReaderLrecl;
       cn_status := undefined;
       cn_watchDelay := undefined |}.

Definition submitJobNotifyCommon (session : AbstractSession)
  (parms : ISubmitJobNotifyParm) : M IJob :=
  perform (Log trace_level "submitJobNotifyCommon called with parms %s") ;;
  ImperativeExpect.keysToBeDefined [jn_jobDataSet parms]
    (literal "You must provide a data set containing JCL to submit in parms.jobDataSet.") ;;
  job <- submitJobCommon session {| jobDataSet := jn_jobDataSet parms |} ;;
  submitNotifyCommon session job (jn_status parms) (jn_watchDelay parms).

Definition submitJobNotify (session : AbstractSession) (jobDataSet : js string) : M IJob :=
  perform (Log trace_level "submitJobNotify called with data set %s") ;;
  submitJobNotifyCommon session
    {| jn_jobDataSet := jobDataSet; jn_status := undefined; jn_watchDelay := undefined |}.

(** *** Reading a trace *)

Local Open Scope list_scope.

(** The error an answer carries, when the call was rejected. *)
Definition error_of {X} (answer : ErrorObject + X) : option ErrorObject :=
  match answer with
  | inl err => Some err
  | inr _ => None
  end.

(** The error a remote call of the trace was rejected with. *)
Definition rejection (c : entry SubmitE) : option ErrorObject :=
  let (X, p) := c in
  match fst p in SubmitE X return X -> option ErrorObject with
  | Log _ _ | SetStatusMessage _ | SetPercentComplete _ => fun _ => None
  | PutExpectJSON _ _ _ _ => error_of
  | WaitForStatusCommon _ _ => error_of
  | GetSpoolFilesForJob _ _ => error_of
  | GetSpoolContent _ _ => error_of
  | DownloadAllSpoolContentCommon _ _ => error_of
  end (snd p).

(** The job document a submission (a PUT to the jobs resource) answered. *)
Definition submitted (c : entry SubmitE) : option IJob :=
  let (X, p) := c in
  match fst p in SubmitE X return X -> option IJob with
  | PutExpectJSON _ _ _ _ =>
      fun answer => match answer with inr job => Some job | inl _ => None end
  | _ => fun _ => None
  end (snd p).

Definition is_poll (c : entry SubmitE) : bool :=
  match fst (projT2 c) with
  | WaitForStatusCommon _ _ => true
  | _ => false
  end.

Definition is_spool_fetch (c : entry SubmitE) : bool :=
  match fst (projT2 c) with
  | GetSpoolContent _ _ => true
  | _ => false
  end.

(** A stretch of a trace with no call to the remote system (progress
    reporting only). *)
Definition local_only (tr : list (entry SubmitE)) : Prop :=
  Forall (fun c => is_remote c = false) tr.

(** A run in which no remote call was rejected. *)
Definition all_succeeded (tr : list (entry SubmitE)) : Prop :=
  Forall (fun c => rejection c = None) tr.

(** *** What the operations are to do, in terms of traces *)

(** The parameters of the status poll that [checkSubmitOptions] builds. *)
Definition poll_parms (parms : ISubmitParms) (job : IJob) (target : JOB_STATUS)
  : IMonitorJobWaitForParms :=
  {| mw_jobname := jobname job;
     mw_jobid := jobid job;
     mw_status := val target;
     mw_maxAttempts := maxAttempts parms;
     mw_watchDelay := watchDelay parms |}.

(** The parameters of the status poll that [submitNotifyCommon] builds. *)
Definition notify_parms (job : IJob) (status : js JOB_STATUS) (watchDelay : js nat)
  : IMonitorJobWaitForParms :=
  {| mw_jobname := jobname job;
     mw_jobid := jobid job;
     mw_status := status;
     mw_maxAttempts := undefined;
     mw_watchDelay := watchDelay |}.

(** The entry of the result for a descriptor and its content:
    {id, ddName, stepName, procName, data}. *)
Definition spool_file_of (file : IJobFile) (data : string) : ISpoolFile :=
  {| sp_id := id file;
     sp_ddName := ddname file;
     sp_stepName := stepname file;
     sp_procName := procstep file;
     sp_data := data |}.

(** One successful content fetch per descriptor, in the order of the list. *)
Definition fetches (session : AbstractSession) (files : list IJobFile)
  (contents : list string) : list (entry SubmitE) :=
  map (fun fc => answered (GetSpoolContent session (fst fc)) (inr (snd fc)))
      (combine files contents).

Definition spool_files_of (files : list IJobFile) (contents : list string)
  : list ISpoolFile :=
  map (fun fc => spool_file_of (fst fc) (snd fc)) (combine files contents).

(** The body of the loop over the spool files in [checkSubmitOptions]. *)
Definition collect (session : AbstractSession) (file : IJobFile)
  (arrOfSpoolFile : list ISpoolFile) : M (list ISpoolFile) :=
  spoolContent <- await (GetSpoolContent session file) ;;
  resolve (arrOfSpoolFile ++ [spool_file_of file spoolContent]).

(** The ways the collection of all spool content can go, for the job
    [job0] just submitted: the trace of the run and what it settles with. *)
Inductive spool_collection (session : AbstractSession) (parms : ISubmitParms) (job0 : IJob)
  : list (entry SubmitE) -> thrown + SubmitResult -> Prop :=
| poll_rejected before e :
    local_only before ->
    spool_collection session parms job0
      (before ++
       [answered (WaitForStatusCommon session (poll_parms parms job0 OUTPUT)) (inl e)])
      (inl (Rejected e))
| listing_rejected before job between e :
    local_only before -> local_only between ->
    spool_collection session parms job0
      (before ++
       answered (WaitForStatusCommon session (poll_parms parms job0 OUTPUT)) (inr job) ::
       between ++
       [answered (GetSpoolFilesForJob session job) (inl e)])
      (inl (Rejected e))
| fetch_rejected before job between fetched file rest contents e :
    local_only before -> local_only between ->
    length contents = length fetched ->
    spool_collection session parms job0
      (before ++
       answered (WaitForStatusCommon session (poll_parms parms job0 OUTPUT)) (inr job) ::
       between ++
       answered (GetSpoolFilesForJob session job) (inr (fetched ++ file :: rest)) ::
       fetches session fetched contents ++
       [answered (GetSpoolContent session file) (inl e)])
      (inl (Rejected e))
| collected before job between files contents :
    local_only before -> local_only between ->
    length contents = length files ->
    spool_collection session parms job0
      (before ++
       answered (WaitForStatusCommon session (poll_parms parms job0 OUTPUT)) (inr job) ::
       between ++
       answered (GetSpoolFilesForJob session job) (inr files) ::
       fetches session files contents)
      (inr (ResSpool (spool_files_of files contents))).

(** The value a record-format or record-length header is sent with: the
    caller's override when one is supplied, the default otherwise. *)
Definition header_value (override : js string) (default : string) : string :=
  match truthy_string override with
  | Some v => v
  | None => default
  end.

(** The headers of a submission of JCL text. *)
Definition jcl_headers (parms : ISubmitJclParms) : list header :=
  [Headers_TEXT_PLAIN_UTF8; X_IBM_INTRDR_MODE_TEXT;
   HeaderObject "X-IBM-Intrdr-Lrecl" (header_value (internalReaderLrecl parms) "80");
   HeaderObject "X-IBM-Intrdr-Recfm" (header_value (internalReaderRecfm parms) "F")].

(** The ways a submission can go: refused before anything is sent, or sent
    as one PUT whose answer settles it. *)
Inductive submission (session : AbstractSession)
  : list (entry SubmitE) -> thrown + IJob -> Prop :=
| submission_refused tr msg :
    local_only tr -> submission session tr (inl (ExpectError msg))
| submission_sent before headers body answer :
    local_only before ->
    submission session
      (before ++ [answered (PutExpectJSON session JobsConstants_RESOURCE headers body) answer])
      (settled answer).

(** Whether a job document lacks its name or its id. *)
Definition lacks_identity (job : IJob) : bool :=
  isNullOrUndefined (jobname job) || isNullOrUndefined (jobid job).

(** What a notify-on-completion run owes to the job document [job] that its
    submission (the entry [c] of the trace) was answered with: when the
    document lacks its name or its id, the run rejects with the expectation
    error and no status poll appears anywhere in the trace; otherwise the
    only remote call after the submission is the status poll of that job,
    which settles the run. *)
Definition validated_before_polling (session : AbstractSession)
  (status : js JOB_STATUS) (watchDelay : js nat)
  (tr : list (entry SubmitE)) (r : thrown + IJob) : Prop :=
  forall c job, In c tr -> submitted c = Some job ->
    if lacks_identity job then
      r = inl (ExpectError (literal
            "The job object you provide must contain both 'jobname' and 'jobid'.")) /\
      Forall (fun c' => is_poll c' = false) tr
    else
      exists answer,
        remote_calls tr =
          [c; answered (WaitForStatusCommon session (notify_parms job status watchDelay))
                answer] /\
        r = settled answer.

(** The operations of the class, with their arguments. *)
Inductive operation (session : AbstractSession) : Type -> Type :=
| op_submitJob (jobDataSet : js string) : operation session IJob
| op_submitJobCommon (parms : ISubmitJobParms) : operation session IJob
| op_submitJcl (jcl internalReaderRecfm internalReaderLrecl : js string)
    : operation session IJob
| op_submitJclString (jcl : js string) (parms : ISubmitParms)
    : operation session SubmitResult
| op_submitJclCommon (parms : ISubmitJclParms) : operation session IJob
| op_submitJclNotify (jcl internalReaderRecfm internalReaderLrecl : js string)
    : operation session IJob
| op_submitJclNotifyCommon (parms : ISubmitJclNotifyParm) : operation session IJob
| op_submitJobNotify (jobDataSet : js string) : operation session IJob
| op_submitJobNotifyCommon (parms : ISubmitJobNotifyParm) : operation session IJob
| op_checkSubmitOptions (parms : ISubmitParms) (responseJobInfo : IJob)
    : operation session SubmitResult
| op_submitNotifyCommon (job : IJob) (status : js JOB_STATUS) (watchDelay : js nat)
    : operation session IJob.

Definition call_operation {session R} (op : operation session R) : M R :=
  match op with
  | op_submitJob _ jobDataSet => submitJob session jobDataSet
  | op_submitJobCommon _ parms => submitJobCommon session parms
  | op_submitJcl _ jcl recfm lrecl => submitJcl session jcl recfm lrecl
  | op_submitJclString _ jcl parms => submitJclString session jcl parms
  | op_submitJclCommon _ parms => submitJclCommon session parms
  | op_submitJclNotify _ jcl recfm lrecl => submitJclNotify session jcl recfm lrecl
  | op_submitJclNotifyCommon _ parms => submitJclNotifyCommon session parms
  | op_submitJobNotify _ jobDataSet => submitJobNotify session jobDataSet
  | op_submitJobNotifyCommon _ parms => submitJobNotifyCommon session parms
  | op_checkSubmitOptions _ parms job => checkSubmitOptions session parms job
  | op_submitNotifyCommon _ job status watchDelay =>
      submitNotifyCommon session job status watchDelay
  end.

(** [t] hands every rejection of a remote call to its caller as it is:
    whatever the remote system, a run whose trace holds a call rejected with
    [e] rejects with [e] itself. *)
Definition propagates {R} (t : M R) : Prop :=
  forall (W : Type) (remote : forall X, SubmitE X -> W -> X * W) w tr r w',
    runs_to remote t w tr r w' ->
    forall c e, In c tr -> rejection c = Some e -> r = inl (Rejected e).

(** *** A sample remote system *)

Definition sample_job (name : js string) : IJob :=
  {| jobid := val "JOB00123"; jobname := name; status := val "OUTPUT";
     retcode := val "CC 0000" |}.

Definition sample_files : list IJobFile :=
  [ {| id := 2; ddname := "JESMSGLG"; stepname := "JES2"; procstep := "" |};
    {| id := 3; ddname := "JESJCL"; stepname := "JES2"; procstep := "" |};
    {| id := 4; ddname := "SYSPRINT"; stepname := "STEP1"; procstep := "PROC1" |} ].

Definition sample_error : ErrorObject :=
  {| message := "z/OSMF REST API Error"; toString := "Error: z/OSMF REST API Error" |}.

(** A remote system that answers every submission with a job named [name],
    lists [sample_files], and rejects the content fetch of the file whose
    id is [broken]; its state counts the calls it served. *)
Definition sample_remote (name : js string) (broken : option nat)
  : forall X, SubmitE X -> nat -> X * nat :=
  fun X e served =>
    match e in SubmitE X return X * nat with
    | Log _ _ => (tt, served)
    | SetStatusMessage _ => (tt, served)
    | SetPercentComplete _ => (tt, served)
    | PutExpectJSON _ _ _ _ => (inr (sample_job name), S served)
    | WaitForStatusCommon _ _ => (inr (sample_job name), S served)
    | GetSpoolFilesForJob _ _ => (inr sample_files, S served)
    | GetSpoolContent _ file =>
        (match broken with
         | Some n => if Nat.eqb n (id file) then inl sample_error
                     else inr ("content of " ++ ddname file)%string
         | None => inr ("content of " ++ ddname file)%string
         end, S served)
    | DownloadAllSpoolContentCommon _ _ => (inr tt, S served)
    end.

Definition sample_parms : ISubmitParms :=
  {| viewAllSpoolContent := undefined; directory := undefined; extension := undefined;
     waitForActive := undefined; waitForOutput := undefined; task := undefined;
     maxAttempts := undefined; watchDelay := undefined |}.

(** Options with both [waitForActive] and [directory] set, and
    [viewAllSpoolContent] as well. *)
Definition active_and_directory : ISubmitParms :=
  {| viewAllSpoolContent := val true; directory := val "./output"; extension := undefined;
     waitForActive := val true; waitForOutput := undefined; task := val tt;
     maxAttempts := undefined; watchDelay := undefined |}.

(** Options asking for the content of all spool files. *)
Definition view_all : ISubmitParms :=
  {| viewAllSpoolContent := val true; directory := undefined; extension := undefined;
     waitForActive := undefined; waitForOutput := undefined; task := val tt;
     maxAttempts := undefined; watchDelay := undefined |}.

(** JCL parameters with no override. *)
Definition jcl_parms (text : js string) : ISubmitJclParms :=
  {| jcl := text; internalReaderRecfm := undefined; internalReaderLrecl := undefined |}.

Definition jcl_notify_parms (text : js string) : ISubmitJclNotifyParm :=
  {| cn_jcl := text; cn_internalReaderRecfm := undefined;
     cn_internalReaderLrecl := undefined; cn_status := val OUTPUT;
     cn_watchDelay := val 3000 |}.

Definition job_notify_parms (dataSet : js string) : ISubmitJobNotifyParm :=
  {| jn_jobDataSet := dataSet; jn_status := undefined; jn_watchDelay := undefined |}.

(** *** The whole of [checkSubmitOptions], in terms of traces *)

Definition is_put (c : entry SubmitE) : bool :=
  match fst (projT2 c) with
  | PutExpectJSON _ _ _ _ => true
  | _ => false
  end.

Definition is_download (c : entry SubmitE) : bool :=
  match fst (projT2 c) with
  | DownloadAllSpoolContentCommon _ _ => true
  | _ => false
  end.

(** The parameters a status poll of the trace was made with. *)
Definition poll_request (c : entry SubmitE) : option IMonitorJobWaitForParms :=
  match fst (projT2 c) with
  | WaitForStatusCommon _ parms => Some parms
  | _ => None
  end.

(** The two writes to the progress task that [checkSubmitOptions] makes at
    a time, when a task is given. *)
Definition progress (parms : ISubmitParms) (text : string) (percent : nat)
  : list (entry SubmitE) :=
  if negb (isNullOrUndefined (task parms)) then
    [answered (SetStatusMessage text) tt; answered (SetPercentComplete percent) tt]
  else [].

Definition waiting_message (job : IJob) : string :=
  ("Waiting for " ++ js_concat_string (jobid job) ++ " to enter OUTPUT")%string.

Definition retrieving_message (job : IJob) : string :=
  ("Retrieving spool content for " ++ js_concat_string (jobid job)
     ++ retcode_suffix job)%string.

Definition downloading_message (job : IJob) : string :=
  ("Downloading spool content for " ++ js_concat_string (jobid job)
     ++ retcode_suffix job)%string.

(** The parameters of the bulk download that [checkSubmitOptions] builds
    for the job the poll returned. *)
Definition download_parms (parms : ISubmitParms) (job : IJob)
  : IDownloadAllSpoolContentParms :=
  {| dl_jobid := jobid job;
     dl_jobname := jobname job;
     dl_outDir := directory parms;
     dl_extension :=
       match truthy_string (extension parms) with
       | Some ext => val (IO_normalizeExtension ext)
       | None => undefined
       end |}.

(** Whether the options ask, one way or another, to wait for OUTPUT:
    [viewAllSpoolContent], [waitForOutput] or [directory] is set. *)
Definition asks_for_output (parms : ISubmitParms) : bool :=
  truthy_bool (viewAllSpoolContent parms) || truthy_bool (waitForOutput parms)
  || match truthy_string (directory parms) with
     | Some _ => true
     | None => false
     end.

(** The parameters of the status polls of a trace, in order. *)
Definition polls (tr : list (entry SubmitE)) : list IMonitorJobWaitForParms :=
  flat_map
    (fun c =>
       match poll_request c with
       | Some parms => [parms]
       | None => []
       end)
    tr.

(** What a job snapshot or a rejection settles [checkSubmitOptions] with. *)
Definition settled_job (answer : ErrorObject + IJob) : thrown + SubmitResult :=
  match answer with
  | inl err => inl (Rejected err)
  | inr job => inr (ResJob job)
  end.

(** What [checkSubmitOptions] does once the poll for OUTPUT has returned
    [job]: the rest of the trace and what the run settles with. *)
Inductive after_output (session : AbstractSession) (parms : ISubmitParms) (job : IJob)
  : list (entry SubmitE) -> thrown + SubmitResult -> Prop :=
| snapshot_returned :
    truthy_bool (viewAllSpoolContent parms) = false ->
    truthy_bool (waitForOutput parms) = true ->
    after_output session parms job [] (inr (ResJob job))
| spool_listing_rejected e :
    truthy_bool (viewAllSpoolContent parms) = true ->
    after_output session parms job
      (progress parms (retrieving_message job) SEVENTY_PERCENT ++
       [answered (GetSpoolFilesForJob session job) (inl e)])
      (inl (Rejected e))
| spool_fetch_rejected fetched file rest contents e :
    truthy_bool (viewAllSpoolContent parms) = true ->
    length contents = length fetched ->
    after_output session parms job
      (progress parms (retrieving_message job) SEVENTY_PERCENT ++
       answered (GetSpoolFilesForJob session job) (inr (fetched ++ file :: rest)) ::
       fetches session fetched contents ++
       [answered (GetSpoolContent session file) (inl e)])
      (inl (Rejected e))
| spool_collected files contents :
    truthy_bool (viewAllSpoolContent parms) = true ->
    length contents = length files ->
    after_output session parms job
      (progress parms (retrieving_message job) SEVENTY_PERCENT ++
       answered (GetSpoolFilesForJob session job) (inr files) ::
       fetches session files contents)
      (inr (ResSpool (spool_files_of files contents)))
| spool_downloaded answer :
    truthy_bool (viewAllSpoolContent parms) = false ->
    truthy_bool (waitForOutput parms) = false ->
    truthy_string (directory parms) <> None ->
    after_output session parms job
      (progress parms (downloading_message job) SEVENTY_PERCENT ++
       [answered (DownloadAllSpoolContentCommon session (download_parms parms job)) answer])
      (match answer with
       | inl err => inl (Rejected err)
       | inr _ => inr (ResJob job)
       end).

(** Every way a run of [checkSubmitOptions] for the submitted job [job0]
    can go. *)
Inductive post_submission (session : AbstractSession) (parms : ISubmitParms) (job0 : IJob)
  : list (entry SubmitE) -> thrown + SubmitResult -> Prop :=
| waited_for_active answer :
    truthy_bool (waitForActive parms) = true ->
    post_submission session parms job0
      [answered (WaitForStatusCommon session (poll_parms parms job0 ACTIVE)) answer]
      (settled_job answer)
| nothing_asked :
    truthy_bool (waitForActive parms) = false ->
    asks_for_output parms = false ->
    post_submission session parms job0 [] (inr (ResJob job0))
| output_poll_rejected e :
    truthy_bool (waitForActive parms) = false ->
    asks_for_output parms = true ->
    post_submission session parms job0
      (progress parms (waiting_message job0) THIRTY_PERCENT ++
       [answered (WaitForStatusCommon session (poll_parms parms job0 OUTPUT)) (inl e)])
      (inl (Rejected e))
| output_reached job rest r :
    truthy_bool (waitForActive parms) = false ->
    after_output session parms job rest r ->
    post_submission session parms job0
      (progress parms (waiting_message job0) THIRTY_PERCENT ++
       answered (WaitForStatusCommon session (poll_parms parms job0 OUTPUT)) (inr job) ::
       rest)
      r.

(** Options asking to wait for OUTPUT only, with a directory set as well. *)
Definition output_and_directory : ISubmitParms :=
  {| viewAllSpoolContent := undefined; directory := val "./output"%string;
     extension := undefined; waitForActive := undefined; waitForOutput := val true;
     task := undefined; maxAttempts := val 10; watchDelay := undefined |}.

(** Options asking for a download into a directory, with an extension. *)
Definition download_to (ext : js string) (progressTask : js unit) : ISubmitParms :=
  {| viewAllSpoolContent := undefined; directory := val "./output"%string;
     extension := ext; waitForActive := undefined; waitForOutput := undefined;
     task := progressTask; maxAttempts := undefined; watchDelay := undefined |}.

End SubmitJobs.

(** ** StartCommonHandler *)

Module StartCommonHandler.

Definition AbstractSession : Type := string.

(** The command line arguments the handler reads. *)
Record Arguments : Type := mkArguments {
  workflowKey : js string;
  resolveConflict : js string;
  stepName : js string;
  performOneStep : js bool;
  wait : js bool
}.

Record IAutomationStatus : Type := mkIAutomationStatus {
  currentStepName : js string
}.

(** The properties of a workflow that the handler reads. *)
Record IWorkflowInfo : Type := mkIWorkflowInfo {
  statusName : js string;
  automationStatus : js IAutomationStatus
}.

(** The calls the handler makes. *)
Inductive StartE : Type -> Type :=
| StartWorkflow (session : AbstractSession) (workflowKey resolveConflict stepName : js string)
    (subsequent : bool) : StartE (ErrorObject + unit)%type
| GetWorkflowProperties (session : AbstractSession) (workflowKey : js string)
    : StartE (ErrorObject + IWorkflowInfo)%type
| SetObj (data : string) : StartE unit
| ConsoleLog (text : string) : StartE unit.

Definition M : Type -> Type := async StartE.

(** [x === s] for an optional string [x]. *)
Definition strict_equal (x : js string) (s : string) : bool :=
  match x with
  | val v => String.eqb v s
  | _ => false
  end.

(** One pass through the body of [while(x)]; the result is the new [x]. *)
Definition poll (mSession : AbstractSession) (arguments : Arguments) (x : bool) : M bool :=
  response <- await (GetWorkflowProperties mSession (workflowKey arguments)) ;;
  match automationStatus response with
  | val status =>
      if isNullOrUndefined (currentStepName status) then
        if strict_equal (statusName response) "complete" then
          perform (SetObj "Complete.") ;;
          perform (ConsoleLog "Workflow completed successfully.") ;;
          resolve false
        else
          perform (SetObj "Fail.") ;;
          perform (ConsoleLog "Workflow failed.") ;;
          resolve false
      else resolve x
  | _ => resolve x
  end.

(** [processCmd]; the default [false] that the source writes into
    [arguments.performOneStep] is a local binding here. *)
Definition processCmd (mSession : AbstractSession) (arguments : Arguments) : M unit :=
  let performOneStep :=
    if isNullOrUndefined (performOneStep arguments) then val false
    else performOneStep arguments in
  try_await
    (StartWorkflow mSession (workflowKey arguments) (resolveConflict arguments)
       (stepName arguments) (negb (truthy_bool performOneStep)))
    (fun err => throw (ThrownString ("Start workflow: " ++ toString err))) ;;
  if truthy_bool (wait arguments) then
    while (fun x => x) (poll mSession arguments) true ;;
    resolve tt
  else
    perform (SetObj "Started.") ;;
    perform (ConsoleLog "Workflow started.").

(** *** Reading the answers of the remote system *)

(** The automation is at no step: [automationStatus] is present and its
    [currentStepName] is null or absent. *)
Definition step_finished (response : IWorkflowInfo) : bool :=
  match automationStatus response with
  | val status => isNullOrUndefined (currentStepName status)
  | _ => false
  end.

(** The report the handler makes when it stops waiting. *)
Definition report (response : IWorkflowInfo) : list (entry StartE) :=
  if strict_equal (statusName response) "complete" then
    [answered (SetObj "Complete.") tt;
     answered (ConsoleLog "Workflow completed successfully.") tt]
  else
    [answered (SetObj "Fail.") tt;
     answered (ConsoleLog "Workflow failed.") tt].

(** The error a remote call of the trace was rejected with. *)
Definition rejection (c : entry StartE) : option ErrorObject :=
  let (X, p) := c in
  match fst p in StartE X return X -> option ErrorObject with
  | StartWorkflow _ _ _ _ _ =>
      fun answer => match answer with inl err => Some err | inr _ => None end
  | GetWorkflowProperties _ _ =>
      fun answer => match answer with inl err => Some err | inr _ => None end
  | SetObj _ | ConsoleLog _ => fun _ => None
  end (snd p).

Definition is_query (c : entry StartE) : bool :=
  match fst (projT2 c) with
  | GetWorkflowProperties _ _ => true
  | _ => false
  end.

(** The call that starts the workflow, as [processCmd] makes it. *)
Definition start_call (mSession : AbstractSession) (arguments : Arguments)
  : StartE (ErrorObject + unit)%type :=
  StartWorkflow mSession (workflowKey arguments) (resolveConflict arguments)
    (stepName arguments) (negb (truthy_bool (performOneStep arguments))).

Section Polling.
Context {W : Type}.
Variable remote : forall X, StartE X -> W -> X * W.
Variable mSession : AbstractSession.
Variable key : js string.

(** The state of the remote system after [n] queries of the properties. *)
Fixpoint after_queries (n : nat) (w : W) : W :=
  match n with
  | 0 => w
  | S m => after_queries m (snd (remote (GetWorkflowProperties mSession key) w))
  end.

(** The answer to the query made after [n] earlier ones. *)
Definition answer_at (n : nat) (w : W) : ErrorObject + IWorkflowInfo :=
  fst (remote (GetWorkflowProperties mSession key) (after_queries n w)).

(** The first [n] queries, back to back, with their answers. *)
Fixpoint queries (n : nat) (w : W) : list (entry StartE) :=
  match n with
  | 0 => []
  | S m =>
      answered (GetWorkflowProperties mSession key)
        (fst (remote (GetWorkflowProperties mSession key) w))
      :: queries m (snd (remote (GetWorkflowProperties mSession key) w))
  end.

(** The first [n] answers are properties of a workflow still in a step. *)
Definition still_running (n : nat) (w : W) : Prop :=
  forall i, i < n ->
    exists response, answer_at i w = inr response /\ step_finished response = false.
End Polling.

(** *** A sample workflow *)

Definition in_step (name : string) : IWorkflowInfo :=
  {| statusName := val "automation-in-progress";
     automationStatus := val {| currentStepName := val name |} |}.

Definition finished (status : string) : IWorkflowInfo :=
  {| statusName := val status;
     automationStatus := val {| currentStepName := null |} |}.

(** Properties without [automationStatus], as before automation starts. *)
Definition not_automated (status : string) : IWorkflowInfo :=
  {| statusName := val status; automationStatus := undefined |}.

Definition start_error : ErrorObject :=
  {| message := "Workflow key not found"; toString := "Error: Workflow key not found" |}.

(** A remote system whose state is the number of property queries served
    so far: the start succeeds unless [broken], and query [n] is answered
    with [script n]. *)
Definition sample_workflow (broken : bool) (script : nat -> ErrorObject + IWorkflowInfo)
  : forall X, StartE X -> nat -> X * nat :=
  fun X e served =>
    match e in StartE X return X * nat with
    | StartWorkflow _ _ _ _ _ => (if broken then inl start_error else inr tt, served)
    | GetWorkflowProperties _ _ => (script served, S served)
    | SetObj _ => (tt, served)
    | ConsoleLog _ => (tt, served)
    end.

(** *** Reading a trace of the handler *)

Definition is_start (c : entry StartE) : bool :=
  match fst (projT2 c) with
  | StartWorkflow _ _ _ _ _ => true
  | _ => false
  end.

(** What the handler has set as the response object, in order. *)
Definition reports (tr : list (entry StartE)) : list string :=
  flat_map
    (fun c =>
       match fst (projT2 c) with
       | SetObj data => [data]
       | _ => []
       end)
    tr.

(** What the handler has written to the console, in order. *)
Definition console (tr : list (entry StartE)) : list string :=
  flat_map
    (fun c =>
       match fst (projT2 c) with
       | ConsoleLog text => [text]
       | _ => []
       end)
    tr.

(** Two answers without [automationStatus] whose status name is already
    complete, one answer inside a step, then the finished workflow. *)
Definition sample_script (final_status : string) (n : nat) : ErrorObject + IWorkflowInfo :=
  match n with
  | 0 => inr (not_automated "complete")
  | 1 => inr (not_automated "complete")
  | 2 => inr (in_step "Step 1")
  | _ => inr (finished final_status)
  end.

(** A workflow that never gets an [automationStatus]. *)
Definition never_automated (n : nat) : ErrorObject + IWorkflowInfo :=
  inr (not_automated "complete").

Definition sample_arguments (wait : js bool) : Arguments :=
  {| workflowKey := val "d043b5f1-adab-48e7-b7c3-d41cd95fa4b0";
     resolveConflict := val "outputFileValue";
     stepName := undefined;
     performOneStep := undefined;
     wait := wait |}.

(** A workflow whose second properties query is rejected. *)
Definition rejecting_script (n : nat) : ErrorObject + IWorkflowInfo :=
  match n with
  | 0 => inr (in_step "Step 1")
  | _ => inl start_error
  end.

End StartCommonHandler.

(** * Properties *)

Local Open Scope list_scope.

(** ** Runs of trees *)

Section ExecFacts.
Context {E : Type -> Type} {W : Type}.
Variable handle : forall X, E X -> W -> X * W.

Lemma exec_observe {R} (t1 t2 : itree E R) (fuel : nat) (w : W) :
  observe t1 = observe t2 -> exec handle fuel t1 w = exec handle fuel t2 w.
Proof.
  intros Hobs. destruct fuel as [|n]; simpl; [reflexivity|].
  rewrite Hobs. reflexivity.
Qed.

Lemma exec_more_fuel {R} (n : nat) :
  forall (t : itree E R) (w : W) (tr : list (entry E)) (x : R * W),
    exec handle n t w = {| trace := tr; final := Some x |} ->
    forall m, n <= m -> exec handle m t w = {| trace := tr; final := Some x |}.
Proof.
  induction n as [|n IH]; intros t w tr x Hrun m Hle.
  - discriminate Hrun.
  - destruct m as [|m]; [lia|].
    simpl in *. destruct (observe t) as [r|t'|X e k].
    + exact Hrun.
    + apply IH with (m := m) in Hrun; [exact Hrun | lia].
    + destruct (handle e w) as [a w1].
      destruct (exec handle n (k a) w1) as [tr1 [x1|]] eqn:Hk;
        unfold performed in Hrun; simpl in Hrun; inversion Hrun; subst.
      rewrite (IH _ _ _ _ Hk m); [reflexivity | lia].
Qed.

Lemma runs_to_observe {R} (t1 t2 : itree E R) w tr r w' :
  observe t1 = observe t2 ->
  runs_to handle t1 w tr r w' -> runs_to handle t2 w tr r w'.
Proof.
  intros Hobs [n Hn]. exists n. rewrite <- (exec_observe _ _ n w Hobs). exact Hn.
Qed.

Lemma runs_to_deterministic {R} (t : itree E R) w tr1 r1 w1 tr2 r2 w2 :
  runs_to handle t w tr1 r1 w1 -> runs_to handle t w tr2 r2 w2 ->
  tr1 = tr2 /\ r1 = r2 /\ w1 = w2.
Proof.
  intros [n1 H1] [n2 H2].
  pose proof (@exec_more_fuel R n1 t w tr1 _ H1 (n1 + n2) ltac:(lia)) as H1'.
  pose proof (@exec_more_fuel R n2 t w tr2 _ H2 (n1 + n2) ltac:(lia)) as H2'.
  rewrite H1' in H2'. inversion H2'. auto.
Qed.

Lemma runs_to_ret {R} (t : itree E R) (r : R) (w : W) :
  observe t = RetF r -> runs_to handle t w [] r w.
Proof. intros Hobs. exists 1. simpl. rewrite Hobs. reflexivity. Qed.

Lemma runs_to_ret_inv {R} (t : itree E R) (r0 : R) w tr r w' :
  observe t = RetF r0 -> runs_to handle t w tr r w' ->
  tr = [] /\ r = r0 /\ w' = w.
Proof.
  intros Hobs Hrun.
  apply (runs_to_deterministic Hrun (runs_to_ret t w Hobs)).
Qed.

Lemma runs_to_tau {R} (t t' : itree E R) w tr r w' :
  observe t = TauF t' -> runs_to handle t' w tr r w' -> runs_to handle t w tr r w'.
Proof.
  intros Hobs [n Hn]. exists (S n). simpl. rewrite Hobs. exact Hn.
Qed.

Lemma runs_to_tau_inv {R} (t t' : itree E R) w tr r w' :
  observe t = TauF t' -> runs_to handle t w tr r w' -> runs_to handle t' w tr r w'.
Proof.
  intros Hobs [[|n] Hn]; [discriminate Hn|].
  simpl in Hn. rewrite Hobs in Hn. exists n. exact Hn.
Qed.

Lemma runs_to_vis {R X} (t : itree E R) (e : E X) (k : X -> itree E R) w tr r w' :
  observe t = VisF e k ->
  runs_to handle (k (fst (handle e w))) (snd (handle e w)) tr r w' ->
  runs_to handle t w (answered e (fst (handle e w)) :: tr) r w'.
Proof.
  intros Hobs [n Hn]. exists (S n). simpl. rewrite Hobs.
  destruct (handle e w) as [a w1]. simpl in Hn. rewrite Hn. reflexivity.
Qed.

Lemma runs_to_vis_inv {R X} (t : itree E R) (e : E X) (k : X -> itree E R) w tr r w' :
  observe t = VisF e k -> runs_to handle t w tr r w' ->
  exists tr', tr = answered e (fst (handle e w)) :: tr' /\
    runs_to handle (k (fst (handle e w))) (snd (handle e w)) tr' r w'.
Proof.
  intros Hobs [[|n] Hn]; [discriminate Hn|].
  simpl in Hn. rewrite Hobs in Hn.
  destruct (handle e w) as [a w1]. simpl.
  destruct (exec handle n (k a) w1) as [tr1 fin] eqn:Hk.
  unfold performed in Hn; simpl in Hn. inversion Hn; subst.
  exists tr1. split; [reflexivity|]. exists n. exact Hk.
Qed.

(** A run of [ITree.bind t k] is a run of [t] followed by a run of [k]. *)
Lemma runs_to_bind {A R} (t : itree E A) (k : A -> itree E R) w tr1 a w1 tr2 r w2 :
  runs_to handle t w tr1 a w1 -> runs_to handle (k a) w1 tr2 r w2 ->
  runs_to handle (ITree.bind t k) w (tr1 ++ tr2) r w2.
Proof.
  intros [n Hn]. revert t w tr1 Hn.
  induction n as [|n IH]; intros t w tr1 Hn Hk; [discriminate Hn|].
  simpl in Hn. destruct (observe t) as [a0|t'|X e h] eqn:Hobs.
  - inversion Hn; subst. simpl.
    apply runs_to_observe with (t1 := k a); [|exact Hk].
    rewrite observe_bind, Hobs. reflexivity.
  - apply runs_to_tau with (t' := ITree.bind t' k).
    + rewrite observe_bind, Hobs. reflexivity.
    + apply IH; assumption.
  - destruct (handle e w) as [x wx] eqn:Hh.
    destruct (exec handle n (h x) wx) as [tr' fin] eqn:Hx.
    unfold performed in Hn; simpl in Hn. inversion Hn; subst.
    pose proof (@runs_to_vis R X (ITree.bind t k) e (fun y => ITree.bind (h y) k) w
                  (tr' ++ tr2) r w2) as Hvis.
    rewrite Hh in Hvis. simpl in Hvis. apply Hvis.
    + rewrite Hobs. reflexivity.
    + apply IH; assumption.
Qed.

Lemma runs_to_bind_inv {A R} (t : itree E A) (k : A -> itree E R) w tr r w2 :
  runs_to handle (ITree.bind t k) w tr r w2 ->
  exists tr1 a w1 tr2,
    runs_to handle t w tr1 a w1 /\ runs_to handle (k a) w1 tr2 r w2 /\
    tr = tr1 ++ tr2.
Proof.
  intros [n Hn]. revert t w tr Hn.
  induction n as [|n IH]; intros t w tr Hn; [discriminate Hn|].
  destruct (observe t) as [a0|t'|X e h] eqn:Hobs.
  - exists [], a0, w, tr. split; [apply runs_to_ret; exact Hobs|].
    split; [|reflexivity].
    exists (S n). rewrite <- Hn. apply exec_observe.
    rewrite observe_bind, Hobs. reflexivity.
  - simpl in Hn. rewrite Hobs in Hn. simpl in Hn.
    destruct (IH _ _ _ Hn) as (tr1 & a & w1 & tr2 & H1 & H2 & Htr).
    exists tr1, a, w1, tr2. split; [|auto].
    apply runs_to_tau with (t' := t'); assumption.
  - simpl in Hn. rewrite Hobs in Hn. simpl in Hn.
    destruct (handle e w) as [x wx] eqn:Hh.
    destruct (exec handle n (ITree.bind (h x) k) wx) as [tr' fin] eqn:Hx.
    unfold performed in Hn; simpl in Hn. inversion Hn; subst.
    destruct (IH _ _ _ Hx) as (tr1 & a & w1 & tr2 & H1 & H2 & Htr).
    exists (answered e x :: tr1), a, w1, tr2. split; [|split; [exact H2|]].
    + pose proof (@runs_to_vis A X t e h w tr1 a w1 Hobs) as Hvis.
      rewrite Hh in Hvis. apply Hvis. exact H1.
    + subst. reflexivity.
Qed.
(** A program with a terminating run does not diverge, and conversely. *)
Lemma diverges_iff_no_run {R} (t : itree E R) (w : W) :
  diverges handle t w <-> ~ terminates handle t w.
Proof.
  split.
  - intros Hdiv (tr & r & w' & n & Hn). specialize (Hdiv n).
    rewrite Hn in Hdiv. discriminate Hdiv.
  - intros Hno n. destruct (exec handle n t w) as [tr [[r w']|]] eqn:Hn; [|reflexivity].
    exfalso. apply Hno. exists tr, r, w', n. exact Hn.
Qed.
End ExecFacts.

(** ** Runs of [async] functions *)

Section AsyncFacts.
Context {E : Type -> Type} {W : Type}.
Variable handle : forall X, E X -> W -> X * W.

Lemma runs_to_resolve_inv {R} (x : R) w tr r w' :
  runs_to handle (resolve x) w tr r w' -> tr = [] /\ r = inr x /\ w' = w.
Proof. apply runs_to_ret_inv. reflexivity. Qed.

Lemma runs_to_throw_inv {R} (v : thrown) w tr (r : thrown + R) w' :
  runs_to handle (throw v) w tr r w' -> tr = [] /\ r = inl v /\ w' = w.
Proof. apply runs_to_ret_inv. reflexivity. Qed.

Lemma runs_to_perform {X} (e : E X) w :
  runs_to handle (perform e) w
    [answered e (fst (handle e w))] (inr (fst (handle e w))) (snd (handle e w)).
Proof.
  apply (@runs_to_vis E W handle _ X (perform e) e
           (fun x => ITree.bind (Ret x) (fun y => Ret (inr y)))).
  - reflexivity.
  - apply runs_to_ret. reflexivity.
Qed.

Lemma runs_to_perform_inv {X} (e : E X) w tr r w' :
  runs_to handle (perform e) w tr r w' ->
  tr = [answered e (fst (handle e w))] /\ r = inr (fst (handle e w)) /\
  w' = snd (handle e w).
Proof.
  intros Hrun. apply (runs_to_deterministic Hrun (runs_to_perform e w)).
Qed.

Lemma runs_to_await {X} (e : E (ErrorObject + X)%type) w :
  runs_to handle (await e) w
    [answered e (fst (handle e w))] (settled (fst (handle e w))) (snd (handle e w)).
Proof.
  apply (@runs_to_vis E W handle _ _ (await e) e
           (fun x => ITree.bind (Ret x) (fun answer => Ret (settled answer)))).
  - reflexivity.
  - apply runs_to_ret. reflexivity.
Qed.

Lemma runs_to_await_inv {X} (e : E (ErrorObject + X)%type) w tr r w' :
  runs_to handle (await e) w tr r w' ->
  tr = [answered e (fst (handle e w))] /\ r = settled (fst (handle e w)) /\
  w' = snd (handle e w).
Proof.
  intros Hrun. apply (runs_to_deterministic Hrun (runs_to_await e w)).
Qed.

Lemma runs_to_andThen_ok {A B} (c : async E A) (k : A -> async E B)
  w tr1 a w1 tr2 r w2 :
  runs_to handle c w tr1 (inr a) w1 -> runs_to handle (k a) w1 tr2 r w2 ->
  runs_to handle (andThen c k) w (tr1 ++ tr2) r w2.
Proof.
  intros Hc Hk. unfold andThen.
  apply runs_to_bind with (a := inr a) (w1 := w1); assumption.
Qed.

Lemma runs_to_andThen_rejected {A B} (c : async E A) (k : A -> async E B) w tr v w1 :
  runs_to handle c w tr (inl v) w1 ->
  runs_to handle (andThen c k) w tr (inl v) w1.
Proof.
  intros Hc. unfold andThen. rewrite <- (app_nil_r tr).
  apply runs_to_bind with (a := inl v) (w1 := w1); [assumption|].
  apply runs_to_ret. reflexivity.
Qed.

Lemma runs_to_andThen_inv {A B} (c : async E A) (k : A -> async E B) w tr r w2 :
  runs_to handle (andThen c k) w tr r w2 ->
  (exists v, runs_to handle c w tr (inl v) w2 /\ r = inl v) \/
  (exists tr1 a w1 tr2,
      runs_to handle c w tr1 (inr a) w1 /\ runs_to handle (k a) w1 tr2 r w2 /\
      tr = tr1 ++ tr2).
Proof.
  intros Hrun. unfold andThen in Hrun.
  apply runs_to_bind_inv in Hrun.
  destruct Hrun as (tr1 & [v|a] & w1 & tr2 & Hc & Hk & ->).
  - left. exists v.
    apply runs_to_ret_inv with (r0 := inl v) in Hk; [|reflexivity].
    destruct Hk as (-> & -> & ->). rewrite app_nil_r. auto.
  - right. exists tr1, a, w1, tr2. auto.
Qed.

Lemma terminates_resolve {R} (x : R) w : terminates handle (resolve x) w.
Proof. exists [], (inr x), w. apply runs_to_ret. reflexivity. Qed.

Lemma terminates_throw {R} (v : thrown) w : terminates handle (@throw E R v) w.
Proof. exists [], (inl v), w. apply runs_to_ret. reflexivity. Qed.

Lemma terminates_perform {X} (e : E X) w : terminates handle (perform e) w.
Proof. do 3 eexists. apply runs_to_perform. Qed.

Lemma terminates_await {X} (e : E (ErrorObject + X)%type) w : terminates handle (await e) w.
Proof. do 3 eexists. apply runs_to_await. Qed.

Lemma terminates_andThen {A B} (c : async E A) (k : A -> async E B) w :
  terminates handle c w -> (forall a w1, terminates handle (k a) w1) ->
  terminates handle (andThen c k) w.
Proof.
  intros (tr1 & [v|a] & w1 & Hc) Hk.
  - exists tr1, (inl v), w1. apply runs_to_andThen_rejected. exact Hc.
  - destruct (Hk a w1) as (tr2 & r & w2 & Hka).
    exists (tr1 ++ tr2), r, w2. eapply runs_to_andThen_ok; eassumption.
Qed.
End AsyncFacts.

(** ** Loops *)

Section WhileFacts.
Context {E : Type -> Type} {W S : Type}.
Variable handle : forall X, E X -> W -> X * W.
Variable cond : S -> bool.
Variable body : S -> async E S.

Lemma while_done s w :
  cond s = false -> runs_to handle (while cond body s) w [] (inr s) w.
Proof.
  intros Hcond. apply runs_to_ret. unfold while.
  rewrite (observing_observe (unfold_aloop_ _ s)).
  rewrite observe_bind, Hcond. reflexivity.
Qed.

Lemma while_again s w tr1 s' w1 tr2 r w2 :
  cond s = true ->
  runs_to handle (body s) w tr1 (inr s') w1 ->
  runs_to handle (while cond body s') w1 tr2 r w2 ->
  runs_to handle (while cond body s) w (tr1 ++ tr2) r w2.
Proof.
  intros Hcond Hbody Hrest. unfold while.
  eapply runs_to_observe; [symmetry; apply (observing_observe (unfold_aloop_ _ s))|].
  cbv beta. rewrite Hcond.
  apply runs_to_bind with (a := inl s') (w1 := w1).
  - rewrite <- (app_nil_r tr1).
    apply runs_to_bind with (a := inr s') (w1 := w1); [exact Hbody|].
    apply runs_to_ret. reflexivity.
  - eapply runs_to_tau; [reflexivity|]. exact Hrest.
Qed.

Lemma while_rejected s w tr v w1 :
  cond s = true ->
  runs_to handle (body s) w tr (inl v) w1 ->
  runs_to handle (while cond body s) w tr (inl v) w1.
Proof.
  intros Hcond Hbody. unfold while.
  eapply runs_to_observe; [symmetry; apply (observing_observe (unfold_aloop_ _ s))|].
  cbv beta. rewrite Hcond. rewrite <- (app_nil_r tr).
  apply runs_to_bind with (a := inr (inl v)) (w1 := w1).
  - rewrite <- (app_nil_r tr).
    apply runs_to_bind with (a := inl v) (w1 := w1); [exact Hbody|].
    apply runs_to_ret. reflexivity.
  - apply runs_to_ret. reflexivity.
Qed.

(** A run of the loop either finds the condition false, or is a pass
    through the body that is rejected, or a pass followed by a run of the
    loop from the state the pass left. *)
Lemma while_inv s w tr r w2 :
  runs_to handle (while cond body s) w tr r w2 ->
  (cond s = false /\ tr = [] /\ r = inr s /\ w2 = w) \/
  (cond s = true /\
   ((exists v, runs_to handle (body s) w tr (inl v) w2 /\ r = inl v) \/
    (exists tr1 s' w1 tr2,
        runs_to handle (body s) w tr1 (inr s') w1 /\
        runs_to handle (while cond body s') w1 tr2 r w2 /\
        tr = tr1 ++ tr2))).
Proof.
  intros Hrun. unfold while in Hrun.
  eapply runs_to_observe in Hrun; [|apply (observing_observe (unfold_aloop_ _ s))].
  cbv beta in Hrun. destruct (cond s).
  - right. split; [reflexivity|].
    apply runs_to_bind_inv in Hrun.
    destruct Hrun as (tr1 & a & w1 & tr2 & Hstep & Hnext & ->).
    apply runs_to_bind_inv in Hstep.
    destruct Hstep as (tr3 & b & w3 & tr4 & Hbody & Hwrap & ->).
    destruct b as [v|s'].
    + apply runs_to_ret_inv with (r0 := inr (inl v)) in Hwrap; [|reflexivity].
      destruct Hwrap as (-> & -> & ->).
      apply runs_to_ret_inv with (r0 := inl v) in Hnext; [|reflexivity].
      destruct Hnext as (-> & -> & ->).
      left. exists v. rewrite !app_nil_r. auto.
    + apply runs_to_ret_inv with (r0 := inl s') in Hwrap; [|reflexivity].
      destruct Hwrap as (-> & -> & ->).
      eapply runs_to_tau_inv in Hnext; [|reflexivity].
      right. exists tr3, s', w3, tr2. rewrite app_nil_r. auto.
  - left.
    apply runs_to_bind_inv in Hrun.
    destruct Hrun as (tr1 & a & w1 & tr2 & Hstep & Hnext & ->).
    apply runs_to_ret_inv with (r0 := inr (inr s)) in Hstep; [|reflexivity].
    destruct Hstep as (-> & -> & ->).
    apply runs_to_ret_inv with (r0 := inr s) in Hnext; [|reflexivity].
    destruct Hnext as (-> & -> & ->). auto.
Qed.
End WhileFacts.

(** ** Traces of SubmitJobs *)

Import SubmitJobs.

Lemma local_no_rejection (c : entry SubmitE) : is_remote c = false -> rejection c = None.
Proof. destruct c as [X [e x]]. destruct e; cbn; congruence. Qed.

Lemma remote_calls_app (tr1 tr2 : list (entry SubmitE)) :
  remote_calls (tr1 ++ tr2) = remote_calls tr1 ++ remote_calls tr2.
Proof. apply filter_app. Qed.

Lemma remote_calls_local (tr : list (entry SubmitE)) :
  local_only tr -> remote_calls tr = [].
Proof.
  induction 1 as [|c tr Hc _ IH]; [reflexivity|].
  unfold remote_calls in *. simpl. rewrite Hc. exact IH.
Qed.

Lemma remote_calls_fetches session files contents :
  remote_calls (fetches session files contents) = fetches session files contents.
Proof.
  unfold fetches. induction (combine files contents) as [|fc l IH]; [reflexivity|].
  unfold remote_calls in *. simpl. rewrite IH. reflexivity.
Qed.

Lemma fetches_succeed session files contents (c : entry SubmitE) :
  In c (fetches session files contents) -> rejection c = None.
Proof.
  unfold fetches. intros Hin. apply in_map_iff in Hin.
  destruct Hin as (fc & <- & _). reflexivity.
Qed.

Lemma spool_files_of_length files contents :
  length contents = length files ->
  length (spool_files_of files contents) = length files.
Proof.
  intros Hlen. unfold spool_files_of.
  rewrite length_map, length_combine, Hlen. apply Nat.min_id.
Qed.

(** Each entry carries the fields of its descriptor and the content fetched
    for it, position by position. *)
Lemma spool_files_of_fields files : forall contents,
  length contents = length files ->
  map sp_id (spool_files_of files contents) = map id files /\
  map sp_ddName (spool_files_of files contents) = map ddname files /\
  map sp_stepName (spool_files_of files contents) = map stepname files /\
  map sp_procName (spool_files_of files contents) = map procstep files /\
  map sp_data (spool_files_of files contents) = contents.
Proof.
  induction files as [|f files IH]; intros [|c contents] Hlen; try discriminate Hlen.
  - repeat split.
  - injection Hlen as Hlen. destruct (IH contents Hlen) as (H1 & H2 & H3 & H4 & H5).
    unfold spool_files_of in *. simpl.
    rewrite H1, H2, H3, H4, H5. repeat split.
Qed.

Lemma local_not_submitted (c : entry SubmitE) : is_remote c = false -> submitted c = None.
Proof. destruct c as [X [e x]]. destruct e; cbn; congruence. Qed.

Lemma local_not_poll (c : entry SubmitE) : is_remote c = false -> is_poll c = false.
Proof. destruct c as [X [e x]]. destruct e; cbn; congruence. Qed.

Lemma local_only_no_poll (tr : list (entry SubmitE)) :
  local_only tr -> Forall (fun c => is_poll c = false) tr.
Proof.
  intros Hlocal. eapply Forall_impl; [|exact Hlocal].
  intros c Hc. apply local_not_poll. exact Hc.
Qed.

Lemma local_only_none_submitted (tr : list (entry SubmitE)) (c : entry SubmitE) (job : IJob) :
  local_only tr -> In c tr -> submitted c = Some job -> False.
Proof.
  intros Hlocal Hin Hsub. unfold local_only in Hlocal. rewrite Forall_forall in Hlocal.
  apply Hlocal, local_not_submitted in Hin. congruence.
Qed.

Lemma validated_after_local session status watchDelay before tr r :
  local_only before ->
  validated_before_polling session status watchDelay tr r ->
  validated_before_polling session status watchDelay (before ++ tr) r.
Proof.
  intros Hlocal Hvalid c job Hin Hsub.
  apply in_app_or in Hin. destruct Hin as [Hin|Hin].
  { exfalso. eapply local_only_none_submitted; eassumption. }
  specialize (Hvalid c job Hin Hsub).
  destruct (lacks_identity job).
  - destruct Hvalid as (Hr & Hnopoll). split; [exact Hr|].
    apply Forall_app. split; [apply local_only_no_poll; exact Hlocal | exact Hnopoll].
  - destruct Hvalid as (answer & Hcalls & Hr). exists answer.
    rewrite remote_calls_app, (remote_calls_local Hlocal). auto.
Qed.

(** ** Tactics for runs of SubmitJobs *)

(** Takes apart a run of a sequence of awaited calls, one step at a time. *)
Ltac split_run H :=
  lazymatch type of H with
  | runs_to _ (andThen _ _) _ _ _ _ =>
      let v := fresh "v" in
      let Hc := fresh "Hc" in
      let Hk := fresh "Hk" in
      let tr1 := fresh "tr" in
      let tr2 := fresh "tr" in
      let a := fresh "a" in
      let w1 := fresh "w" in
      apply runs_to_andThen_inv in H;
      destruct H as [(v & Hc & ?) | (tr1 & a & w1 & tr2 & Hc & Hk & ?)];
      [split_run Hc | split_run Hc; try split_run Hk]
  | runs_to _ (perform _) _ _ _ _ =>
      apply runs_to_perform_inv in H; destruct H as (? & ? & ?)
  | runs_to _ (await _) _ _ _ _ =>
      apply runs_to_await_inv in H; destruct H as (? & ? & ?)
  | runs_to _ (resolve _) _ _ _ _ =>
      apply runs_to_resolve_inv in H; destruct H as (? & ? & ?)
  | runs_to _ (throw _) _ _ _ _ =>
      apply runs_to_throw_inv in H; destruct H as (? & ? & ?)
  | _ => idtac
  end.

(** Clears the equations between results that taking a run apart leaves. *)
Ltac tidy_run :=
  repeat match goal with
  | H : inl _ = inr _ |- _ => discriminate H
  | H : inr _ = inl _ |- _ => discriminate H
  | H : @inl _ _ _ = inl _ |- _ => injection H as H
  | H : @inr _ _ _ = inr _ |- _ => injection H as H
  end;
  subst.

(** All but the last entry of a trace written out entry by entry. *)
Ltac all_but_last tr :=
  lazymatch tr with
  | cons ?c nil => constr:(@nil (entry SubmitE))
  | cons ?c ?rest => let init := all_but_last rest in constr:(cons c init)
  end.

(** Solves [exists before answer, local_only before /\ tr = before ++ [_] /\ _]
    for a trace [tr] written out entry by entry. *)
Ltac last_call_settles :=
  rewrite <- ?app_assoc; cbn [app];
  lazymatch goal with
  | |- exists before answer, _ /\ ?tr = _ /\ _ =>
      let init := all_but_last tr in
      exists init; eexists; split; [repeat constructor | split; reflexivity]
  end.

(** The answer of a local effect is [tt]. *)
Ltac unit_answers :=
  repeat match goal with
  | |- context [fst (?remote unit ?e ?w)] => destruct (fst (remote unit e w))
  end.

(** ** checkSubmitOptions *)

Section CheckSubmitOptionsFacts.
Context {W : Type}.
Variable remote : forall X, SubmitE X -> W -> X * W.

(** C1. When [waitForActive] is set, whatever [directory],
    [viewAllSpoolContent] and [waitForOutput] hold, [checkSubmitOptions]
    performs one call and nothing else: the status poll of the submitted
    job with target ACTIVE.  It resolves to the snapshot the poll returned
    (or rejects with the poll's error); no spool content is fetched and
    nothing is downloaded. *)
Theorem checkSubmitOptions_waitForActive_first
  (session : AbstractSession) (parms : ISubmitParms) (job : IJob) (w : W) :
  truthy_bool (waitForActive parms) = true ->
  let poll := WaitForStatusCommon session (poll_parms parms job ACTIVE) in
  runs_to remote (checkSubmitOptions session parms job) w
    [answered poll (fst (remote poll w))]
    (match fst (remote poll w) with
     | inl err => inl (Rejected err)
     | inr snapshot => inr (ResJob snapshot)
     end)
    (snd (remote poll w)).
Proof.
  intros Hactive poll. unfold checkSubmitOptions. rewrite Hactive.
  fold (poll_parms parms job ACTIVE). fold poll.
  pose proof (runs_to_await remote poll w) as Hpoll.
  destruct (fst (remote poll w)) as [err|snapshot]; simpl in Hpoll.
  - apply runs_to_andThen_rejected. exact Hpoll.
  - rewrite <- (app_nil_r [_]).
    eapply runs_to_andThen_ok; [exact Hpoll|].
    apply runs_to_ret. reflexivity.
Qed.

(** C9. When none of [waitForActive], [viewAllSpoolContent],
    [waitForOutput] and [directory] is set, [checkSubmitOptions] performs
    no call at all, neither a status poll nor any other, leaves the remote
    system as it was and resolves to the job document it was given. *)
Theorem checkSubmitOptions_no_option
  (session : AbstractSession) (parms : ISubmitParms) (job : IJob) (w : W) :
  truthy_bool (waitForActive parms) = false ->
  truthy_bool (viewAllSpoolContent parms) = false ->
  truthy_bool (waitForOutput parms) = false ->
  truthy_string (directory parms) = None ->
  runs_to remote (checkSubmitOptions session parms job) w [] (inr (ResJob job)) w.
Proof.
  intros Hactive Hview Houtput Hdir. unfold checkSubmitOptions.
  rewrite Hactive, Hview, Houtput, Hdir. simpl.
  apply runs_to_ret. reflexivity.
Qed.
End CheckSubmitOptionsFacts.

Lemma checkSubmitOptions_waitForActive_first_witness :
  truthy_bool (waitForActive active_and_directory) = true /\
  runs_to (sample_remote (val "TESTJOB") None)
    (checkSubmitOptions "zosmf" active_and_directory (sample_job (val "TESTJOB"))) 0
    [answered
       (WaitForStatusCommon "zosmf"
          {| mw_jobname := val "TESTJOB"; mw_jobid := val "JOB00123";
             mw_status := val ACTIVE; mw_maxAttempts := undefined;
             mw_watchDelay := undefined |})
       (inr (sample_job (val "TESTJOB")))]
    (inr (ResJob (sample_job (val "TESTJOB")))) 1.
Proof.
  split; [reflexivity|].
  exact (@checkSubmitOptions_waitForActive_first nat (sample_remote (val "TESTJOB") None)
           "zosmf" active_and_directory (sample_job (val "TESTJOB")) 0 eq_refl).
Defined.

Lemma checkSubmitOptions_no_option_witness :
  runs_to (sample_remote (val "TESTJOB") None)
    (checkSubmitOptions "zosmf" sample_parms (sample_job (val "TESTJOB"))) 0
    [] (inr (ResJob (sample_job (val "TESTJOB")))) 0.
Proof.
  exact (@checkSubmitOptions_no_option nat (sample_remote (val "TESTJOB") None)
           "zosmf" sample_parms (sample_job (val "TESTJOB")) 0
           eq_refl eq_refl eq_refl eq_refl).
Defined.

Section SpoolCollectionFacts.
Context {W : Type}.
Variable remote : forall X, SubmitE X -> W -> X * W.

Lemma when_task_runs parms (text : string) (percent : nat) w tr r w' :
  runs_to remote
    (when_task parms
       (perform (SetStatusMessage text) ;; perform (SetPercentComplete percent)))
    w tr r w' ->
  r = inr tt /\ local_only tr.
Proof.
  unfold when_task. destruct (negb (isNullOrUndefined (task parms))); intros Hrun.
  - apply runs_to_andThen_inv in Hrun.
    destruct Hrun as [(v & Hc & _) | (tr1 & a & w1 & tr2 & H1 & H2 & ->)].
    + apply runs_to_perform_inv in Hc. destruct Hc as (_ & Hc & _). discriminate Hc.
    + apply runs_to_perform_inv in H1. destruct H1 as (-> & _ & ->).
      apply runs_to_perform_inv in H2. destruct H2 as (-> & -> & ->).
      split.
      * destruct (fst (remote (SetPercentComplete percent) _)). reflexivity.
      * repeat constructor.
  - apply runs_to_resolve_inv in Hrun. destruct Hrun as (-> & -> & ->).
    split; [reflexivity | constructor].
Qed.

Lemma when_task_terminates parms (body : M unit) w :
  terminates remote body w -> terminates remote (when_task parms body) w.
Proof.
  intros Hbody. unfold when_task.
  destruct (negb (isNullOrUndefined (task parms))); [exact Hbody|].
  apply terminates_resolve.
Qed.

Lemma collect_runs session file arr w tr r w' :
  runs_to remote (collect session file arr) w tr r w' ->
  (exists content,
      tr = [answered (GetSpoolContent session file) (inr content)] /\
      r = inr (arr ++ [spool_file_of file content])) \/
  (exists e,
      tr = [answered (GetSpoolContent session file) (inl e)] /\
      r = inl (Rejected e)).
Proof.
  intros Hrun. unfold collect in Hrun. apply runs_to_andThen_inv in Hrun.
  destruct Hrun as [(v & Hc & ->) | (tr1 & a & w1 & tr2 & H1 & H2 & ->)].
  - apply runs_to_await_inv in Hc. destruct Hc as (-> & Hv & _).
    destruct (fst (remote (GetSpoolContent session file) w)) as [e|content];
      [|discriminate Hv].
    right. exists e. injection Hv as ->. auto.
  - apply runs_to_await_inv in H1. destruct H1 as (-> & Ha & _).
    destruct (fst (remote (GetSpoolContent session file) w)) as [e|content];
      [discriminate Ha|].
    injection Ha as ->.
    apply runs_to_resolve_inv in H2. destruct H2 as (-> & -> & _).
    left. exists content. auto.
Qed.

(** The loop fetches the files in order, one call each, and stops at the
    first fetch that is rejected. *)
Lemma collect_loop_runs session files : forall arr w tr r w',
  runs_to remote (for_of files (collect session) arr) w tr r w' ->
  (exists contents,
      length contents = length files /\
      tr = fetches session files contents /\
      r = inr (arr ++ spool_files_of files contents)) \/
  (exists fetched file rest contents e,
      files = fetched ++ file :: rest /\
      length contents = length fetched /\
      tr = fetches session fetched contents
             ++ [answered (GetSpoolContent session file) (inl e)] /\
      r = inl (Rejected e)).
Proof.
  induction files as [|file files IH]; intros arr w tr r w' Hrun.
  - apply runs_to_resolve_inv in Hrun. destruct Hrun as (-> & -> & _).
    left. exists []. rewrite app_nil_r. auto.
  - simpl in Hrun. apply runs_to_andThen_inv in Hrun.
    destruct Hrun as [(v & Hc & ->) | (tr1 & a & w1 & tr2 & H1 & H2 & ->)].
    + apply collect_runs in Hc.
      destruct Hc as [(content & _ & Hr) | (e & -> & Hr)]; [discriminate Hr|].
      right. exists [], file, files, [], e. injection Hr as ->. auto.
    + apply collect_runs in H1.
      destruct H1 as [(content & -> & Hr) | (e & _ & Hr)]; [|discriminate Hr].
      injection Hr as ->.
      destruct (IH _ _ _ _ _ H2)
        as [(contents & Hlen & -> & ->)
           | (fetched & file' & rest & contents & e & -> & Hlen & -> & ->)].
      * left. exists (content :: contents). simpl. rewrite Hlen.
        rewrite <- app_assoc. auto.
      * right. exists (file :: fetched), file', rest, (content :: contents), e.
        simpl. rewrite Hlen. auto.
Qed.

Lemma collect_loop_terminates session files : forall arr w,
  terminates remote (for_of files (collect session) arr) w.
Proof.
  induction files as [|file files IH]; intros arr w.
  - apply terminates_resolve.
  - simpl. apply terminates_andThen.
    + apply terminates_andThen; [apply terminates_await|].
      intros. apply terminates_resolve.
    + intros. apply IH.
Qed.
End SpoolCollectionFacts.

Section ViewAllSpoolContentFacts.
Context {W : Type}.
Variable remote : forall X, SubmitE X -> W -> X * W.

Lemma checkSubmitOptions_terminates session parms job0 w :
  terminates remote (checkSubmitOptions session parms job0) w.
Proof.
  unfold checkSubmitOptions.
  destruct (truthy_bool (waitForActive parms)).
  - apply terminates_andThen; [apply terminates_await|].
    intros. apply terminates_resolve.
  - destruct (truthy_bool (viewAllSpoolContent parms) || truthy_bool (waitForOutput parms)).
    + apply terminates_andThen.
      { apply when_task_terminates. apply terminates_andThen; intros; apply terminates_perform. }
      intros _ w1. apply terminates_andThen; [apply terminates_await|].
      intros job w2. destruct (negb (truthy_bool (viewAllSpoolContent parms))).
      { apply terminates_resolve. }
      apply terminates_andThen.
      { apply when_task_terminates. apply terminates_andThen; intros; apply terminates_perform. }
      intros _ w3. apply terminates_andThen; [apply terminates_await|].
      intros files w4. apply terminates_andThen.
      { apply (@collect_loop_terminates _ remote session files). }
      intros. apply terminates_resolve.
    + destruct (truthy_string (directory parms)); [|apply terminates_resolve].
      apply terminates_andThen.
      { apply when_task_terminates. apply terminates_andThen; intros; apply terminates_perform. }
      intros _ w1. apply terminates_andThen; [apply terminates_await|].
      intros job w2. apply terminates_andThen.
      { apply when_task_terminates. apply terminates_andThen; intros; apply terminates_perform. }
      intros _ w3. apply terminates_andThen; [apply terminates_await|].
      intros. apply terminates_resolve.
Qed.

Lemma view_all_runs session parms job0 w tr r w' :
  truthy_bool (waitForActive parms) = false ->
  truthy_bool (viewAllSpoolContent parms) = true ->
  runs_to remote (checkSubmitOptions session parms job0) w tr r w' ->
  spool_collection session parms job0 tr r.
Proof.
  intros Hactive Hview Hrun. unfold checkSubmitOptions in Hrun.
  rewrite Hactive, Hview in Hrun. cbn [orb negb] in Hrun.
  fold (poll_parms parms job0 OUTPUT) in Hrun.
  apply runs_to_andThen_inv in Hrun.
  destruct Hrun as [(v & Hc & _) | (before & [] & w1 & tr1 & Hbefore & Hrun & ->)].
  { apply when_task_runs in Hc. destruct Hc as (Hc & _). discriminate Hc. }
  apply when_task_runs in Hbefore. destruct Hbefore as (_ & Hbefore).
  apply runs_to_andThen_inv in Hrun.
  destruct Hrun as [(v & Hc & ->) | (tr0 & job & w2 & tr2 & Hpoll & Hrun & ->)].
  { apply runs_to_await_inv in Hc. destruct Hc as (-> & Hv & _).
    destruct (fst (remote _ w1)) as [e|job]; [|discriminate Hv].
    injection Hv as ->. apply poll_rejected. exact Hbefore. }
  apply runs_to_await_inv in Hpoll. destruct Hpoll as (-> & Hjob & ->).
  destruct (fst (remote _ w1)) as [e|job']; [discriminate Hjob|].
  injection Hjob as ->.
  apply runs_to_andThen_inv in Hrun.
  destruct Hrun as [(v & Hc & _) | (between & [] & w3 & tr3 & Hbetween & Hrun & ->)].
  { apply when_task_runs in Hc. destruct Hc as (Hc & _). discriminate Hc. }
  apply when_task_runs in Hbetween. destruct Hbetween as (_ & Hbetween).
  apply runs_to_andThen_inv in Hrun.
  destruct Hrun as [(v & Hc & ->) | (tr4 & files & w4 & tr5 & Hlist & Hrun & ->)].
  { apply runs_to_await_inv in Hc. destruct Hc as (-> & Hv & _).
    destruct (fst (remote _ w3)) as [e|files]; [|discriminate Hv].
    injection Hv as ->. apply listing_rejected; assumption. }
  apply runs_to_await_inv in Hlist. destruct Hlist as (-> & Hfiles & ->).
  destruct (fst (remote _ w3)) as [e|files']; [discriminate Hfiles|].
  injection Hfiles as ->.
  apply runs_to_andThen_inv in Hrun.
  destruct Hrun as [(v & Hc & ->) | (tr6 & arr & w5 & tr7 & Hloop & Hrun & ->)].
  - apply (@collect_loop_runs _ remote session files') in Hc.
    destruct Hc as [(contents & _ & _ & Hr)
                   | (fetched & file & rest & contents & e & -> & Hlen & -> & Hr)];
      [discriminate Hr|].
    injection Hr as ->. simpl. apply fetch_rejected; assumption.
  - apply (@collect_loop_runs _ remote session files') in Hloop.
    destruct Hloop as [(contents & Hlen & -> & Hr)
                      | (fetched & file & rest & contents & e & _ & _ & _ & Hr)];
      [|discriminate Hr].
    injection Hr as ->.
    apply runs_to_resolve_inv in Hrun. destruct Hrun as (-> & -> & _).
    rewrite app_nil_r. simpl. apply collected; assumption.
Qed.

(** C3. With [viewAllSpoolContent] set and [waitForActive] not set,
    [checkSubmitOptions] always settles, and when no call of the run was
    rejected its remote calls are, in this order: the status poll with
    target OUTPUT, the listing of the spool files of the job the poll
    returned, and one content fetch per listed descriptor in the order of the
    listing.  The result is a list with exactly one entry per descriptor, in
    the same order, holding the id, ddname, stepname and procstep of the
    descriptor and, as data, the content that its own fetch returned. *)
Theorem checkSubmitOptions_viewAllSpoolContent
  (session : AbstractSession) (parms : ISubmitParms) (job0 : IJob) (w : W) :
  truthy_bool (waitForActive parms) = false ->
  truthy_bool (viewAllSpoolContent parms) = true ->
  exists tr r w',
    runs_to remote (checkSubmitOptions session parms job0) w tr r w' /\
    (all_succeeded tr ->
     exists job files contents arr,
       remote_calls tr =
         answered (WaitForStatusCommon session (poll_parms parms job0 OUTPUT)) (inr job) ::
         answered (GetSpoolFilesForJob session job) (inr files) ::
         fetches session files contents /\
       r = inr (ResSpool arr) /\
       length contents = length files /\
       length arr = length files /\
       map sp_id arr = map id files /\
       map sp_ddName arr = map ddname files /\
       map sp_stepName arr = map stepname files /\
       map sp_procName arr = map procstep files /\
       map sp_data arr = contents).
Proof.
  intros Hactive Hview.
  destruct (checkSubmitOptions_terminates session parms job0 w) as (tr & r & w' & Hrun).
  exists tr, r, w'. split; [exact Hrun|].
  intros Hok. apply view_all_runs in Hrun; [|assumption..].
  destruct Hrun as [before e Hbefore
                   | before job between e Hbefore Hbetween
                   | before job between fetched file rest contents e Hbefore Hbetween Hlen
                   | before job between files contents Hbefore Hbetween Hlen].
  - apply Forall_app in Hok. destruct Hok as (_ & Hok).
    inversion Hok as [|? ? Hrej _]. discriminate Hrej.
  - apply Forall_app in Hok. destruct Hok as (_ & Hok).
    inversion Hok as [|? ? _ Hok']; subst.
    apply Forall_app in Hok'. destruct Hok' as (_ & Hok').
    inversion Hok' as [|? ? Hrej _]. discriminate Hrej.
  - apply Forall_app in Hok. destruct Hok as (_ & Hok).
    inversion Hok as [|? ? _ Hok']; subst.
    apply Forall_app in Hok'. destruct Hok' as (_ & Hok').
    inversion Hok' as [|? ? _ Hok'']; subst.
    apply Forall_app in Hok''. destruct Hok'' as (_ & Hok'').
    inversion Hok'' as [|? ? Hrej _]. discriminate Hrej.
  - exists job, files, contents, (spool_files_of files contents).
    destruct (spool_files_of_fields files contents Hlen) as (H1 & H2 & H3 & H4 & H5).
    repeat split; try assumption.
    + rewrite remote_calls_app, (remote_calls_local Hbefore). simpl.
      unfold remote_calls at 1. simpl. fold (remote_calls (between ++
        answered (GetSpoolFilesForJob session job) (inr files) ::
        fetches session files contents)).
      rewrite remote_calls_app, (remote_calls_local Hbetween). simpl.
      unfold remote_calls at 1. simpl. fold (remote_calls (fetches session files contents)).
      rewrite remote_calls_fetches. reflexivity.
    + apply spool_files_of_length. exact Hlen.
Qed.

(** C6. With [viewAllSpoolContent] set and [waitForActive] not set,
    [checkSubmitOptions] always settles, and if the run contains a content
    fetch that was rejected with an error, the whole operation rejects with
    that very error: no list is returned, and with it none of the entries of
    the files fetched before the failure.  The rejected fetch is the last
    remote call of the run. *)
Theorem checkSubmitOptions_spool_fetch_fails
  (session : AbstractSession) (parms : ISubmitParms) (job0 : IJob) (w : W) :
  truthy_bool (waitForActive parms) = false ->
  truthy_bool (viewAllSpoolContent parms) = true ->
  exists tr r w',
    runs_to remote (checkSubmitOptions session parms job0) w tr r w' /\
    forall c e,
      In c tr -> is_spool_fetch c = true -> rejection c = Some e ->
      r = inl (Rejected e) /\ exists earlier, tr = earlier ++ [c].
Proof.
  intros Hactive Hview.
  destruct (checkSubmitOptions_terminates session parms job0 w) as (tr & r & w' & Hrun).
  exists tr, r, w'. split; [exact Hrun|].
  intros c e Hin Hfetch Hrej. apply view_all_runs in Hrun; [|assumption..].
  assert (Hnotlocal : forall l, local_only l -> ~ In c l).
  { intros l Hl Hc. unfold local_only in Hl. rewrite Forall_forall in Hl.
    specialize (Hl c Hc). apply local_no_rejection in Hl. congruence. }
  destruct Hrun as [before e' Hbefore
                   | before job between e' Hbefore Hbetween
                   | before job between fetched file rest contents e' Hbefore Hbetween Hlen
                   | before job between files contents Hbefore Hbetween Hlen].
  - apply in_app_or in Hin. destruct Hin as [Hin|[<-|[]]].
    + destruct (Hnotlocal _ Hbefore Hin).
    + discriminate Hfetch.
  - apply in_app_or in Hin. destruct Hin as [Hin|[<-|Hin]].
    + destruct (Hnotlocal _ Hbefore Hin).
    + discriminate Hfetch.
    + apply in_app_or in Hin. destruct Hin as [Hin|[<-|[]]].
      * destruct (Hnotlocal _ Hbetween Hin).
      * discriminate Hfetch.
  - apply in_app_or in Hin. destruct Hin as [Hin|[<-|Hin]].
    + destruct (Hnotlocal _ Hbefore Hin).
    + discriminate Hfetch.
    + apply in_app_or in Hin. destruct Hin as [Hin|[<-|Hin]].
      * destruct (Hnotlocal _ Hbetween Hin).
      * discriminate Hfetch.
      * apply in_app_or in Hin. destruct Hin as [Hin|[<-|[]]].
        -- apply fetches_succeed in Hin. congruence.
        -- simpl in Hrej. injection Hrej as ->. split; [reflexivity|].
           exists (before ++
                   answered (WaitForStatusCommon session (poll_parms parms job0 OUTPUT))
                     (inr job) ::
                   between ++
                   answered (GetSpoolFilesForJob session job)
                     (inr (fetched ++ file :: rest)) ::
                   fetches session fetched contents).
           rewrite <- !app_assoc. simpl. rewrite <- !app_assoc. reflexivity.
  - apply in_app_or in Hin. destruct Hin as [Hin|[<-|Hin]].
    + destruct (Hnotlocal _ Hbefore Hin).
    + discriminate Hfetch.
    + apply in_app_or in Hin. destruct Hin as [Hin|[<-|Hin]].
      * destruct (Hnotlocal _ Hbetween Hin).
      * discriminate Hfetch.
      * apply fetches_succeed in Hin. congruence.
Qed.
End ViewAllSpoolContentFacts.

(** The sample remote system lists three spool files: the run fetches the
    three contents in the order of the listing and returns three entries. *)
Example view_all_three_files :
  runs_to (sample_remote (val "TESTJOB") None)
    (checkSubmitOptions "zosmf" view_all (sample_job (val "TESTJOB"))) 0
    ([answered (SetStatusMessage "Waiting for JOB00123 to enter OUTPUT") tt;
      answered (SetPercentComplete 30) tt;
      answered (WaitForStatusCommon "zosmf"
                  (poll_parms view_all (sample_job (val "TESTJOB")) OUTPUT))
               (inr (sample_job (val "TESTJOB")));
      answered (SetStatusMessage "Retrieving spool content for JOB00123, CC 0000") tt;
      answered (SetPercentComplete 70) tt;
      answered (GetSpoolFilesForJob "zosmf" (sample_job (val "TESTJOB")))
               (inr sample_files)]
     ++ fetches "zosmf" sample_files
          ["content of JESMSGLG"; "content of JESJCL"; "content of SYSPRINT"]%string)
    (inr (ResSpool
       [ {| sp_id := 2; sp_ddName := "JESMSGLG"; sp_stepName := "JES2"; sp_procName := "";
            sp_data := "content of JESMSGLG" |};
         {| sp_id := 3; sp_ddName := "JESJCL"; sp_stepName := "JES2"; sp_procName := "";
            sp_data := "content of JESJCL" |};
         {| sp_id := 4; sp_ddName := "SYSPRINT"; sp_stepName := "STEP1";
            sp_procName := "PROC1"; sp_data := "content of SYSPRINT" |} ]))
    5.
Proof. exists 20. vm_compute. reflexivity. Qed.

(** The same submission when the fetch of the second file (id 3) is
    rejected: the first content was fetched, and yet the operation rejects. *)
Example view_all_second_fetch_rejected :
  runs_to (sample_remote (val "TESTJOB") (Some 3))
    (checkSubmitOptions "zosmf" view_all (sample_job (val "TESTJOB"))) 0
    [answered (SetStatusMessage "Waiting for JOB00123 to enter OUTPUT") tt;
     answered (SetPercentComplete 30) tt;
     answered (WaitForStatusCommon "zosmf"
                 (poll_parms view_all (sample_job (val "TESTJOB")) OUTPUT))
              (inr (sample_job (val "TESTJOB")));
     answered (SetStatusMessage "Retrieving spool content for JOB00123, CC 0000") tt;
     answered (SetPercentComplete 70) tt;
     answered (GetSpoolFilesForJob "zosmf" (sample_job (val "TESTJOB")))
              (inr sample_files);
     answered (GetSpoolContent "zosmf"
                 {| id := 2; ddname := "JESMSGLG"; stepname := "JES2"; procstep := "" |})
              (inr "content of JESMSGLG"%string);
     answered (GetSpoolContent "zosmf"
                 {| id := 3; ddname := "JESJCL"; stepname := "JES2"; procstep := "" |})
              (inl sample_error)]
    (inl (Rejected sample_error))
    4.
Proof. exists 20. vm_compute. reflexivity. Qed.

Lemma checkSubmitOptions_viewAllSpoolContent_witness :
  truthy_bool (waitForActive view_all) = false /\
  truthy_bool (viewAllSpoolContent view_all) = true /\
  exists arr,
    runs_to (sample_remote (val "TESTJOB") None)
      (checkSubmitOptions "zosmf" view_all (sample_job (val "TESTJOB"))) 0
      ([answered (SetStatusMessage "Waiting for JOB00123 to enter OUTPUT") tt;
        answered (SetPercentComplete 30) tt;
        answered (WaitForStatusCommon "zosmf"
                    (poll_parms view_all (sample_job (val "TESTJOB")) OUTPUT))
                 (inr (sample_job (val "TESTJOB")));
        answered (SetStatusMessage "Retrieving spool content for JOB00123, CC 0000") tt;
        answered (SetPercentComplete 70) tt;
        answered (GetSpoolFilesForJob "zosmf" (sample_job (val "TESTJOB")))
                 (inr sample_files)]
       ++ fetches "zosmf" sample_files
            ["content of JESMSGLG"; "content of JESJCL"; "content of SYSPRINT"]%string)
      (inr (ResSpool arr)) 5 /\
    length arr = 3 /\
    map sp_id arr = [2; 3; 4] /\
    map sp_ddName arr = ["JESMSGLG"; "JESJCL"; "SYSPRINT"]%string.
Proof.
  split; [reflexivity|]. split; [reflexivity|].
  destruct (@checkSubmitOptions_viewAllSpoolContent nat (sample_remote (val "TESTJOB") None)
              "zosmf" view_all (sample_job (val "TESTJOB")) 0 eq_refl eq_refl)
    as (tr & r & w' & Hrun & Hshape).
  destruct (runs_to_deterministic Hrun view_all_three_files) as (Htr & Hr & Hw).
  subst tr r w'.
  destruct Hshape as (job & files & contents & arr & Hcalls & Hr & _ & Hlen & Hid & Hdd & _).
  { repeat constructor. }
  exists arr. split; [rewrite <- Hr; exact Hrun|].
  injection Hr as Harr. rewrite <- Harr in *.
  repeat split; reflexivity.
Defined.

Lemma checkSubmitOptions_spool_fetch_fails_witness :
  truthy_bool (waitForActive view_all) = false /\
  truthy_bool (viewAllSpoolContent view_all) = true /\
  exists tr w',
    runs_to (sample_remote (val "TESTJOB") (Some 3))
      (checkSubmitOptions "zosmf" view_all (sample_job (val "TESTJOB"))) 0
      tr (inl (Rejected sample_error)) w' /\
    In (answered (GetSpoolContent "zosmf"
                    {| id := 2; ddname := "JESMSGLG"; stepname := "JES2"; procstep := "" |})
                 (inr "content of JESMSGLG"%string)) tr.
Proof.
  split; [reflexivity|]. split; [reflexivity|].
  destruct (@checkSubmitOptions_spool_fetch_fails nat (sample_remote (val "TESTJOB") (Some 3))
              "zosmf" view_all (sample_job (val "TESTJOB")) 0 eq_refl eq_refl)
    as (tr & r & w' & Hrun & Hfail).
  destruct (runs_to_deterministic Hrun view_all_second_fetch_rejected) as (Htr & Hr & Hw).
  exists tr, w'.
  destruct (Hfail
              (answered (GetSpoolContent "zosmf"
                 {| id := 3; ddname := "JESJCL"; stepname := "JES2"; procstep := "" |})
                 (inl sample_error))
              sample_error) as (Hrejected & _).
  - rewrite Htr. simpl. tauto.
  - reflexivity.
  - reflexivity.
  - rewrite <- Hrejected. split; [exact Hrun|].
    rewrite Htr. simpl. tauto.
Defined.

(** ** Submission *)

Section SubmissionFacts.
Context {W : Type}.
Variable remote : forall X, SubmitE X -> W -> X * W.

Lemma submitJclCommon_runs session parms w tr r w' :
  runs_to remote (submitJclCommon session parms) w tr r w' ->
  (isNullOrUndefined (jcl parms) = true /\
   tr = [answered (Log trace_level "submitJclCommon called with parms %s") tt] /\
   r = inl (ExpectError (literal
     "You must provide a JCL string to submit. The 'jcl' field of the provided parameters was undefined. "))) \/
  (isNullOrUndefined (jcl parms) = false /\
   exists before answer,
     local_only before /\
     tr = before ++
          [answered (PutExpectJSON session JobsConstants_RESOURCE (jcl_headers parms)
                       (JclText (jcl parms))) answer] /\
     r = settled answer).
Proof.
  intros Hrun. unfold submitJclCommon in Hrun. simpl ImperativeExpect.keysToBeDefined in Hrun.
  unfold jcl_headers, header_value.
  destruct (isNullOrUndefined (jcl parms)); [left | right]; (split; [reflexivity|]).
  - split_run Hrun; tidy_run.
    split; [|reflexivity]. unit_answers. reflexivity.
  - destruct (truthy_string (internalReaderLrecl parms)) as [lrecl|];
      destruct (truthy_string (internalReaderRecfm parms)) as [recfm|];
      split_run Hrun; tidy_run; last_call_settles.
Qed.

Lemma submitJclCommon_terminates session parms w :
  terminates remote (submitJclCommon session parms) w.
Proof.
  unfold submitJclCommon. simpl ImperativeExpect.keysToBeDefined.
  apply terminates_andThen; [apply terminates_perform|]. intros _ w1.
  apply terminates_andThen.
  { destruct (isNullOrUndefined (jcl parms));
      [apply terminates_throw | apply terminates_resolve]. }
  intros _ w2. apply terminates_andThen; [apply terminates_perform|]. intros _ w3.
  apply terminates_andThen.
  { destruct (truthy_string (internalReaderLrecl parms)); [|apply terminates_resolve].
    apply terminates_andThen; [apply terminates_perform|].
    intros. apply terminates_resolve. }
  intros headers w4. apply terminates_andThen.
  { destruct (truthy_string (internalReaderRecfm parms)); [|apply terminates_resolve].
    apply terminates_andThen; [apply terminates_perform|].
    intros. apply terminates_resolve. }
  intros. apply terminates_await.
Qed.

Lemma submitJclCommon_submission session parms w tr r w' :
  runs_to remote (submitJclCommon session parms) w tr r w' -> submission session tr r.
Proof.
  intros Hrun. apply submitJclCommon_runs in Hrun.
  destruct Hrun as [(_ & -> & ->) | (_ & before & answer & Hlocal & -> & ->)].
  - apply submission_refused. repeat constructor.
  - apply submission_sent. exact Hlocal.
Qed.

Lemma submitJobCommon_submission session parms w tr r w' :
  runs_to remote (submitJobCommon session parms) w tr r w' -> submission session tr r.
Proof.
  intros Hrun. unfold submitJobCommon in Hrun.
  simpl ImperativeExpect.keysToBeDefined in Hrun.
  destruct (isNullOrUndefined (jobDataSet parms)).
  - split_run Hrun; tidy_run. apply submission_refused. repeat constructor.
  - split_run Hrun; tidy_run.
    rewrite <- ?app_assoc; cbn [app].
    lazymatch goal with
    | |- submission _ ?tr _ =>
        let init := all_but_last tr in apply submission_sent with (before := init)
    end.
    repeat constructor.
Qed.

Lemma submitJobCommon_terminates session parms w :
  terminates remote (submitJobCommon session parms) w.
Proof.
  unfold submitJobCommon. simpl ImperativeExpect.keysToBeDefined.
  apply terminates_andThen; [apply terminates_perform|]. intros _ w1.
  apply terminates_andThen.
  { destruct (isNullOrUndefined (jobDataSet parms));
      [apply terminates_throw | apply terminates_resolve]. }
  intros _ w2. apply terminates_andThen; [apply terminates_perform|]. intros _ w3.
  apply terminates_await.
Qed.

Lemma submitNotifyCommon_runs session job status watchDelay w tr r w' :
  runs_to remote (submitNotifyCommon session job status watchDelay) w tr r w' ->
  (lacks_identity job = true /\
   local_only tr /\
   r = inl (ExpectError (literal
     "The job object you provide must contain both 'jobname' and 'jobid'."))) \/
  (lacks_identity job = false /\
   exists before answer,
     local_only before /\
     tr = before ++ [answered (WaitForStatusCommon session (notify_parms job status watchDelay))
                       answer] /\
     r = settled answer).
Proof.
  intros Hrun. unfold submitNotifyCommon in Hrun.
  simpl ImperativeExpect.keysToBeDefined in Hrun. unfold lacks_identity.
  destruct (isNullOrUndefined (jobname job)); [|destruct (isNullOrUndefined (jobid job))];
    simpl; [left | left | right]; (split; [reflexivity|]).
  - split_run Hrun; tidy_run. split; [repeat constructor | reflexivity].
  - split_run Hrun; tidy_run. split; [repeat constructor | reflexivity].
  - split_run Hrun; tidy_run. last_call_settles.
Qed.

Lemma submitNotifyCommon_terminates session job status watchDelay w :
  terminates remote (submitNotifyCommon session job status watchDelay) w.
Proof.
  unfold submitNotifyCommon. simpl ImperativeExpect.keysToBeDefined.
  apply terminates_andThen; [apply terminates_perform|]. intros _ w1.
  apply terminates_andThen.
  { destruct (isNullOrUndefined (jobname job)); [apply terminates_throw|].
    destruct (isNullOrUndefined (jobid job));
      [apply terminates_throw | apply terminates_resolve]. }
  intros _ w2. apply terminates_andThen; [apply terminates_perform|]. intros _ w3.
  apply terminates_await.
Qed.

(** C5. A submission of JCL text (the text being present) sends one PUT to
    the jobs resource whose headers are the text content type, the text
    mode, X-IBM-Intrdr-Lrecl and X-IBM-Intrdr-Recfm.  The record length is
    80 and the record format is F when the corresponding override is not
    supplied (absent, null or the empty string); an override that is
    supplied is sent as the caller gave it. *)
Theorem submitJclCommon_record_headers
  (session : AbstractSession) (parms : ISubmitJclParms) (w : W) :
  isNullOrUndefined (jcl parms) = false ->
  exists tr r w' answer,
    runs_to remote (submitJclCommon session parms) w tr r w' /\
    remote_calls tr =
      [answered
         (PutExpectJSON session JobsConstants_RESOURCE
            [Headers_TEXT_PLAIN_UTF8; X_IBM_INTRDR_MODE_TEXT;
             HeaderObject "X-IBM-Intrdr-Lrecl"
               match truthy_string (internalReaderLrecl parms) with
               | Some lrecl => lrecl
               | None => "80"%string
               end;
             HeaderObject "X-IBM-Intrdr-Recfm"
               match truthy_string (internalReaderRecfm parms) with
               | Some recfm => recfm
               | None => "F"%string
               end]
            (JclText (jcl parms)))
         answer] /\
    r = settled answer.
Proof.
  intros Hjcl.
  destruct (submitJclCommon_terminates session parms w) as (tr & r & w' & Hrun).
  pose proof Hrun as Hshape. apply submitJclCommon_runs in Hshape.
  destruct Hshape as [(Hnone & _) | (_ & before & answer & Hlocal & -> & ->)]; [congruence|].
  exists (before ++
          [answered (PutExpectJSON session JobsConstants_RESOURCE (jcl_headers parms)
                       (JclText (jcl parms))) answer]), (settled answer), w', answer.
  split; [exact Hrun|]. split; [|reflexivity].
  rewrite remote_calls_app, (remote_calls_local Hlocal). reflexivity.
Qed.

(** C2, as the code has it.  [submitJclString] given a JCL string that is
    null, undefined or empty rejects with the missing-JCL expectation error
    before performing any call at all.  [submitJclCommon] given a [jcl]
    field that is null or undefined rejects with its expectation error
    having performed one logging call and no remote call; given the empty
    string it sends the PUT with the empty text, and settles as the PUT
    does. *)
Theorem missing_jcl_is_rejected
  (session : AbstractSession) (text : js string) (parms : ISubmitParms)
  (recfm lrecl : js string) (w : W) :
  isNullOrUndefined text = true \/ text = val ""%string ->
  runs_to remote (submitJclString session text parms) w
    [] (inl (ExpectError ZosJobsMessages_missingJcl)) w /\
  (isNullOrUndefined text = true ->
   exists w',
     runs_to remote
       (submitJclCommon session
          {| jcl := text; internalReaderRecfm := recfm; internalReaderLrecl := lrecl |})
       w
       [answered (Log trace_level "submitJclCommon called with parms %s") tt]
       (inl (ExpectError (literal
          "You must provide a JCL string to submit. The 'jcl' field of the provided parameters was undefined. ")))
       w') /\
  (text = val ""%string ->
   exists tr r w' answer,
     runs_to remote
       (submitJclCommon session
          {| jcl := text; internalReaderRecfm := recfm; internalReaderLrecl := lrecl |})
       w tr r w' /\
     remote_calls tr =
       [answered
          (PutExpectJSON session JobsConstants_RESOURCE
             (jcl_headers
                {| jcl := text; internalReaderRecfm := recfm; internalReaderLrecl := lrecl |})
             (JclText (val ""%string)))
          answer] /\
     r = settled answer).
Proof.
  intros Hmissing. split; [|split].
  - unfold submitJclString, ImperativeExpect.toNotBeNullOrUndefined,
      ImperativeExpect.toNotBeEqual.
    destruct Hmissing as [Hnone | ->].
    + rewrite Hnone. apply runs_to_andThen_rejected. apply runs_to_ret. reflexivity.
    + simpl. rewrite <- (app_nil_l []).
      eapply runs_to_andThen_ok; [apply runs_to_ret; reflexivity|].
      apply runs_to_andThen_rejected. apply runs_to_ret. reflexivity.
  - intros Hnone.
    destruct (submitJclCommon_terminates session
                {| jcl := text; internalReaderRecfm := recfm; internalReaderLrecl := lrecl |} w)
      as (tr & r & w' & Hrun).
    pose proof Hrun as Hshape. apply submitJclCommon_runs in Hshape.
    destruct Hshape as [(_ & -> & ->) | (Hsome & _)].
    + exists w'. exact Hrun.
    + simpl in Hsome. congruence.
  - intros ->.
    destruct (submitJclCommon_terminates session
                {| jcl := val ""%string; internalReaderRecfm := recfm;
                   internalReaderLrecl := lrecl |} w)
      as (tr & r & w' & Hrun).
    pose proof Hrun as Hshape. apply submitJclCommon_runs in Hshape.
    destruct Hshape as [(Hnone & _) | (_ & before & answer & Hlocal & -> & ->)];
      [discriminate Hnone|].
    eexists; exists (settled answer), w', answer. split; [exact Hrun|].
    split; [|reflexivity].
    rewrite remote_calls_app, (remote_calls_local Hlocal). reflexivity.
Qed.

Lemma notify_after_submission session (submit : M IJob) status watchDelay w tr r w' :
  (forall w0 tr0 r0 w1, runs_to remote submit w0 tr0 r0 w1 -> submission session tr0 r0) ->
  runs_to remote
    (andThen submit (fun job => submitNotifyCommon session job status watchDelay))
    w tr r w' ->
  validated_before_polling session status watchDelay tr r.
Proof.
  intros Hsubmit Hrun c job Hin Hsub.
  apply runs_to_andThen_inv in Hrun.
  destruct Hrun as [(v & Hc & ->) | (tr1 & job0 & w1 & tr2 & Hc & Hnotify & ->)].
  - exfalso. apply Hsubmit in Hc.
    inversion Hc as [tr0 msg Hlocal | before headers body answer Hlocal Htr Hr]; subst.
    + eapply local_only_none_submitted; eassumption.
    + destruct answer as [e|job']; [|discriminate Hr].
      apply in_app_or in Hin. destruct Hin as [Hin|[<-|[]]].
      * eapply local_only_none_submitted; eassumption.
      * discriminate Hsub.
  - apply Hsubmit in Hc.
    inversion Hc as [tr0 msg Hlocal | before headers body answer Hlocal Htr Hr]; subst.
    destruct answer as [e|job']; [discriminate Hr|]. injection Hr as ->.
    apply submitNotifyCommon_runs in Hnotify.
    assert (Hc0 : c = answered (PutExpectJSON session JobsConstants_RESOURCE headers body)
                        (inr job0) /\ job = job0).
    { apply in_app_or in Hin. destruct Hin as [Hin|Hin].
      - apply in_app_or in Hin. destruct Hin as [Hin|[<-|[]]].
        + exfalso. eapply local_only_none_submitted; eassumption.
        + injection Hsub as ->. auto.
      - exfalso.
        destruct Hnotify as [(_ & Hlocal2 & _) | (_ & before2 & answer & Hlocal2 & -> & _)].
        + eapply local_only_none_submitted; [exact Hlocal2 | exact Hin | exact Hsub].
        + apply in_app_or in Hin. destruct Hin as [Hin|[<-|[]]].
          * eapply local_only_none_submitted; [exact Hlocal2 | exact Hin | exact Hsub].
          * discriminate Hsub. }
    destruct Hc0 as (-> & ->).
    destruct Hnotify as [(-> & Hlocal2 & ->) | (-> & before2 & answer & Hlocal2 & -> & ->)].
    + split; [reflexivity|].
      apply Forall_app. split; [|apply local_only_no_poll; exact Hlocal2].
      apply Forall_app. split; [apply local_only_no_poll; exact Hlocal|].
      repeat constructor.
    + exists answer. split; [|reflexivity].
      rewrite !remote_calls_app, (remote_calls_local Hlocal), (remote_calls_local Hlocal2).
      reflexivity.
Qed.

(** C7. Both notify-on-completion submissions always settle, and in every
    run the job document that the submission returned is checked before any
    status poll: when it lacks its job name or its job id the operation
    rejects with the expectation error of [submitNotifyCommon] and the trace
    holds no status poll; when it has both, the status poll of that job is
    the only remote call after the submission. *)
Theorem notify_validates_job_identity
  (session : AbstractSession) (jclParms : ISubmitJclNotifyParm)
  (jobParms : ISubmitJobNotifyParm) (w : W) :
  (exists tr r w',
      runs_to remote (submitJclNotifyCommon session jclParms) w tr r w' /\
      validated_before_polling session (cn_status jclParms) (cn_watchDelay jclParms) tr r) /\
  (exists tr r w',
      runs_to remote (submitJobNotifyCommon session jobParms) w tr r w' /\
      validated_before_polling session (jn_status jobParms) (jn_watchDelay jobParms) tr r).
Proof.
  split.
  - assert (Hterm : terminates remote (submitJclNotifyCommon session jclParms) w).
    { unfold submitJclNotifyCommon.
      apply terminates_andThen; [apply terminates_perform|]. intros _ w1.
      apply terminates_andThen; [apply submitJclCommon_terminates|].
      intros. apply submitNotifyCommon_terminates. }
    destruct Hterm as (tr & r & w' & Hrun). exists tr, r, w'. split; [exact Hrun|].
    unfold submitJclNotifyCommon in Hrun.
    apply runs_to_andThen_inv in Hrun.
    destruct Hrun as [(v & Hc & _) | (tr1 & [] & w1 & tr2 & Hlog & Hrest & ->)].
    { apply runs_to_perform_inv in Hc. destruct Hc as (_ & Hc & _). discriminate Hc. }
    apply runs_to_perform_inv in Hlog. destruct Hlog as (-> & _ & _).
    apply validated_after_local; [repeat constructor|].
    eapply notify_after_submission; [|exact Hrest].
    intros w0 tr0 r0 w2. apply submitJclCommon_submission.
  - assert (Hterm : terminates remote (submitJobNotifyCommon session jobParms) w).
    { unfold submitJobNotifyCommon. simpl ImperativeExpect.keysToBeDefined.
      apply terminates_andThen; [apply terminates_perform|]. intros _ w1.
      apply terminates_andThen.
      { destruct (isNullOrUndefined (jn_jobDataSet jobParms));
          [apply terminates_throw | apply terminates_resolve]. }
      intros _ w2.
      apply terminates_andThen; [apply submitJobCommon_terminates|].
      intros. apply submitNotifyCommon_terminates. }
    destruct Hterm as (tr & r & w' & Hrun). exists tr, r, w'. split; [exact Hrun|].
    unfold submitJobNotifyCommon in Hrun. simpl ImperativeExpect.keysToBeDefined in Hrun.
    apply runs_to_andThen_inv in Hrun.
    destruct Hrun as [(v & Hc & _) | (tr1 & [] & w1 & tr2 & Hlog & Hrest & ->)].
    { apply runs_to_perform_inv in Hc. destruct Hc as (_ & Hc & _). discriminate Hc. }
    apply runs_to_perform_inv in Hlog. destruct Hlog as (-> & _ & _).
    apply validated_after_local; [repeat constructor|].
    apply runs_to_andThen_inv in Hrest.
    destruct Hrest as [(v & Hc & ->) | (tr3 & [] & w3 & tr4 & Hkeys & Hrest & ->)].
    { destruct (isNullOrUndefined (jn_jobDataSet jobParms)).
      - apply runs_to_throw_inv in Hc. destruct Hc as (-> & _ & _).
        intros c job [].
      - apply runs_to_resolve_inv in Hc. destruct Hc as (_ & Hc & _). discriminate Hc. }
    destruct (isNullOrUndefined (jn_jobDataSet jobParms)).
    { apply runs_to_throw_inv in Hkeys. destruct Hkeys as (_ & Hkeys & _). discriminate Hkeys. }
    apply runs_to_resolve_inv in Hkeys. destruct Hkeys as (-> & _ & _). simpl.
    eapply notify_after_submission; [|exact Hrest].
    intros w0 tr0 r0 w4. apply submitJobCommon_submission.
Qed.
End SubmissionFacts.

(** The empty JCL string passes the check of [submitJclCommon], which only
    asks for the [jcl] field to be defined: the text is sent. *)
Lemma submitJclCommon_sends_empty_jcl :
  runs_to (sample_remote (val "TESTJOB") None)
    (submitJclCommon "zosmf" (jcl_parms (val ""%string))) 0
    [answered (Log trace_level "submitJclCommon called with parms %s") tt;
     answered (Log debug_level "Submitting JCL of length %d") tt;
     answered
       (PutExpectJSON "zosmf" JobsConstants_RESOURCE
          [Headers_TEXT_PLAIN_UTF8; X_IBM_INTRDR_MODE_TEXT;
           HeaderObject "X-IBM-Intrdr-Lrecl" "80"; HeaderObject "X-IBM-Intrdr-Recfm" "F"]
          (JclText (val ""%string)))
       (inr (sample_job (val "TESTJOB")))]
    (inr (sample_job (val "TESTJOB"))) 1 /\
  ~ (exists tr msg w',
       runs_to (sample_remote (val "TESTJOB") None)
         (submitJclCommon "zosmf" (jcl_parms (val ""%string))) 0
         tr (inl (ExpectError msg)) w' /\
       remote_calls tr = []).
Proof.
  assert (Hrun :
    runs_to (sample_remote (val "TESTJOB") None)
      (submitJclCommon "zosmf" (jcl_parms (val ""%string))) 0
      [answered (Log trace_level "submitJclCommon called with parms %s") tt;
       answered (Log debug_level "Submitting JCL of length %d") tt;
       answered
         (PutExpectJSON "zosmf" JobsConstants_RESOURCE
            [Headers_TEXT_PLAIN_UTF8; X_IBM_INTRDR_MODE_TEXT;
             HeaderObject "X-IBM-Intrdr-Lrecl" "80"; HeaderObject "X-IBM-Intrdr-Recfm" "F"]
            (JclText (val ""%string)))
         (inr (sample_job (val "TESTJOB")))]
      (inr (sample_job (val "TESTJOB"))) 1).
  { exists 20. vm_compute. reflexivity. }
  split; [exact Hrun|].
  intros (tr & msg & w' & Hother & _).
  destruct (runs_to_deterministic Hrun Hother) as (_ & Hr & _). discriminate Hr.
Qed.

Lemma missing_jcl_is_rejected_witness :
  runs_to (sample_remote (val "TESTJOB") None)
    (submitJclString "zosmf" (val ""%string) view_all) 0
    [] (inl (ExpectError ZosJobsMessages_missingJcl)) 0 /\
  runs_to (sample_remote (val "TESTJOB") None)
    (submitJclString "zosmf" null view_all) 0
    [] (inl (ExpectError ZosJobsMessages_missingJcl)) 0 /\
  exists w',
    runs_to (sample_remote (val "TESTJOB") None)
      (submitJclCommon "zosmf" (jcl_parms undefined)) 0
      [answered (Log trace_level "submitJclCommon called with parms %s") tt]
      (inl (ExpectError (literal
         "You must provide a JCL string to submit. The 'jcl' field of the provided parameters was undefined. ")))
      w'.
Proof.
  split; [|split].
  - exact (proj1 (@missing_jcl_is_rejected nat (sample_remote (val "TESTJOB") None)
                    "zosmf" (val ""%string) view_all undefined undefined 0
                    (or_intror eq_refl))).
  - exact (proj1 (@missing_jcl_is_rejected nat (sample_remote (val "TESTJOB") None)
                    "zosmf" null view_all undefined undefined 0
                    (or_introl eq_refl))).
  - exact (proj1 (proj2 (@missing_jcl_is_rejected nat (sample_remote (val "TESTJOB") None)
                    "zosmf" undefined view_all undefined undefined 0
                    (or_introl eq_refl))) eq_refl).
Defined.

Lemma submitJclCommon_record_headers_witness :
  isNullOrUndefined (jcl (jcl_parms (val "//TESTJOB JOB"%string))) = false /\
  exists tr r w' answer,
    runs_to (sample_remote (val "TESTJOB") None)
      (submitJclCommon "zosmf" (jcl_parms (val "//TESTJOB JOB"%string))) 0 tr r w' /\
    remote_calls tr =
      [answered
         (PutExpectJSON "zosmf" JobsConstants_RESOURCE
            [Headers_TEXT_PLAIN_UTF8; X_IBM_INTRDR_MODE_TEXT;
             HeaderObject "X-IBM-Intrdr-Lrecl" "80"; HeaderObject "X-IBM-Intrdr-Recfm" "F"]
            (JclText (val "//TESTJOB JOB"%string)))
         answer] /\
    r = settled answer.
Proof.
  split; [reflexivity|].
  exact (@submitJclCommon_record_headers nat (sample_remote (val "TESTJOB") None)
           "zosmf" (jcl_parms (val "//TESTJOB JOB"%string)) 0 eq_refl).
Defined.

(** Overrides that are supplied replace the defaults. *)
Example submitJclCommon_overrides :
  runs_to (sample_remote (val "TESTJOB") None)
    (submitJclCommon "zosmf"
       {| jcl := val "//TESTJOB JOB"%string; internalReaderRecfm := val "V"%string;
          internalReaderLrecl := val "133"%string |}) 0
    [answered (Log trace_level "submitJclCommon called with parms %s") tt;
     answered (Log debug_level "Submitting JCL of length %d") tt;
     answered (Log debug_level
       "Custom internal reader logical record length (internalReaderLrecl) '%s' specified ") tt;
     answered (Log debug_level
       "Custom internal reader record format (internalReaderRecfm) '%s' specified ") tt;
     answered
       (PutExpectJSON "zosmf" JobsConstants_RESOURCE
          [Headers_TEXT_PLAIN_UTF8; X_IBM_INTRDR_MODE_TEXT;
           HeaderObject "X-IBM-Intrdr-Lrecl" "133"; HeaderObject "X-IBM-Intrdr-Recfm" "V"]
          (JclText (val "//TESTJOB JOB"%string)))
       (inr (sample_job (val "TESTJOB")))]
    (inr (sample_job (val "TESTJOB"))) 1.
Proof. exists 20. vm_compute. reflexivity. Qed.

(** A submission answered with a job document that has no job name: the
    notify wrapper rejects after the PUT and never polls. *)
Example notify_job_without_name :
  runs_to (sample_remote undefined None)
    (submitJclNotifyCommon "zosmf" (jcl_notify_parms (val "//TESTJOB JOB"%string))) 0
    [answered (Log trace_level "submitJclNotifyCommon called with parms %s") tt;
     answered (Log trace_level "submitJclCommon called with parms %s") tt;
     answered (Log debug_level "Submitting JCL of length %d") tt;
     answered
       (PutExpectJSON "zosmf" JobsConstants_RESOURCE
          [Headers_TEXT_PLAIN_UTF8; X_IBM_INTRDR_MODE_TEXT;
           HeaderObject "X-IBM-Intrdr-Lrecl" "80"; HeaderObject "X-IBM-Intrdr-Recfm" "F"]
          (JclText (val "//TESTJOB JOB"%string)))
       (inr (sample_job undefined));
     answered (Log trace_level
       "submitNotiyCommon called with job %s, status %s, watchDelay %s") tt]
    (inl (ExpectError (literal
       "The job object you provide must contain both 'jobname' and 'jobid'.")))
    1.
Proof. exists 20. vm_compute. reflexivity. Qed.

(** A submission answered with a complete job document: the status poll of
    that job follows the PUT. *)
Example notify_job_with_identity :
  runs_to (sample_remote (val "TESTJOB") None)
    (submitJobNotifyCommon "zosmf" (job_notify_parms (val "USER.JCL(TEST)"%string))) 0
    [answered (Log trace_level "submitJobNotifyCommon called with parms %s") tt;
     answered (Log trace_level "submitJobCommon called with parms %s") tt;
     answered (Log debug_level "Submitting a job located in the data set '%s'") tt;
     answered
       (PutExpectJSON "zosmf" JobsConstants_RESOURCE [Headers_APPLICATION_JSON]
          (JobObj "//'USER.JCL(TEST)'"))
       (inr (sample_job (val "TESTJOB")));
     answered (Log trace_level
       "submitNotiyCommon called with job %s, status %s, watchDelay %s") tt;
     answered (Log debug_level
       "Waiting to be notified of job completion from Monitor Jobs API for job %s (%s)") tt;
     answered
       (WaitForStatusCommon "zosmf"
          (notify_parms (sample_job (val "TESTJOB")) undefined undefined))
       (inr (sample_job (val "TESTJOB")))]
    (inr (sample_job (val "TESTJOB"))) 2.
Proof. exists 20. vm_compute. reflexivity. Qed.

Lemma notify_validates_job_identity_witness :
  exists tr w',
    runs_to (sample_remote undefined None)
      (submitJclNotifyCommon "zosmf" (jcl_notify_parms (val "//TESTJOB JOB"%string))) 0
      tr
      (inl (ExpectError (literal
         "The job object you provide must contain both 'jobname' and 'jobid'.")))
      w' /\
    Forall (fun c => is_poll c = false) tr.
Proof.
  destruct (proj1 (@notify_validates_job_identity nat (sample_remote undefined None) "zosmf"
                     (jcl_notify_parms (val "//TESTJOB JOB"%string))
                     (job_notify_parms undefined) 0))
    as (tr & r & w' & Hrun & Hvalid).
  destruct (runs_to_deterministic Hrun notify_job_without_name) as (Htr & _ & _).
  specialize (Hvalid
    (answered
       (PutExpectJSON "zosmf" JobsConstants_RESOURCE
          [Headers_TEXT_PLAIN_UTF8; X_IBM_INTRDR_MODE_TEXT;
           HeaderObject "X-IBM-Intrdr-Lrecl" "80"; HeaderObject "X-IBM-Intrdr-Recfm" "F"]
          (JclText (val "//TESTJOB JOB"%string)))
       (inr (sample_job undefined)))
    (sample_job undefined)).
  simpl in Hvalid. destruct Hvalid as (Hr & Hnopoll).
  - rewrite Htr. simpl. tauto.
  - reflexivity.
  - exists tr, w'. rewrite <- Hr. auto.
Defined.

(** ** Propagation of remote failures *)

Create HintDb propagation.

Lemma propagates_resolve {R} (x : R) : propagates (resolve x).
Proof.
  intros W remote w tr r w' Hrun c e Hin _.
  apply runs_to_resolve_inv in Hrun. destruct Hrun as (-> & _). destruct Hin.
Qed.

Lemma propagates_throw {R} (v : thrown) : propagates (@throw SubmitE R v).
Proof.
  intros W remote w tr r w' Hrun c e Hin _.
  apply runs_to_throw_inv in Hrun. destruct Hrun as (-> & _). destruct Hin.
Qed.

Lemma propagates_andThen {A B} (c : SubmitJobs.M A) (k : A -> SubmitJobs.M B) :
  propagates c -> (forall a, propagates (k a)) -> propagates (andThen c k).
Proof.
  intros Hc Hk W remote w tr r w' Hrun call e Hin Hrej.
  apply runs_to_andThen_inv in Hrun.
  destruct Hrun as [(v & Hrun & ->) | (tr1 & a & w1 & tr2 & Hrun & Hrest & ->)].
  - pose proof (Hc _ _ _ _ _ _ Hrun _ _ Hin Hrej) as Hv. injection Hv as ->. reflexivity.
  - apply in_app_or in Hin. destruct Hin as [Hin|Hin].
    + pose proof (Hc _ _ _ _ _ _ Hrun _ _ Hin Hrej) as Habsurd. discriminate Habsurd.
    + exact (Hk a _ _ _ _ _ _ Hrest _ _ Hin Hrej).
Qed.

(** Logging and progress reporting are never rejected. *)
Lemma propagates_local {X} (e : SubmitE X) :
  (forall x, is_remote (answered e x) = false) -> propagates (perform e).
Proof.
  intros Hlocal W remote w tr r w' Hrun c err Hin Hrej.
  apply runs_to_perform_inv in Hrun. destruct Hrun as (-> & _).
  destruct Hin as [<-|[]]. rewrite (local_no_rejection _ (Hlocal _)) in Hrej.
  discriminate Hrej.
Qed.

Lemma propagates_log level format : propagates (perform (Log level format)).
Proof. apply propagates_local. reflexivity. Qed.

Lemma propagates_status text : propagates (perform (SetStatusMessage text)).
Proof. apply propagates_local. reflexivity. Qed.

Lemma propagates_percent percent : propagates (perform (SetPercentComplete percent)).
Proof. apply propagates_local. reflexivity. Qed.

(** An awaited remote call rejects with the error it was answered with. *)
Lemma propagates_remote {X} (e : SubmitE (ErrorObject + X)%type) :
  (forall answer, SubmitJobs.rejection (answered e answer) = error_of answer) ->
  propagates (await e).
Proof.
  intros Herror W remote w tr r w' Hrun c err Hin Hrej.
  apply runs_to_await_inv in Hrun. destruct Hrun as (-> & -> & _).
  destruct Hin as [<-|[]]. rewrite Herror in Hrej.
  destruct (fst (remote _ e w)); [|discriminate Hrej].
  injection Hrej as ->. reflexivity.
Qed.

Lemma propagates_put session res headers body :
  propagates (await (PutExpectJSON session res headers body)).
Proof. apply propagates_remote. reflexivity. Qed.

Lemma propagates_poll session parms : propagates (await (WaitForStatusCommon session parms)).
Proof. apply propagates_remote. reflexivity. Qed.

Lemma propagates_listing session job : propagates (await (GetSpoolFilesForJob session job)).
Proof. apply propagates_remote. reflexivity. Qed.

Lemma propagates_fetch session file : propagates (await (GetSpoolContent session file)).
Proof. apply propagates_remote. reflexivity. Qed.

Lemma propagates_download session parms :
  propagates (await (DownloadAllSpoolContentCommon session parms)).
Proof. apply propagates_remote. reflexivity. Qed.

Lemma propagates_for_of {A S} (body : A -> S -> SubmitJobs.M S) (xs : list A) :
  (forall x s, propagates (body x s)) -> forall s, propagates (for_of xs body s).
Proof.
  intros Hbody. induction xs as [|x xs IH]; intros s; simpl.
  - apply propagates_resolve.
  - apply propagates_andThen; [apply Hbody | exact IH].
Qed.

Lemma propagates_keysToBeDefined {A} (values : list (js A)) msg :
  propagates (ImperativeExpect.keysToBeDefined (E := SubmitE) values msg).
Proof.
  induction values as [|v values IH]; simpl.
  - apply propagates_resolve.
  - destruct (isNullOrUndefined v); [apply propagates_throw | exact IH].
Qed.

Lemma propagates_toNotBeNullOrUndefined {A} (actual : js A) msg :
  propagates (ImperativeExpect.toNotBeNullOrUndefined (E := SubmitE) actual msg).
Proof.
  unfold ImperativeExpect.toNotBeNullOrUndefined.
  destruct (isNullOrUndefined actual); [apply propagates_throw | apply propagates_resolve].
Qed.

Lemma propagates_toNotBeEqual actual expected msg :
  propagates (ImperativeExpect.toNotBeEqual (E := SubmitE) actual expected msg).
Proof.
  unfold ImperativeExpect.toNotBeEqual.
  destruct actual as [| |s]; try apply propagates_resolve.
  destruct (String.eqb s expected); [apply propagates_throw | apply propagates_resolve].
Qed.

Lemma propagates_when_task parms body :
  propagates body -> propagates (when_task parms body).
Proof.
  intros Hbody. unfold when_task.
  destruct (negb (isNullOrUndefined (task parms))); [exact Hbody | apply propagates_resolve].
Qed.

#[local] Hint Resolve propagates_resolve propagates_throw propagates_log propagates_status
  propagates_percent propagates_put propagates_poll propagates_listing propagates_fetch
  propagates_download propagates_keysToBeDefined propagates_toNotBeNullOrUndefined
  propagates_toNotBeEqual propagates_when_task : propagation.

(** Splits a sequence of awaited steps and closes the steps that are single
    calls or checks. *)
Ltac propagate :=
  repeat first
    [ progress auto with propagation
    | apply propagates_andThen; [|intros]
    | apply propagates_when_task
    | apply propagates_for_of; intros
    | match goal with
      | |- propagates (if ?b then _ else _) => destruct b
      | |- propagates (match ?x with _ => _ end) => destruct x
      end ].

Lemma propagates_submitJobCommon session parms : propagates (submitJobCommon session parms).
Proof. unfold submitJobCommon. propagate. Qed.

Lemma propagates_submitJclCommon session parms : propagates (submitJclCommon session parms).
Proof. unfold submitJclCommon. propagate. Qed.

Lemma propagates_submitNotifyCommon session job status watchDelay :
  propagates (submitNotifyCommon session job status watchDelay).
Proof. unfold submitNotifyCommon. propagate. Qed.

Lemma propagates_checkSubmitOptions session parms job :
  propagates (checkSubmitOptions session parms job).
Proof. unfold checkSubmitOptions. propagate. Qed.

#[local] Hint Resolve propagates_submitJobCommon propagates_submitJclCommon
  propagates_submitNotifyCommon propagates_checkSubmitOptions : propagation.

Lemma propagates_operation session R (op : operation session R) :
  propagates (call_operation op).
Proof.
  destruct op; simpl;
    unfold submitJob, submitJcl, submitJclString, submitJclNotify, submitJclNotifyCommon,
      submitJobNotify, submitJobNotifyCommon;
    propagate.
Qed.

(** ** The whole of checkSubmitOptions *)

Section AwaitThen.
Context {E : Type -> Type} {W : Type}.
Variable handle : forall X, E X -> W -> X * W.

(** [const x = await e; k x]: a rejection ends the run, otherwise the run
    goes on with the answer. *)
Lemma runs_to_await_then_inv {X R} (e : E (ErrorObject + X)%type) (k : X -> async E R)
  w tr r w' :
  runs_to handle (andThen (await e) k) w tr r w' ->
  (exists err,
      fst (handle e w) = inl err /\ tr = [answered e (inl err)] /\
      r = inl (Rejected err)) \/
  (exists x rest,
      fst (handle e w) = inr x /\ tr = answered e (inr x) :: rest /\
      runs_to handle (k x) (snd (handle e w)) rest r w').
Proof.
  intros Hrun. apply runs_to_andThen_inv in Hrun.
  destruct Hrun as [(v & Hc & ->) | (tr1 & x & w1 & tr2 & Hc & Hk & ->)];
    apply runs_to_await_inv in Hc; destruct Hc as (-> & Hv & Hw).
  - left. destruct (fst (handle e w)) as [err|x]; [|discriminate Hv].
    exists err. injection Hv as ->. auto.
  - right. destruct (fst (handle e w)) as [err|x']; [discriminate Hv|].
    injection Hv as ->. subst w1. exists x', tr2. auto.
Qed.
End AwaitThen.

Section CheckSubmitOptionsRuns.
Context {W : Type}.
Variable remote : forall X, SubmitE X -> W -> X * W.

(** The progress task, when there is one, gets its message and then its
    percentage; without a task nothing happens. *)
Lemma when_task_progress parms (text : string) (percent : nat) w tr r w' :
  runs_to remote
    (when_task parms
       (andThen (perform (SetStatusMessage text))
                (fun _ => perform (SetPercentComplete percent))))
    w tr r w' ->
  r = inr tt /\ tr = progress parms text percent.
Proof.
  unfold when_task, progress.
  destruct (negb (isNullOrUndefined (task parms))); intros Hrun.
  - split_run Hrun; tidy_run. unit_answers. auto.
  - split_run Hrun; tidy_run. auto.
Qed.

Lemma progress_then_inv {R} parms (text : string) (percent : nat) (k : SubmitJobs.M R)
  w tr r w' :
  runs_to remote
    (andThen
       (when_task parms
          (andThen (perform (SetStatusMessage text))
                   (fun _ => perform (SetPercentComplete percent))))
       (fun _ => k))
    w tr r w' ->
  exists w1 rest,
    tr = progress parms text percent ++ rest /\ runs_to remote k w1 rest r w'.
Proof.
  intros Hrun. apply runs_to_andThen_inv in Hrun.
  destruct Hrun as [(v & Hc & _) | (tr1 & [] & w1 & tr2 & Hc & Hk & ->)];
    apply when_task_progress in Hc; destruct Hc as (Hr & Htr).
  - discriminate Hr.
  - subst tr1. exists w1, tr2. auto.
Qed.

(** What follows the poll for OUTPUT when [viewAllSpoolContent] is set. *)
Lemma spool_content_runs session parms job w tr r w' :
  truthy_bool (viewAllSpoolContent parms) = true ->
  runs_to remote
    (andThen
       (when_task parms
          (andThen (perform (SetStatusMessage (retrieving_message job)))
                   (fun _ => perform (SetPercentComplete SEVENTY_PERCENT))))
       (fun _ =>
          andThen (await (GetSpoolFilesForJob session job))
            (fun spoolFiles =>
               andThen (for_of spoolFiles (collect session) [])
                       (fun arrOfSpoolFile => resolve (ResSpool arrOfSpoolFile)))))
    w tr r w' ->
  after_output session parms job tr r.
Proof.
  intros Hview Hrun.
  apply progress_then_inv in Hrun. destruct Hrun as (w1 & rest & -> & Hrun).
  apply runs_to_await_then_inv in Hrun.
  destruct Hrun as [(e & _ & -> & ->) | (files & rest' & _ & -> & Hrun)].
  { apply spool_listing_rejected. exact Hview. }
  apply runs_to_andThen_inv in Hrun.
  destruct Hrun as [(v & Hc & ->) | (tr1 & arr & w2 & tr2 & Hloop & Hrun & ->)].
  - apply (@collect_loop_runs _ remote session files) in Hc.
    destruct Hc as [(contents & _ & _ & Hr)
                   | (fetched & file & others & contents & e & -> & Hlen & -> & Hr)];
      [discriminate Hr|].
    injection Hr as ->. apply spool_fetch_rejected; assumption.
  - apply (@collect_loop_runs _ remote session files) in Hloop.
    destruct Hloop as [(contents & Hlen & -> & Hr)
                      | (fetched & file & others & contents & e & _ & _ & _ & Hr)];
      [|discriminate Hr].
    injection Hr as ->.
    apply runs_to_resolve_inv in Hrun. destruct Hrun as (-> & -> & _).
    rewrite app_nil_r. simpl. apply spool_collected; assumption.
Qed.

(** Every run of [checkSubmitOptions] is one of those that
    [post_submission] lists. *)
Lemma checkSubmitOptions_shape session parms job0 w tr r w' :
  runs_to remote (checkSubmitOptions session parms job0) w tr r w' ->
  post_submission session parms job0 tr r.
Proof.
  intros Hrun. unfold checkSubmitOptions in Hrun.
  destruct (truthy_bool (waitForActive parms)) eqn:Hactive.
  { apply runs_to_await_then_inv in Hrun.
    destruct Hrun as [(e & _ & -> & ->) | (job & rest & _ & -> & Hrun)].
    - apply (waited_for_active session parms job0 (inl e)). exact Hactive.
    - apply runs_to_resolve_inv in Hrun. destruct Hrun as (-> & -> & _).
      apply (waited_for_active session parms job0 (inr job)). exact Hactive. }
  destruct (truthy_bool (viewAllSpoolContent parms)) eqn:Hview;
    [|destruct (truthy_bool (waitForOutput parms)) eqn:Hout];
    cbn [orb negb] in Hrun.
  - apply progress_then_inv in Hrun. destruct Hrun as (w1 & rest & -> & Hrun).
    apply runs_to_await_then_inv in Hrun.
    destruct Hrun as [(e & _ & -> & ->) | (job & rest' & _ & -> & Hrun)].
    + apply output_poll_rejected; [exact Hactive|].
      unfold asks_for_output. rewrite Hview. reflexivity.
    + apply output_reached; [exact Hactive|].
      eapply spool_content_runs; [exact Hview | exact Hrun].
  - apply progress_then_inv in Hrun. destruct Hrun as (w1 & rest & -> & Hrun).
    apply runs_to_await_then_inv in Hrun.
    destruct Hrun as [(e & _ & -> & ->) | (job & rest' & _ & -> & Hrun)].
    + apply output_poll_rejected; [exact Hactive|].
      unfold asks_for_output. rewrite Hview, Hout. reflexivity.
    + apply runs_to_resolve_inv in Hrun. destruct Hrun as (-> & -> & _).
      apply output_reached; [exact Hactive|].
      apply snapshot_returned; assumption.
  - destruct (truthy_string (directory parms)) as [dir|] eqn:Hdir.
    + apply progress_then_inv in Hrun. destruct Hrun as (w1 & rest & -> & Hrun).
      apply runs_to_await_then_inv in Hrun.
      destruct Hrun as [(e & _ & -> & ->) | (job & rest' & _ & -> & Hrun)].
      * apply output_poll_rejected; [exact Hactive|].
        unfold asks_for_output. rewrite Hview, Hout, Hdir. reflexivity.
      * apply output_reached; [exact Hactive|].
        apply progress_then_inv in Hrun. destruct Hrun as (w2 & rest & -> & Hrun).
        assert (Hset : truthy_string (directory parms) <> None)
          by (rewrite Hdir; discriminate).
        apply runs_to_await_then_inv in Hrun.
        destruct Hrun as [(e & _ & -> & ->) | (done & rest'' & _ & -> & Hrun)].
        -- apply (spool_downloaded session parms job (inl e)); assumption.
        -- apply runs_to_resolve_inv in Hrun. destruct Hrun as (-> & -> & _).
           apply (spool_downloaded session parms job (inr done)); assumption.
    + apply runs_to_resolve_inv in Hrun. destruct Hrun as (-> & -> & _).
      apply nothing_asked; [exact Hactive|].
      unfold asks_for_output. rewrite Hview, Hout, Hdir. reflexivity.
Qed.
End CheckSubmitOptionsRuns.

(** ** What the options of checkSubmitOptions select *)

Lemma remote_calls_progress parms (text : string) (percent : nat) :
  remote_calls (progress parms text percent) = [].
Proof. unfold progress. destruct (negb (isNullOrUndefined (task parms))); reflexivity. Qed.

Lemma remote_calls_cons_remote (c : entry SubmitE) (tr : list (entry SubmitE)) :
  is_remote c = true -> remote_calls (c :: tr) = c :: remote_calls tr.
Proof. intros Hc. unfold remote_calls. cbn [filter]. rewrite Hc. reflexivity. Qed.

(** Computes the remote calls of a trace written out piece by piece. *)
Ltac only_remote :=
  repeat first
    [ rewrite remote_calls_app
    | rewrite remote_calls_progress
    | rewrite remote_calls_fetches
    | rewrite remote_calls_cons_remote by reflexivity ];
  try reflexivity.

Lemma polls_app (tr1 tr2 : list (entry SubmitE)) : polls (tr1 ++ tr2) = polls tr1 ++ polls tr2.
Proof. apply flat_map_app. Qed.

Lemma polls_progress parms (text : string) (percent : nat) :
  polls (progress parms text percent) = [].
Proof. unfold progress. destruct (negb (isNullOrUndefined (task parms))); reflexivity. Qed.

Lemma polls_fetches session files : forall contents,
  polls (fetches session files contents) = [].
Proof.
  induction files as [|file files IH]; intros [|content contents]; try reflexivity.
  apply (IH contents).
Qed.

Lemma fetches_only_fetch session files (f : entry SubmitE -> bool) :
  (forall file content,
      f (answered (GetSpoolContent session file) (inr content)) = false) ->
  forall contents, existsb f (fetches session files contents) = false.
Proof.
  intros Hf. induction files as [|file files IH]; intros [|content contents];
    try reflexivity.
  change (f (answered (GetSpoolContent session file) (inr content))
          || existsb f (fetches session files contents) = false).
  rewrite Hf. apply IH.
Qed.

Lemma progress_only_local parms (text : string) (percent : nat) (f : entry SubmitE -> bool) :
  (forall c, is_remote c = false -> f c = false) ->
  existsb f (progress parms text percent) = false.
Proof.
  intros Hf. unfold progress. destruct (negb (isNullOrUndefined (task parms)));
    [|reflexivity].
  cbn [existsb]. rewrite !Hf; reflexivity.
Qed.

(** Takes a run of [checkSubmitOptions] apart into the cases of
    [post_submission] and [after_output]. *)
Ltac post_submission_cases Hrun :=
  apply checkSubmitOptions_shape in Hrun;
  let Hafter := fresh "Hafter" in
  inversion Hrun as [answer ?Hactive | ?Hactive ?Hasks | e ?Hactive ?Hasks
                    | job rest r0 ?Hactive Hafter];
  subst;
  [ | | |
    inversion Hafter as [?Hview ?Hout | e ?Hview | fetched file others contents e ?Hview ?Hlen
                        | files contents ?Hview ?Hlen | answer ?Hview ?Hout ?Hdir];
    subst ];
  clear Hrun.

(** Closes a case whose conditions on the options contradict each other. *)
Ltac options_clash parms :=
  exfalso; unfold asks_for_output in *;
  repeat match goal with
  | H : truthy_bool _ = _ |- _ => revert H
  | H : context [truthy_string (directory parms)] |- _ => revert H
  | H : context [truthy_bool (_ parms)] |- _ => revert H
  end;
  destruct (truthy_bool (waitForActive parms)),
    (truthy_bool (viewAllSpoolContent parms)),
    (truthy_bool (waitForOutput parms)),
    (truthy_string (directory parms));
  cbn; intros; congruence.

Section CheckSubmitOptionsOptions.
Context {W : Type}.
Variable remote : forall X, SubmitE X -> W -> X * W.

(** X3. With [waitForOutput] set and neither [waitForActive] nor
    [viewAllSpoolContent], [checkSubmitOptions] makes one remote call, the
    status poll of the submitted job with target OUTPUT, and settles as the
    poll does: it resolves to the snapshot the poll returned.  A [directory]
    given as well is ignored: nothing is listed, fetched or downloaded. *)
Theorem checkSubmitOptions_waitForOutput
  (session : SubmitJobs.AbstractSession) (parms : ISubmitParms) (job0 : IJob) (w : W) :
  truthy_bool (waitForActive parms) = false ->
  truthy_bool (viewAllSpoolContent parms) = false ->
  truthy_bool (waitForOutput parms) = true ->
  exists tr r w',
    runs_to remote (checkSubmitOptions session parms job0) w tr r w' /\
    exists answer,
      remote_calls tr =
        [answered (WaitForStatusCommon session (poll_parms parms job0 OUTPUT)) answer] /\
      r = match answer with
          | inl err => inl (Rejected err)
          | inr job => inr (ResJob job)
          end.
Proof.
  intros Hactive Hview Hout.
  destruct (checkSubmitOptions_terminates remote session parms job0 w)
    as (tr & r & w' & Hrun).
  exists tr, r, w'. split; [exact Hrun|].
  post_submission_cases Hrun; try solve [options_clash parms].
  - exists (inl e). split; [only_remote | reflexivity].
  - exists (inr job). split; [only_remote | reflexivity].
Qed.

(** X4. With [directory] set and none of [waitForActive],
    [viewAllSpoolContent] and [waitForOutput], [checkSubmitOptions] polls
    the submitted job for OUTPUT and then asks for one bulk download, for
    the job id and job name of the snapshot that the poll returned, into
    [directory], with the extension normalized when one is given and left
    out otherwise.  It resolves to the polled snapshot; when the poll is
    rejected nothing is downloaded, and a rejected download rejects the
    operation. *)
Theorem checkSubmitOptions_directory
  (session : SubmitJobs.AbstractSession) (parms : ISubmitParms) (job0 : IJob) (w : W) :
  truthy_bool (waitForActive parms) = false ->
  truthy_bool (viewAllSpoolContent parms) = false ->
  truthy_bool (waitForOutput parms) = false ->
  truthy_string (directory parms) <> None ->
  exists tr r w',
    runs_to remote (checkSubmitOptions session parms job0) w tr r w' /\
    ((exists e,
         remote_calls tr =
           [answered (WaitForStatusCommon session (poll_parms parms job0 OUTPUT)) (inl e)] /\
         r = inl (Rejected e)) \/
     (exists job answer,
         remote_calls tr =
           [answered (WaitForStatusCommon session (poll_parms parms job0 OUTPUT)) (inr job);
            answered
              (DownloadAllSpoolContentCommon session
                 {| dl_jobid := jobid job;
                    dl_jobname := jobname job;
                    dl_outDir := directory parms;
                    dl_extension :=
                      match truthy_string (extension parms) with
                      | Some ext => val (IO_normalizeExtension ext)
                      | None => undefined
                      end |})
              answer] /\
         r = match answer with
             | inl err => inl (Rejected err)
             | inr _ => inr (ResJob job)
             end)).
Proof.
  intros Hactive Hview Hout Hdir.
  destruct (checkSubmitOptions_terminates remote session parms job0 w)
    as (tr & r & w' & Hrun).
  exists tr, r, w'. split; [exact Hrun|].
  post_submission_cases Hrun; try solve [options_clash parms].
  - left. exists e. split; [only_remote | reflexivity].
  - right. exists job, answer. split; [only_remote | reflexivity].
Qed.

(** X5. Without a progress task, or with [waitForActive] set,
    [checkSubmitOptions] reports no progress at all: every entry of its
    trace is a call to the remote system. *)
Theorem checkSubmitOptions_without_task
  (session : SubmitJobs.AbstractSession) (parms : ISubmitParms) (job0 : IJob) (w : W) :
  isNullOrUndefined (task parms) = true \/ truthy_bool (waitForActive parms) = true ->
  exists tr r w',
    runs_to remote (checkSubmitOptions session parms job0) w tr r w' /\
    remote_calls tr = tr.
Proof.
  intros Hquiet.
  destruct (checkSubmitOptions_terminates remote session parms job0 w)
    as (tr & r & w' & Hrun).
  exists tr, r, w'. split; [exact Hrun|].
  destruct Hquiet as [Htask | Hactive].
  - post_submission_cases Hrun; unfold progress; rewrite ?Htask; cbn [negb app];
      only_remote.
  - post_submission_cases Hrun; try solve [options_clash parms]. reflexivity.
Qed.

(** X6. With a progress task (and [waitForActive] not set) the task is
    written to as follows when one of [viewAllSpoolContent],
    [waitForOutput] and [directory] is set.  Before the poll: the message
    "Waiting for <id of the submitted job> to enter OUTPUT" and 30 percent.
    After a poll that succeeded, unless only [waitForOutput] asked for it:
    the message "Retrieving spool content for ..." (with
    [viewAllSpoolContent]) or "Downloading spool content for ..."
    (otherwise), with the id of the polled job and, when it has one, its
    return code, and 70 percent.  Nothing else is written: a rejected poll
    leaves the task at 30 percent, and so does [waitForOutput] alone. *)
Theorem checkSubmitOptions_progress
  (session : SubmitJobs.AbstractSession) (parms : ISubmitParms) (job0 : IJob) (w : W) :
  isNullOrUndefined (task parms) = false ->
  truthy_bool (waitForActive parms) = false ->
  asks_for_output parms = true ->
  exists tr r w',
    runs_to remote (checkSubmitOptions session parms job0) w tr r w' /\
    exists answer rest,
      tr = answered (SetStatusMessage
                       ("Waiting for " ++ js_concat_string (jobid job0)
                          ++ " to enter OUTPUT")%string) tt ::
           answered (SetPercentComplete 30) tt ::
           answered (WaitForStatusCommon session (poll_parms parms job0 OUTPUT)) answer ::
           rest /\
      match answer with
      | inl _ => rest = []
      | inr job =>
          if truthy_bool (viewAllSpoolContent parms)
             || negb (truthy_bool (waitForOutput parms))
          then
            exists calls,
              rest =
                answered (SetStatusMessage
                            ((if truthy_bool (viewAllSpoolContent parms)
                              then "Retrieving spool content for "
                              else "Downloading spool content for ")
                               ++ js_concat_string (jobid job)
                               ++ (if isNullOrUndefined (retcode job) then ""
                                   else ", " ++ js_concat_string (retcode job)))%string) tt ::
                answered (SetPercentComplete 70) tt :: calls /\
              remote_calls calls = calls
          else rest = []
      end.
Proof.
  intros Htask Hactive Hasks.
  destruct (checkSubmitOptions_terminates remote session parms job0 w)
    as (tr & r & w' & Hrun).
  exists tr, r, w'. split; [exact Hrun|].
  post_submission_cases Hrun; try solve [options_clash parms];
    unfold progress; rewrite Htask; cbn [negb app].
  - exists (inl e), []. auto.
  - exists (inr job), []. split; [reflexivity|]. rewrite Hview, Hout. reflexivity.
  - exists (inr job). eexists. split; [reflexivity|]. rewrite Hview. cbn [orb].
    eexists. split; [reflexivity|]. reflexivity.
  - exists (inr job). eexists. split; [reflexivity|]. rewrite Hview. cbn [orb].
    eexists. split; [reflexivity|]. only_remote.
  - exists (inr job). eexists. split; [reflexivity|]. rewrite Hview. cbn [orb].
    eexists. split; [reflexivity|]. only_remote.
  - exists (inr job). eexists. split; [reflexivity|]. rewrite Hview, Hout. cbn [orb negb].
    eexists. split; [reflexivity|]. reflexivity.
Qed.

(** X7. Whatever the options, [checkSubmitOptions] polls the status of
    the job at most once: not at all when no option is set, and otherwise
    exactly once, for the job name and job id of the submitted job, with the
    caller's [maxAttempts] and [watchDelay], and with target ACTIVE when
    [waitForActive] is set and OUTPUT when it is not. *)
Theorem checkSubmitOptions_polls_once
  (session : SubmitJobs.AbstractSession) (parms : ISubmitParms) (job0 : IJob) (w : W) :
  exists tr r w',
    runs_to remote (checkSubmitOptions session parms job0) w tr r w' /\
    polls tr =
      if truthy_bool (waitForActive parms) || asks_for_output parms then
        [{| mw_jobname := jobname job0;
            mw_jobid := jobid job0;
            mw_status := val (if truthy_bool (waitForActive parms) then ACTIVE else OUTPUT);
            mw_maxAttempts := maxAttempts parms;
            mw_watchDelay := watchDelay parms |}]
      else [].
Proof.
  destruct (checkSubmitOptions_terminates remote session parms job0 w)
    as (tr & r & w' & Hrun).
  exists tr, r, w'. split; [exact Hrun|].
  assert (Hasked : forall job rest res,
             after_output session parms job rest res -> asks_for_output parms = true).
  { intros job rest res Hafter. unfold asks_for_output.
    inversion Hafter as [Hview Hout | e Hview | fetched file others contents e Hview Hlen
                        | files contents Hview Hlen | answer Hview Hout Hdir];
      rewrite ?Hview, ?Hout; try reflexivity.
    destruct (truthy_string (directory parms)); [reflexivity | contradiction]. }
  assert (Hquiet : forall job rest res,
             after_output session parms job rest res -> polls rest = []).
  { intros job rest res Hafter.
    inversion Hafter as [Hview Hout | e Hview | fetched file others contents e Hview Hlen
                        | files contents Hview Hlen | answer Hview Hout Hdir];
      rewrite ?polls_app, ?polls_progress; try reflexivity.
    - change (polls (fetches session fetched contents
                     ++ [answered (GetSpoolContent session file) (inl e)]) = []).
      rewrite polls_app, polls_fetches. reflexivity.
    - change (polls (fetches session files contents) = []). apply polls_fetches. }
  apply checkSubmitOptions_shape in Hrun.
  inversion Hrun as [answer Hactive | Hactive Hasks | e Hactive Hasks
                    | job rest r0 Hactive Hafter]; subst.
  - rewrite Hactive. reflexivity.
  - rewrite Hactive, Hasks. reflexivity.
  - rewrite Hactive, Hasks, polls_app, polls_progress. reflexivity.
  - rewrite Hactive, (Hasked _ _ _ Hafter), polls_app, polls_progress.
    cbn [app orb]. change (polls (?c :: ?l)) with (polls [c] ++ polls l).
    rewrite (Hquiet _ _ _ Hafter). reflexivity.
Qed.

(** X8. [checkSubmitOptions] never submits anything; it asks for a bulk
    download only when [directory] is set and none of [waitForActive],
    [viewAllSpoolContent] and [waitForOutput] is; and it fetches the content
    of a spool file only when [viewAllSpoolContent] is set and
    [waitForActive] is not. *)
Theorem checkSubmitOptions_guards
  (session : SubmitJobs.AbstractSession) (parms : ISubmitParms) (job0 : IJob) (w : W) :
  exists tr r w',
    runs_to remote (checkSubmitOptions session parms job0) w tr r w' /\
    existsb is_put tr = false /\
    (existsb is_download tr = true ->
     truthy_bool (waitForActive parms) = false /\
     truthy_bool (viewAllSpoolContent parms) = false /\
     truthy_bool (waitForOutput parms) = false /\
     truthy_string (directory parms) <> None) /\
    (existsb is_spool_fetch tr = true ->
     truthy_bool (waitForActive parms) = false /\
     truthy_bool (viewAllSpoolContent parms) = true).
Proof.
  destruct (checkSubmitOptions_terminates remote session parms job0 w)
    as (tr & r & w' & Hrun).
  exists tr, r, w'. split; [exact Hrun|].
  assert (Hput : forall c, is_remote c = false -> is_put c = false)
    by (intros [X [e x]]; destruct e; cbn; congruence).
  assert (Hdown : forall c, is_remote c = false -> is_download c = false)
    by (intros [X [e x]]; destruct e; cbn; congruence).
  assert (Hfetch : forall c, is_remote c = false -> is_spool_fetch c = false)
    by (intros [X [e x]]; destruct e; cbn; congruence).
  post_submission_cases Hrun;
    repeat (rewrite ?existsb_app, ?progress_only_local, ?fetches_only_fetch by auto;
            cbn [existsb orb app]);
    repeat split; auto; try discriminate.
Qed.

(** X9. The kind of the result follows from the options alone: when
    [checkSubmitOptions] resolves, it resolves to a list of spool files if
    [viewAllSpoolContent] is set and [waitForActive] is not, and to a job
    document in every other case. *)
Theorem checkSubmitOptions_result_kind
  (session : SubmitJobs.AbstractSession) (parms : ISubmitParms) (job0 : IJob) (w : W) :
  exists tr r w',
    runs_to remote (checkSubmitOptions session parms job0) w tr r w' /\
    match r with
    | inl _ => True
    | inr (ResSpool _) =>
        negb (truthy_bool (waitForActive parms)) && truthy_bool (viewAllSpoolContent parms)
        = true
    | inr (ResJob _) =>
        negb (truthy_bool (waitForActive parms)) && truthy_bool (viewAllSpoolContent parms)
        = false
    end.
Proof.
  destruct (checkSubmitOptions_terminates remote session parms job0 w)
    as (tr & r & w' & Hrun).
  exists tr, r, w'. split; [exact Hrun|].
  post_submission_cases Hrun; try exact I;
    try (destruct answer; [exact I|]);
    unfold asks_for_output in *;
    destruct (truthy_bool (waitForActive parms)); try discriminate;
    destruct (truthy_bool (viewAllSpoolContent parms)); try discriminate;
    reflexivity.
Qed.
End CheckSubmitOptionsOptions.

Lemma checkSubmitOptions_waitForOutput_witness :
  exists tr r w',
    runs_to (sample_remote (val "TESTJOB") None)
      (checkSubmitOptions "zosmf" output_and_directory (sample_job (val "TESTJOB"))) 0
      tr r w' /\
    exists answer,
      remote_calls tr =
        [answered
           (WaitForStatusCommon "zosmf"
              (poll_parms output_and_directory (sample_job (val "TESTJOB")) OUTPUT))
           answer] /\
      r = match answer with
          | inl err => inl (Rejected err)
          | inr job => inr (ResJob job)
          end.
Proof.
  exact (@checkSubmitOptions_waitForOutput nat (sample_remote (val "TESTJOB") None)
           "zosmf" output_and_directory (sample_job (val "TESTJOB")) 0
           eq_refl eq_refl eq_refl).
Defined.

(** ** The operations built on the two submissions *)

Section OperationRuns.
Context {W : Type}.
Variable remote : forall X, SubmitE X -> W -> X * W.

Lemma submitJob_terminates session jobDataSet w :
  terminates remote (submitJob session jobDataSet) w.
Proof.
  unfold submitJob. apply terminates_andThen; [apply terminates_perform|].
  intros. apply submitJobCommon_terminates.
Qed.

Lemma submitJcl_terminates session jcl recfm lrecl w :
  terminates remote (submitJcl session jcl recfm lrecl) w.
Proof.
  unfold submitJcl. apply terminates_andThen; [apply terminates_perform|].
  intros. apply submitJclCommon_terminates.
Qed.

Lemma submitJclString_terminates session jcl parms w :
  terminates remote (submitJclString session jcl parms) w.
Proof.
  unfold submitJclString. apply terminates_andThen.
  { unfold ImperativeExpect.toNotBeNullOrUndefined.
    destruct (isNullOrUndefined jcl); [apply terminates_throw | apply terminates_resolve]. }
  intros _ w1. apply terminates_andThen.
  { unfold ImperativeExpect.toNotBeEqual. destruct jcl as [| |text];
      try apply terminates_resolve.
    destruct (String.eqb text ""); [apply terminates_throw | apply terminates_resolve]. }
  intros _ w2. apply terminates_andThen; [apply submitJclCommon_terminates|].
  intros. apply checkSubmitOptions_terminates.
Qed.

Lemma submitJclNotifyCommon_terminates session parms w :
  terminates remote (submitJclNotifyCommon session parms) w.
Proof.
  unfold submitJclNotifyCommon. apply terminates_andThen; [apply terminates_perform|].
  intros _ w1. apply terminates_andThen; [apply submitJclCommon_terminates|].
  intros. apply submitNotifyCommon_terminates.
Qed.

Lemma submitJclNotify_terminates session jcl recfm lrecl w :
  terminates remote (submitJclNotify session jcl recfm lrecl) w.
Proof.
  unfold submitJclNotify. apply terminates_andThen; [apply terminates_perform|].
  intros. apply submitJclNotifyCommon_terminates.
Qed.

Lemma submitJobNotifyCommon_terminates session parms w :
  terminates remote (submitJobNotifyCommon session parms) w.
Proof.
  unfold submitJobNotifyCommon. simpl ImperativeExpect.keysToBeDefined.
  apply terminates_andThen; [apply terminates_perform|]. intros _ w1.
  apply terminates_andThen.
  { destruct (isNullOrUndefined (jn_jobDataSet parms));
      [apply terminates_throw | apply terminates_resolve]. }
  intros _ w2. apply terminates_andThen; [apply submitJobCommon_terminates|].
  intros. apply submitNotifyCommon_terminates.
Qed.

Lemma submitJobNotify_terminates session jobDataSet w :
  terminates remote (submitJobNotify session jobDataSet) w.
Proof.
  unfold submitJobNotify. apply terminates_andThen; [apply terminates_perform|].
  intros. apply submitJobNotifyCommon_terminates.
Qed.

(** A step that only writes to the log. *)
Lemma logged_then_inv {R} level (text : string) (k : SubmitJobs.M R) w tr r w' :
  runs_to remote (andThen (perform (Log level text)) (fun _ => k)) w tr r w' ->
  exists w1 rest,
    tr = answered (Log level text) tt :: rest /\ runs_to remote k w1 rest r w'.
Proof.
  intros Hrun. apply runs_to_andThen_inv in Hrun.
  destruct Hrun as [(v & Hc & _) | (tr1 & [] & w1 & tr2 & Hc & Hk & ->)];
    apply runs_to_perform_inv in Hc; destruct Hc as (-> & Hr & Hw).
  - discriminate Hr.
  - exists w1, tr2. split; [|exact Hk]. unit_answers. reflexivity.
Qed.

(** What [submitNotifyCommon] adds to a submission: the check of the job
    document and then the poll. *)
Lemma notify_runs session job status watchDelay w tr r w' :
  runs_to remote (submitNotifyCommon session job status watchDelay) w tr r w' ->
  if isNullOrUndefined (jobname job) || isNullOrUndefined (jobid job) then
    remote_calls tr = [] /\
    r = inl (ExpectError (literal
          "The job object you provide must contain both 'jobname' and 'jobid'."))
  else
    exists polled,
      remote_calls tr =
        [answered (WaitForStatusCommon session (notify_parms job status watchDelay)) polled] /\
      r = settled polled.
Proof.
  intros Hrun. apply submitNotifyCommon_runs in Hrun. unfold lacks_identity in Hrun.
  destruct Hrun as [(-> & Hlocal & ->) | (-> & before & polled & Hlocal & -> & ->)].
  - split; [apply remote_calls_local; exact Hlocal | reflexivity].
  - exists polled. split; [|reflexivity].
    rewrite remote_calls_app, (remote_calls_local Hlocal). reflexivity.
Qed.

(** X1. A data set name that is null or undefined is refused before
    anything is sent: [submitJobCommon], [submitJob],
    [submitJobNotifyCommon] and [submitJobNotify] reject with the
    expectation error and make no remote call.  The two notify operations
    are stopped by the check of [submitJobNotifyCommon] itself, whose
    message ends in a full stop, before [submitJobCommon] is entered. *)
Theorem missing_data_set_is_rejected
  (session : SubmitJobs.AbstractSession) (dataSet : js string)
  (status : js JOB_STATUS) (watchDelay : js nat) (w : W) :
  isNullOrUndefined dataSet = true ->
  (exists tr w',
      runs_to remote (submitJobCommon session {| jobDataSet := dataSet |}) w tr
        (inl (ExpectError (literal
           "You must provide a data set containing JCL to submit in parms.jobDataSet")))
        w' /\
      remote_calls tr = []) /\
  (exists tr w',
      runs_to remote (submitJob session dataSet) w tr
        (inl (ExpectError (literal
           "You must provide a data set containing JCL to submit in parms.jobDataSet")))
        w' /\
      remote_calls tr = []) /\
  (exists tr w',
      runs_to remote
        (submitJobNotifyCommon session
           {| jn_jobDataSet := dataSet; jn_status := status; jn_watchDelay := watchDelay |})
        w tr
        (inl (ExpectError (literal
           "You must provide a data set containing JCL to submit in parms.jobDataSet.")))
        w' /\
      remote_calls tr = []) /\
  (exists tr w',
      runs_to remote (submitJobNotify session dataSet) w tr
        (inl (ExpectError (literal
           "You must provide a data set containing JCL to submit in parms.jobDataSet.")))
        w' /\
      remote_calls tr = []).
Proof.
  intros Hmissing. repeat split.
  - destruct (submitJobCommon_terminates remote session {| jobDataSet := dataSet |} w)
      as (tr & r & w' & Hrun).
    pose proof Hrun as Hshape. unfold submitJobCommon in Hshape.
    simpl ImperativeExpect.keysToBeDefined in Hshape. rewrite Hmissing in Hshape.
    split_run Hshape; tidy_run. eexists. eexists. split; [exact Hrun | reflexivity].
  - destruct (submitJob_terminates session dataSet w) as (tr & r & w' & Hrun).
    pose proof Hrun as Hshape. unfold submitJob, submitJobCommon in Hshape.
    simpl ImperativeExpect.keysToBeDefined in Hshape. rewrite Hmissing in Hshape.
    split_run Hshape; tidy_run. eexists. eexists. split; [exact Hrun | reflexivity].
  - destruct (submitJobNotifyCommon_terminates session
                {| jn_jobDataSet := dataSet; jn_status := status;
                   jn_watchDelay := watchDelay |} w)
      as (tr & r & w' & Hrun).
    pose proof Hrun as Hshape. unfold submitJobNotifyCommon in Hshape.
    simpl ImperativeExpect.keysToBeDefined in Hshape. rewrite Hmissing in Hshape.
    apply logged_then_inv in Hshape. destruct Hshape as (w1 & rest & -> & Hshape).
    apply runs_to_andThen_inv in Hshape.
    destruct Hshape as [(v & Hc & ->) | (tr1 & a & w2 & tr2 & Hc & _ & _)];
      apply runs_to_throw_inv in Hc; destruct Hc as (-> & Hv & _); [|discriminate Hv].
    injection Hv as ->. eexists. exists w'. split; [exact Hrun | reflexivity].
  - destruct (submitJobNotify_terminates session dataSet w) as (tr & r & w' & Hrun).
    pose proof Hrun as Hshape. unfold submitJobNotify, submitJobNotifyCommon in Hshape.
    simpl ImperativeExpect.keysToBeDefined in Hshape. rewrite Hmissing in Hshape.
    apply logged_then_inv in Hshape. destruct Hshape as (w1 & rest & -> & Hshape).
    apply logged_then_inv in Hshape. destruct Hshape as (w2 & rest' & -> & Hshape).
    apply runs_to_andThen_inv in Hshape.
    destruct Hshape as [(v & Hc & ->) | (tr1 & a & w3 & tr2 & Hc & _ & _)];
      apply runs_to_throw_inv in Hc; destruct Hc as (-> & Hv & _); [|discriminate Hv].
    injection Hv as ->. eexists. exists w'. split; [exact Hrun | reflexivity].
Qed.

(** X2. A data set name that is given is not looked at any further:
    [submitJobCommon] and [submitJob] make one remote call, the PUT on the
    jobs resource with the JSON header and the body {file: "//'NAME'"}, for
    any name, the empty one included, and settle as that call does. *)
Theorem data_set_submission
  (session : SubmitJobs.AbstractSession) (dataSet : string) (w : W) :
  (exists tr r w',
      runs_to remote (submitJobCommon session {| jobDataSet := val dataSet |}) w tr r w' /\
      exists answer,
        remote_calls tr =
          [answered
             (PutExpectJSON session JobsConstants_RESOURCE [Headers_APPLICATION_JSON]
                (JobObj ("//'" ++ dataSet ++ "'")%string))
             answer] /\
        r = settled answer) /\
  (exists tr r w',
      runs_to remote (submitJob session (val dataSet)) w tr r w' /\
      exists answer,
        remote_calls tr =
          [answered
             (PutExpectJSON session JobsConstants_RESOURCE [Headers_APPLICATION_JSON]
                (JobObj ("//'" ++ dataSet ++ "'")%string))
             answer] /\
        r = settled answer).
Proof.
  split.
  - destruct (submitJobCommon_terminates remote session {| jobDataSet := val dataSet |} w)
      as (tr & r & w' & Hrun).
    exists tr, r, w'. split; [exact Hrun|].
    unfold submitJobCommon in Hrun. simpl ImperativeExpect.keysToBeDefined in Hrun.
    split_run Hrun; tidy_run. eexists. split; reflexivity.
  - destruct (submitJob_terminates session (val dataSet) w) as (tr & r & w' & Hrun).
    exists tr, r, w'. split; [exact Hrun|].
    unfold submitJob, submitJobCommon in Hrun.
    simpl ImperativeExpect.keysToBeDefined in Hrun.
    split_run Hrun; tidy_run. eexists. split; reflexivity.
Qed.

(** X10. [submitJclString] with a text that is not empty submits it with
    the default record length and record format, whatever the options are,
    and does nothing else when the submission is rejected.  Otherwise the
    rest of the run is a run of [checkSubmitOptions] with the caller's
    options on the job document that the submission returned. *)
Theorem submitJclString_then_options
  (session : SubmitJobs.AbstractSession) (text : string) (parms : ISubmitParms) (w : W) :
  text <> ""%string ->
  exists tr r w',
    runs_to remote (submitJclString session (val text) parms) w tr r w' /\
    exists before answer rest,
      local_only before /\
      tr = before ++
           answered
             (PutExpectJSON session JobsConstants_RESOURCE
                [Headers_TEXT_PLAIN_UTF8; X_IBM_INTRDR_MODE_TEXT;
                 X_IBM_INTRDR_LRECL_80; X_IBM_INTRDR_RECFM_F]
                (JclText (val text)))
             answer :: rest /\
      match answer with
      | inl e => rest = [] /\ r = inl (Rejected e)
      | inr job =>
          exists w1, runs_to remote (checkSubmitOptions session parms job) w1 rest r w'
      end.
Proof.
  intros Htext.
  destruct (submitJclString_terminates session (val text) parms w) as (tr & r & w' & Hrun).
  exists tr, r, w'. split; [exact Hrun|].
  unfold submitJclString in Hrun.
  unfold ImperativeExpect.toNotBeNullOrUndefined, ImperativeExpect.toNotBeEqual in Hrun.
  cbn [isNullOrUndefined] in Hrun.
  apply String.eqb_neq in Htext. rewrite Htext in Hrun.
  apply runs_to_andThen_inv in Hrun.
  destruct Hrun as [(v & Hc & _) | (tr1 & [] & w1 & tr2 & Hc & Hrun & ->)];
    apply runs_to_resolve_inv in Hc; destruct Hc as (-> & Hv & ->); [discriminate Hv|].
  apply runs_to_andThen_inv in Hrun.
  destruct Hrun as [(v & Hc & _) | (tr1 & [] & w1 & tr3 & Hc & Hrun & ->)];
    apply runs_to_resolve_inv in Hc; destruct Hc as (-> & Hv' & ->); [discriminate Hv'|].
  cbn [app]. apply runs_to_andThen_inv in Hrun.
  destruct Hrun as [(v & Hc & ->) | (tr1 & job & w1 & tr4 & Hc & Hrun & ->)];
    apply submitJclCommon_runs in Hc;
    destruct Hc as [(Hnull & _) | (_ & before & answer & Hlocal & -> & Hr)];
    try discriminate Hnull.
  - destruct answer as [e|job]; [|discriminate Hr]. injection Hr as ->.
    exists before, (inl e), []. auto.
  - destruct answer as [e|job']; [discriminate Hr|]. injection Hr as ->.
    exists before, (inr job'), tr4. rewrite <- app_assoc. cbn [app].
    split; [exact Hlocal|]. split; [reflexivity|]. exists w1. exact Hrun.
Qed.

(** X11. [submitJcl] and [submitJclNotify] hand the text and the two
    overrides on as they are: JCL that is null or undefined is refused
    without a remote call, and any other text is sent once, with the record
    length and record format headers that [submitJclCommon] builds from the
    overrides.  [submitJclNotify] then polls the job that the submission
    returned, by its own name and id and with no status, no delay and no
    number of attempts of its own, provided the job document has both a name
    and an id; otherwise it rejects with the expectation error after the
    submission. *)
Theorem submitJclNotify_submits_then_polls
  (session : SubmitJobs.AbstractSession) (text recfm lrecl : js string) (w : W) :
  let put :=
    PutExpectJSON session JobsConstants_RESOURCE
      (jcl_headers
         {| jcl := text; internalReaderRecfm := recfm; internalReaderLrecl := lrecl |})
      (JclText text) in
  let missing :=
    ExpectError (literal
      "You must provide a JCL string to submit. The 'jcl' field of the provided parameters was undefined. ") in
  (exists tr r w',
      runs_to remote (submitJcl session text recfm lrecl) w tr r w' /\
      if isNullOrUndefined text then remote_calls tr = [] /\ r = inl missing
      else exists answer, remote_calls tr = [answered put answer] /\ r = settled answer) /\
  (exists tr r w',
      runs_to remote (submitJclNotify session text recfm lrecl) w tr r w' /\
      if isNullOrUndefined text then remote_calls tr = [] /\ r = inl missing
      else
        exists answer,
          match answer with
          | inl e => remote_calls tr = [answered put (inl e)] /\ r = inl (Rejected e)
          | inr job =>
              if isNullOrUndefined (jobname job) || isNullOrUndefined (jobid job) then
                remote_calls tr = [answered put (inr job)] /\
                r = inl (ExpectError (literal
                      "The job object you provide must contain both 'jobname' and 'jobid'."))
              else
                exists polled,
                  remote_calls tr =
                    [answered put (inr job);
                     answered
                       (WaitForStatusCommon session
                          {| mw_jobname := jobname job;
                             mw_jobid := jobid job;
                             mw_status := undefined;
                             mw_maxAttempts := undefined;
                             mw_watchDelay := undefined |})
                       polled] /\
                  r = settled polled
          end).
Proof.
  intros put missing. split.
  - destruct (submitJcl_terminates session text recfm lrecl w) as (tr & r & w' & Hrun).
    exists tr, r, w'. split; [exact Hrun|].
    unfold submitJcl in Hrun.
    apply logged_then_inv in Hrun. destruct Hrun as (w1 & rest & -> & Hrun).
    apply submitJclCommon_runs in Hrun. cbn [jcl] in Hrun.
    destruct Hrun as [(-> & -> & ->) | (-> & before & answer & Hlocal & -> & ->)].
    + split; reflexivity.
    + exists answer. split; [|reflexivity].
      rewrite app_comm_cons, remote_calls_app, remote_calls_local; [reflexivity|].
      constructor; [reflexivity | exact Hlocal].
  - destruct (submitJclNotify_terminates session text recfm lrecl w)
      as (tr & r & w' & Hrun).
    exists tr, r, w'. split; [exact Hrun|].
    unfold submitJclNotify, submitJclNotifyCommon in Hrun.
    cbn [cn_jcl cn_internalReaderRecfm cn_internalReaderLrecl cn_status cn_watchDelay]
      in Hrun.
    apply logged_then_inv in Hrun. destruct Hrun as (w1 & rest & -> & Hrun).
    apply logged_then_inv in Hrun. destruct Hrun as (w2 & rest' & -> & Hrun).
    apply runs_to_andThen_inv in Hrun.
    destruct Hrun as [(v & Hc & ->) | (tr1 & job & w3 & tr2 & Hc & Hnotify & ->)];
      apply submitJclCommon_runs in Hc; cbn [jcl] in Hc;
      destruct Hc as [(-> & -> & Hr) | (-> & before & answer & Hlocal & -> & Hr)];
      try discriminate Hr.
    + injection Hr as ->. split; reflexivity.
    + destruct answer as [e|job]; [|discriminate Hr]. injection Hr as ->.
      exists (inl e). split; [|reflexivity].
      rewrite !app_comm_cons, remote_calls_app, remote_calls_local; [reflexivity|].
      repeat (constructor; [reflexivity|]). exact Hlocal.
    + destruct answer as [e|job']; [discriminate Hr|]. injection Hr as ->.
      exists (inr job'). apply notify_runs in Hnotify.
      rewrite !app_comm_cons, !remote_calls_app.
      rewrite (@remote_calls_local (_ :: _ :: before))
        by (repeat (constructor; [reflexivity|]); exact Hlocal).
      destruct (isNullOrUndefined (jobname job') || isNullOrUndefined (jobid job')).
      * destruct Hnotify as (-> & ->). split; reflexivity.
      * destruct Hnotify as (polled & -> & ->). exists polled. split; reflexivity.
Qed.

(** X12. [submitJobNotify] with a data set name submits the data set as
    [submitJobCommon] does and then polls the job that the submission
    returned, by its own name and id and with no status, no delay and no
    number of attempts of its own, provided the job document has both a name
    and an id; otherwise it rejects with the expectation error after the
    submission.  A rejected submission is the only remote call. *)
Theorem submitJobNotify_submits_then_polls
  (session : SubmitJobs.AbstractSession) (dataSet : string) (w : W) :
  let put :=
    PutExpectJSON session JobsConstants_RESOURCE [Headers_APPLICATION_JSON]
      (JobObj ("//'" ++ dataSet ++ "'")%string) in
  exists tr r w',
    runs_to remote (submitJobNotify session (val dataSet)) w tr r w' /\
    exists answer,
      match answer with
      | inl e => remote_calls tr = [answered put (inl e)] /\ r = inl (Rejected e)
      | inr job =>
          if isNullOrUndefined (jobname job) || isNullOrUndefined (jobid job) then
            remote_calls tr = [answered put (inr job)] /\
            r = inl (ExpectError (literal
                  "The job object you provide must contain both 'jobname' and 'jobid'."))
          else
            exists polled,
              remote_calls tr =
                [answered put (inr job);
                 answered
                   (WaitForStatusCommon session
                      {| mw_jobname := jobname job;
                         mw_jobid := jobid job;
                         mw_status := undefined;
                         mw_maxAttempts := undefined;
                         mw_watchDelay := undefined |})
                   polled] /\
              r = settled polled
      end.
Proof.
  intros put.
  destruct (submitJobNotify_terminates session (val dataSet) w) as (tr & r & w' & Hrun).
  exists tr, r, w'. split; [exact Hrun|].
  unfold submitJobNotify, submitJobNotifyCommon in Hrun.
  simpl ImperativeExpect.keysToBeDefined in Hrun.
  cbn [jn_jobDataSet jn_status jn_watchDelay] in Hrun.
  apply logged_then_inv in Hrun. destruct Hrun as (w1 & rest & -> & Hrun).
  apply logged_then_inv in Hrun. destruct Hrun as (w2 & rest' & -> & Hrun).
  apply runs_to_andThen_inv in Hrun.
  destruct Hrun as [(v & Hc & _) | (tr0 & [] & w3 & rest & Hc & Hrun & ->)];
    apply runs_to_resolve_inv in Hc; destruct Hc as (-> & Hv & ->); [discriminate Hv|].
  cbn [app]. apply runs_to_andThen_inv in Hrun.
  destruct Hrun as [(v & Hc & ->) | (tr1 & job & w4 & tr2 & Hc & Hnotify & ->)].
  - unfold submitJobCommon in Hc. simpl ImperativeExpect.keysToBeDefined in Hc.
    split_run Hc; tidy_run.
    match goal with
    | H : inl _ = settled ?a |- _ => destruct a as [e|job] eqn:Hanswer; [|discriminate H];
        injection H as ->
    end.
    exists (inl e). split; reflexivity.
  - unfold submitJobCommon in Hc. simpl ImperativeExpect.keysToBeDefined in Hc.
    split_run Hc; tidy_run.
    match goal with
    | H : inr _ = settled ?a |- _ => destruct a as [e|job'] eqn:Hanswer; [discriminate H|];
        injection H as ->
    end.
    exists (inr job'). apply notify_runs in Hnotify.
    rewrite !app_comm_cons, remote_calls_app.
    destruct (isNullOrUndefined (jobname job') || isNullOrUndefined (jobid job')).
    + destruct Hnotify as (-> & ->). split; reflexivity.
    + destruct Hnotify as (polled & -> & ->). exists polled. split; reflexivity.
Qed.
End OperationRuns.

Lemma checkSubmitOptions_directory_witness :
  exists tr r w',
    runs_to (sample_remote (val "TESTJOB") None)
      (checkSubmitOptions "zosmf" (download_to (val ".txt"%string) (val tt))
         (sample_job (val "TESTJOB"))) 0
      tr r w' /\
    ((exists e,
         remote_calls tr =
           [answered
              (WaitForStatusCommon "zosmf"
                 (poll_parms (download_to (val ".txt"%string) (val tt))
                    (sample_job (val "TESTJOB")) OUTPUT))
              (inl e)] /\
         r = inl (Rejected e)) \/
     (exists job answer,
         remote_calls tr =
           [answered
              (WaitForStatusCommon "zosmf"
                 (poll_parms (download_to (val ".txt"%string) (val tt))
                    (sample_job (val "TESTJOB")) OUTPUT))
              (inr job);
            answered
              (DownloadAllSpoolContentCommon "zosmf"
                 {| dl_jobid := jobid job;
                    dl_jobname := jobname job;
                    dl_outDir := val "./output"%string;
                    dl_extension := val (IO_normalizeExtension ".txt") |})
              answer] /\
         r = match answer with
             | inl err => inl (Rejected err)
             | inr _ => inr (ResJob job)
             end)).
Proof.
  exact (@checkSubmitOptions_directory nat (sample_remote (val "TESTJOB") None)
           "zosmf" (download_to (val ".txt"%string) (val tt)) (sample_job (val "TESTJOB")) 0
           eq_refl eq_refl eq_refl ltac:(discriminate)).
Defined.

Lemma checkSubmitOptions_without_task_witness :
  (exists tr r w',
      runs_to (sample_remote (val "TESTJOB") None)
        (checkSubmitOptions "zosmf" (download_to undefined null)
           (sample_job (val "TESTJOB"))) 0
        tr r w' /\
      remote_calls tr = tr) /\
  (exists tr r w',
      runs_to (sample_remote (val "TESTJOB") None)
        (checkSubmitOptions "zosmf" active_and_directory (sample_job (val "TESTJOB"))) 0
        tr r w' /\
      remote_calls tr = tr).
Proof.
  split.
  - exact (@checkSubmitOptions_without_task nat (sample_remote (val "TESTJOB") None)
             "zosmf" (download_to undefined null) (sample_job (val "TESTJOB")) 0
             (or_introl eq_refl)).
  - exact (@checkSubmitOptions_without_task nat (sample_remote (val "TESTJOB") None)
             "zosmf" active_and_directory (sample_job (val "TESTJOB")) 0
             (or_intror eq_refl)).
Defined.

Lemma checkSubmitOptions_progress_witness :
  exists tr r w',
    runs_to (sample_remote (val "TESTJOB") None)
      (checkSubmitOptions "zosmf" (download_to undefined (val tt))
         (sample_job (val "TESTJOB"))) 0
      tr r w' /\
    exists answer rest,
      tr = answered (SetStatusMessage "Waiting for JOB00123 to enter OUTPUT") tt ::
           answered (SetPercentComplete 30) tt ::
           answered
             (WaitForStatusCommon "zosmf"
                (poll_parms (download_to undefined (val tt)) (sample_job (val "TESTJOB"))
                   OUTPUT))
             answer ::
           rest /\
      match answer with
      | inl _ => rest = []
      | inr job =>
          exists calls,
            rest =
              answered (SetStatusMessage
                          ("Downloading spool content for "
                             ++ js_concat_string (jobid job)
                             ++ (if isNullOrUndefined (retcode job) then ""
                                 else ", " ++ js_concat_string (retcode job)))%string) tt ::
              answered (SetPercentComplete 70) tt :: calls /\
            remote_calls calls = calls
      end.
Proof.
  exact (@checkSubmitOptions_progress nat (sample_remote (val "TESTJOB") None)
           "zosmf" (download_to undefined (val tt)) (sample_job (val "TESTJOB")) 0
           eq_refl eq_refl eq_refl).
Defined.

Lemma missing_data_set_is_rejected_witness :
  (exists tr w',
      runs_to (sample_remote (val "TESTJOB") None)
        (submitJobCommon "zosmf" {| jobDataSet := undefined |}) 0 tr
        (inl (ExpectError (literal
           "You must provide a data set containing JCL to submit in parms.jobDataSet")))
        w' /\
      remote_calls tr = []) /\
  (exists tr w',
      runs_to (sample_remote (val "TESTJOB") None)
        (submitJobNotify "zosmf" undefined) 0 tr
        (inl (ExpectError (literal
           "You must provide a data set containing JCL to submit in parms.jobDataSet.")))
        w' /\
      remote_calls tr = []).
Proof.
  pose proof (@missing_data_set_is_rejected nat (sample_remote (val "TESTJOB") None)
                "zosmf" undefined undefined undefined 0 eq_refl)
    as (Hcommon & _ & _ & Hnotify).
  split; [exact Hcommon | exact Hnotify].
Defined.

Lemma submitJclString_then_options_witness :
  exists tr r w',
    runs_to (sample_remote (val "TESTJOB") None)
      (submitJclString "zosmf" (val "//TESTJOB JOB"%string) output_and_directory) 0
      tr r w' /\
    exists before answer rest,
      local_only before /\
      tr = before ++
           answered
             (PutExpectJSON "zosmf" JobsConstants_RESOURCE
                [Headers_TEXT_PLAIN_UTF8; X_IBM_INTRDR_MODE_TEXT;
                 X_IBM_INTRDR_LRECL_80; X_IBM_INTRDR_RECFM_F]
                (JclText (val "//TESTJOB JOB"%string)))
             answer :: rest /\
      match answer with
      | inl e => rest = [] /\ r = inl (Rejected e)
      | inr job =>
          exists w1,
            runs_to (sample_remote (val "TESTJOB") None)
              (checkSubmitOptions "zosmf" output_and_directory job) w1 rest r w'
      end.
Proof.
  exact (@submitJclString_then_options nat (sample_remote (val "TESTJOB") None)
           "zosmf" "//TESTJOB JOB"%string output_and_directory 0 ltac:(discriminate)).
Defined.

(** ** The workflow start handler *)

Import StartCommonHandler.

Section WaitLoopFacts.
Context {W : Type}.
Variable remote : forall X, StartE X -> W -> X * W.
Variable mSession : StartCommonHandler.AbstractSession.
Variable arguments : Arguments.

Let query := GetWorkflowProperties mSession (workflowKey arguments).
Let loop := while (fun x : bool => x) (poll mSession arguments) true.

Lemma poll_query_rejected x w e :
  fst (remote query w) = inl e ->
  runs_to remote (poll mSession arguments x) w
    [answered query (inl e)] (inl (Rejected e)) (snd (remote query w)).
Proof.
  intros Hanswer. unfold poll. apply runs_to_andThen_rejected.
  pose proof (runs_to_await remote query w) as Hquery.
  rewrite Hanswer in Hquery. exact Hquery.
Qed.

Lemma poll_continues x w response :
  fst (remote query w) = inr response ->
  step_finished response = false ->
  runs_to remote (poll mSession arguments x) w
    [answered query (inr response)] (inr x) (snd (remote query w)).
Proof.
  intros Hanswer Hstep. unfold poll.
  pose proof (runs_to_await remote query w) as Hquery.
  rewrite Hanswer in Hquery. simpl in Hquery.
  rewrite <- (app_nil_r [_]).
  eapply runs_to_andThen_ok; [exact Hquery|].
  unfold step_finished in Hstep.
  destruct (automationStatus response) as [| |status];
    [apply runs_to_ret; reflexivity | apply runs_to_ret; reflexivity |].
  rewrite Hstep. apply runs_to_ret. reflexivity.
Qed.

Lemma poll_finishes x w response :
  fst (remote query w) = inr response ->
  step_finished response = true ->
  exists w',
    runs_to remote (poll mSession arguments x) w
      (answered query (inr response) :: report response) (inr false) w'.
Proof.
  intros Hanswer Hstep. unfold poll.
  pose proof (runs_to_await remote query w) as Hquery.
  rewrite Hanswer in Hquery. simpl in Hquery.
  unfold step_finished in Hstep. unfold report.
  destruct (automationStatus response) as [| |status] eqn:Hstatus; try discriminate Hstep.
  destruct (strict_equal (statusName response) "complete") eqn:Hname.
  - eexists.
    change (answered query (inr response) ::
            [answered (SetObj "Complete.") tt;
             answered (ConsoleLog "Workflow completed successfully.") tt])
      with ([answered query (inr response)] ++
            [answered (SetObj "Complete.") tt] ++
            [answered (ConsoleLog "Workflow completed successfully.") tt] ++ []).
    eapply runs_to_andThen_ok; [exact Hquery|].
    rewrite Hstatus, Hstep, Hname.
    eapply runs_to_andThen_ok.
    { pose proof (runs_to_perform remote (SetObj "Complete.") (snd (remote query w))) as H.
      destruct (fst (remote (SetObj "Complete.") (snd (remote query w)))). exact H. }
    eapply runs_to_andThen_ok.
    { match goal with
      | |- runs_to _ (perform ?e) ?w0 _ _ _ =>
          pose proof (runs_to_perform remote e w0) as H;
          destruct (fst (remote e w0)); exact H
      end. }
    apply runs_to_ret. reflexivity.
  - eexists.
    change (answered query (inr response) ::
            [answered (SetObj "Fail.") tt; answered (ConsoleLog "Workflow failed.") tt])
      with ([answered query (inr response)] ++
            [answered (SetObj "Fail.") tt] ++
            [answered (ConsoleLog "Workflow failed.") tt] ++ []).
    eapply runs_to_andThen_ok; [exact Hquery|].
    rewrite Hstatus, Hstep, Hname.
    eapply runs_to_andThen_ok.
    { pose proof (runs_to_perform remote (SetObj "Fail.") (snd (remote query w))) as H.
      destruct (fst (remote (SetObj "Fail.") (snd (remote query w)))). exact H. }
    eapply runs_to_andThen_ok.
    { match goal with
      | |- runs_to _ (perform ?e) ?w0 _ _ _ =>
          pose proof (runs_to_perform remote e w0) as H;
          destruct (fst (remote e w0)); exact H
      end. }
    apply runs_to_ret. reflexivity.
Qed.

(** Every pass through the body performs the query first. *)
Lemma poll_inv x w tr r w' :
  runs_to remote (poll mSession arguments x) w tr r w' ->
  match fst (remote query w) with
  | inl e => tr = [answered query (inl e)] /\ r = inl (Rejected e)
  | inr response =>
      if step_finished response
      then tr = answered query (inr response) :: report response /\ r = inr false
      else tr = [answered query (inr response)] /\ r = inr x /\ w' = snd (remote query w)
  end.
Proof.
  intros Hrun.
  destruct (fst (remote query w)) as [e|response] eqn:Hanswer.
  - destruct (runs_to_deterministic Hrun (poll_query_rejected x w Hanswer)) as (-> & -> & _).
    auto.
  - destruct (step_finished response) eqn:Hstep.
    + destruct (poll_finishes x w Hanswer Hstep) as (w0 & Hfin).
      destruct (runs_to_deterministic Hrun Hfin) as (-> & -> & _). auto.
    + destruct (runs_to_deterministic Hrun (poll_continues x w Hanswer Hstep))
        as (-> & -> & ->).
      auto.
Qed.

Lemma queries_next n w :
  queries remote mSession (workflowKey arguments) (S n) w =
  answered query (fst (remote query w)) ::
  queries remote mSession (workflowKey arguments) n (snd (remote query w)).
Proof. reflexivity. Qed.

Lemma still_running_next n w response :
  fst (remote query w) = inr response -> step_finished response = false ->
  still_running remote mSession (workflowKey arguments) n (snd (remote query w)) ->
  still_running remote mSession (workflowKey arguments) (S n) w.
Proof.
  intros Hanswer Hstep Hrest [|i] Hi.
  - exists response. auto.
  - apply (Hrest i). lia.
Qed.

Lemma still_running_tail n w :
  still_running remote mSession (workflowKey arguments) (S n) w ->
  still_running remote mSession (workflowKey arguments) n (snd (remote query w)).
Proof. intros Hrun i Hi. apply (Hrun (S i)). lia. Qed.

(** The loop stops at the first answer that shows the step finished, having
    made nothing but queries until then. *)
Lemma loop_finishes n : forall w response,
  still_running remote mSession (workflowKey arguments) n w ->
  answer_at remote mSession (workflowKey arguments) n w = inr response ->
  step_finished response = true ->
  exists w',
    runs_to remote loop w
      (queries remote mSession (workflowKey arguments) (S n) w ++ report response)
      (inr false) w'.
Proof.
  induction n as [|n IH]; intros w response Hrunning Hanswer Hstep.
  - destruct (poll_finishes true w Hanswer Hstep) as (w' & Hpass).
    exists w'. simpl. rewrite <- (app_nil_r (_ :: report response)).
    change (answer_at remote mSession (workflowKey arguments) 0 w)
      with (fst (remote query w)) in Hanswer.
    fold query. rewrite Hanswer.
    eapply while_again; [reflexivity | exact Hpass |].
    apply while_done. reflexivity.
  - destruct (Hrunning 0 ltac:(lia)) as (first & Hfirst & Hgoing).
    change (answer_at remote mSession (workflowKey arguments) 0 w)
      with (fst (remote query w)) in Hfirst.
    destruct (IH (snd (remote query w)) response (still_running_tail Hrunning) Hanswer Hstep)
      as (w' & Hrest).
    exists w'.
    rewrite (queries_next (S n) w), Hfirst, <- app_comm_cons.
    eapply while_again with (tr1 := [answered query (inr first)]);
      [reflexivity | apply poll_continues; assumption | exact Hrest].
Qed.

(** A query that is rejected ends the loop with the error as it is. *)
Lemma loop_rejected n : forall w e,
  still_running remote mSession (workflowKey arguments) n w ->
  answer_at remote mSession (workflowKey arguments) n w = inl e ->
  runs_to remote loop w
    (queries remote mSession (workflowKey arguments) (S n) w)
    (inl (Rejected e))
    (after_queries remote mSession (workflowKey arguments) (S n) w).
Proof.
  induction n as [|n IH]; intros w e Hrunning Hanswer.
  - change (answer_at remote mSession (workflowKey arguments) 0 w)
      with (fst (remote query w)) in Hanswer.
    simpl. fold query. rewrite Hanswer.
    apply while_rejected; [reflexivity|]. apply poll_query_rejected. exact Hanswer.
  - destruct (Hrunning 0 ltac:(lia)) as (first & Hfirst & Hgoing).
    change (answer_at remote mSession (workflowKey arguments) 0 w)
      with (fst (remote query w)) in Hfirst.
    pose proof (IH (snd (remote query w)) e (still_running_tail Hrunning) Hanswer) as Hrest.
    rewrite (queries_next (S n) w), Hfirst.
    eapply while_again with (tr1 := [answered query (inr first)]);
      [reflexivity | apply poll_continues; assumption | exact Hrest].
Qed.

(** Every run of the loop that ends is one of the two above. *)
Lemma loop_inv : forall tr w r w',
  runs_to remote loop w tr r w' ->
  exists n,
    still_running remote mSession (workflowKey arguments) n w /\
    ((exists response,
         answer_at remote mSession (workflowKey arguments) n w = inr response /\
         step_finished response = true /\
         tr = queries remote mSession (workflowKey arguments) (S n) w ++ report response /\
         r = inr false) \/
     (exists e,
         answer_at remote mSession (workflowKey arguments) n w = inl e /\
         tr = queries remote mSession (workflowKey arguments) (S n) w /\
         r = inl (Rejected e))).
Proof.
  intros tr. remember (length tr) as len eqn:Hlen. revert tr Hlen.
  induction len as [len IH] using lt_wf_ind. intros tr Hlen w r w' Hrun.
  apply while_inv in Hrun.
  destruct Hrun as [(Hcond & _) | (_ & [(v & Hpass & ->)
                                       | (tr1 & x & w1 & tr2 & Hpass & Hrest & ->)])];
    [discriminate Hcond | |].
  - apply poll_inv in Hpass. fold query in Hpass.
    destruct (fst (remote query w)) as [e|response] eqn:Hanswer.
    + destruct Hpass as (-> & Hv). injection Hv as ->.
      exists 0. split; [intros i Hi; lia|].
      right. exists e. simpl. fold query. rewrite Hanswer. auto.
    + destruct (step_finished response); [destruct Hpass as (_ & Hv)
                                         | destruct Hpass as (_ & Hv & _)];
        discriminate Hv.
  - apply poll_inv in Hpass. fold query in Hpass.
    destruct (fst (remote query w)) as [e|response] eqn:Hanswer.
    { destruct Hpass as (_ & Hv). discriminate Hv. }
    destruct (step_finished response) eqn:Hstep.
    + destruct Hpass as (-> & Hx). injection Hx as ->.
      apply while_inv in Hrest.
      destruct Hrest as [(_ & -> & -> & _) | (Hcond & _)]; [|discriminate Hcond].
      exists 0. split; [intros i Hi; lia|].
      left. exists response. simpl. fold query. rewrite Hanswer, app_nil_r. auto.
    + destruct Hpass as (-> & Hx & ->). injection Hx as ->.
      destruct (IH (length tr2)) with (tr := tr2) (w := snd (remote query w))
                                      (r := r) (w' := w')
        as (n & Hrunning & Hend); [subst len; simpl; lia | reflexivity | exact Hrest |].
      exists (S n). split; [eapply still_running_next; eassumption|].
      rewrite (queries_next (S n) w), Hanswer.
      destruct Hend as [(last & Hlast & Hfin & -> & ->) | (e & Hlast & -> & ->)].
      * left. exists last. auto.
      * right. exists e. auto.
Qed.

(** While the answers show a step in progress or no automation status at
    all, the loop has no run that ends. *)
Lemma loop_never_ends w :
  (forall n, still_running remote mSession (workflowKey arguments) n w) ->
  diverges remote loop w.
Proof.
  intros Hrunning. apply diverges_iff_no_run. intros (tr & r & w' & Hrun).
  apply loop_inv in Hrun.
  destruct Hrun as (n & _ & [(response & Hanswer & Hstep & _) | (e & Hanswer & _)]);
    destruct (Hrunning (S n) n ltac:(lia)) as (other & Hother & Hgoing);
    congruence.
Qed.
End WaitLoopFacts.

Section ProcessCmdFacts.
Context {W : Type}.
Variable remote : forall X, StartE X -> W -> X * W.
Variable mSession : StartCommonHandler.AbstractSession.
Variable arguments : Arguments.

Let key := workflowKey arguments.
Let query := GetWorkflowProperties mSession key.
Let start := start_call mSession arguments.

(** The start call is made with [!performOneStep] after the default [false]
    has been filled in. *)
Lemma processCmd_start_call :
  processCmd mSession arguments =
  andThen
    (try_await start
       (fun err => throw (ThrownString ("Start workflow: " ++ toString err)%string)))
    (fun _ =>
       if truthy_bool (wait arguments) then
         andThen (while (fun x : bool => x) (poll mSession arguments) true)
                 (fun _ => resolve tt)
       else
         andThen (perform (SetObj "Started."))
                 (fun _ => perform (ConsoleLog "Workflow started."))).
Proof.
  unfold processCmd, start, start_call.
  destruct (performOneStep arguments) as [| |[|]]; reflexivity.
Qed.

Lemma start_succeeds w :
  fst (remote start w) = inr tt ->
  runs_to remote
    (try_await start
       (fun err => throw (ThrownString ("Start workflow: " ++ toString err)%string)))
    w [answered start (inr tt)] (inr tt) (snd (remote start w)).
Proof.
  intros Hanswer.
  pose proof (@runs_to_vis _ _ remote _ _
                (try_await start
                   (fun err => throw (ThrownString ("Start workflow: " ++ toString err)%string)))
                start
                (fun x => ITree.bind (Ret x) (fun r =>
                   match r with
                   | inl err => throw (ThrownString ("Start workflow: " ++ toString err)%string)
                   | inr x => Ret (inr x)
                   end))
                w [] (inr tt) (snd (remote start w)) eq_refl) as Hvis.
  rewrite Hanswer in Hvis. apply Hvis. apply runs_to_ret. reflexivity.
Qed.

Lemma start_rejected w e :
  fst (remote start w) = inl e ->
  runs_to remote
    (try_await start
       (fun err => throw (ThrownString ("Start workflow: " ++ toString err)%string)))
    w [answered start (inl e)]
    (inl (ThrownString ("Start workflow: " ++ toString e)%string)) (snd (remote start w)).
Proof.
  intros Hanswer.
  pose proof (@runs_to_vis _ _ remote _ _
                (try_await start
                   (fun err => throw (ThrownString ("Start workflow: " ++ toString err)%string)))
                start
                (fun x => ITree.bind (Ret x) (fun r =>
                   match r with
                   | inl err => throw (ThrownString ("Start workflow: " ++ toString err)%string)
                   | inr x => Ret (inr x)
                   end))
                w [] (inl (ThrownString ("Start workflow: " ++ toString e)%string))
                (snd (remote start w)) eq_refl) as Hvis.
  rewrite Hanswer in Hvis. apply Hvis. apply runs_to_ret. reflexivity.
Qed.

(** C4. With the wait flag set and the start call successful, [processCmd]
    queries the workflow properties again and again, one query directly
    after the other (the trace holds nothing between two queries) and
    without any bound on their number.  It stops at the first answer whose
    [automationStatus] is present with a null or absent [currentStepName],
    however many answers came before; it then reports Complete when
    [statusName] is exactly "complete" and Fail for any other status name,
    and resolves.  If no answer is of that kind the handler never returns;
    and whenever the handler resolves, it has stopped at the first answer of
    that kind. *)
Theorem processCmd_waits_until_step_finished (w : W) :
  truthy_bool (wait arguments) = true ->
  fst (remote (start_call mSession arguments) w) = inr tt ->
  (forall n response,
      still_running remote mSession (workflowKey arguments) n
        (snd (remote (start_call mSession arguments) w)) ->
      answer_at remote mSession (workflowKey arguments) n
        (snd (remote (start_call mSession arguments) w)) = inr response ->
      step_finished response = true ->
      exists w',
        runs_to remote (processCmd mSession arguments) w
          (answered (start_call mSession arguments) (inr tt) ::
           queries remote mSession (workflowKey arguments) (S n)
             (snd (remote (start_call mSession arguments) w)) ++
           (if strict_equal (statusName response) "complete"
            then [answered (SetObj "Complete.") tt;
                  answered (ConsoleLog "Workflow completed successfully.") tt]
            else [answered (SetObj "Fail.") tt;
                  answered (ConsoleLog "Workflow failed.") tt]))
          (inr tt) w') /\
  ((forall n,
       still_running remote mSession (workflowKey arguments) n
         (snd (remote (start_call mSession arguments) w))) ->
   diverges remote (processCmd mSession arguments) w) /\
  (forall tr w',
      runs_to remote (processCmd mSession arguments) w tr (inr tt) w' ->
      exists n response,
        still_running remote mSession (workflowKey arguments) n
          (snd (remote (start_call mSession arguments) w)) /\
        answer_at remote mSession (workflowKey arguments) n
          (snd (remote (start_call mSession arguments) w)) = inr response /\
        step_finished response = true /\
        tr = answered (start_call mSession arguments) (inr tt) ::
             queries remote mSession (workflowKey arguments) (S n)
               (snd (remote (start_call mSession arguments) w)) ++
             report response).
Proof.
  intros Hwait Hstart. fold start in Hstart |- *. fold key. split; [|split].
  - intros n response Hrunning Hanswer Hstep.
    destruct (loop_finishes arguments Hrunning Hanswer Hstep) as (w' & Hloop).
    exists w'. rewrite processCmd_start_call, Hwait.
    change (answered start (inr tt) ::
            queries remote mSession key (S n) (snd (remote start w)) ++
            (if strict_equal (statusName response) "complete"
             then [answered (SetObj "Complete.") tt;
                   answered (ConsoleLog "Workflow completed successfully.") tt]
             else [answered (SetObj "Fail.") tt;
                   answered (ConsoleLog "Workflow failed.") tt]))
      with ([answered start (inr tt)] ++
            queries remote mSession key (S n) (snd (remote start w)) ++ report response).
    eapply runs_to_andThen_ok; [apply start_succeeds; exact Hstart|].
    rewrite <- (app_nil_r (_ ++ report response)).
    eapply runs_to_andThen_ok; [exact Hloop|].
    apply runs_to_ret. reflexivity.
  - intros Hrunning. apply diverges_iff_no_run. intros (tr & r & w' & Hrun).
    rewrite processCmd_start_call, Hwait in Hrun.
    apply runs_to_andThen_inv in Hrun.
    destruct Hrun as [(v & Hc & _) | (tr1 & [] & w1 & tr2 & Hc & Hrest & _)].
    + destruct (runs_to_deterministic Hc (start_succeeds w Hstart)) as (_ & Hv & _).
      discriminate Hv.
    + destruct (runs_to_deterministic Hc (start_succeeds w Hstart)) as (_ & _ & ->).
      apply (proj1 (diverges_iff_no_run remote _ _)
               (loop_never_ends arguments Hrunning)).
      apply runs_to_andThen_inv in Hrest.
      destruct Hrest as [(v & Hloop & _) | (tr3 & x & w3 & tr4 & Hloop & _ & _)];
        do 3 eexists; exact Hloop.
  - intros tr w' Hrun. rewrite processCmd_start_call, Hwait in Hrun.
    apply runs_to_andThen_inv in Hrun.
    destruct Hrun as [(v & _ & Hv) | (tr1 & [] & w1 & tr2 & Hc & Hrest & ->)];
      [discriminate Hv|].
    destruct (runs_to_deterministic Hc (start_succeeds w Hstart)) as (-> & _ & ->).
    apply runs_to_andThen_inv in Hrest.
    destruct Hrest as [(v & _ & Hv) | (tr3 & x & w3 & tr4 & Hloop & Hend & ->)];
      [discriminate Hv|].
    apply runs_to_resolve_inv in Hend. destruct Hend as (-> & _).
    apply loop_inv in Hloop. fold key in Hloop.
    destruct Hloop as (n & Hrunning & [(response & Hanswer & Hstep & -> & _)
                                      | (e & _ & _ & Hx)]);
      [|discriminate Hx].
    exists n, response. rewrite app_nil_r. auto.
Qed.

(** C10. A properties answer without [automationStatus] (absent or null),
    whatever its [statusName], makes the pass through the loop body do
    nothing but the query and leave the loop variable as it was.  The loop
    therefore goes on: its runs from there are exactly this query followed by
    the runs of the loop from the next state of the remote system, which
    begin with the next query.  A remote system that never returns an
    [automationStatus] keeps the loop running for ever; and every run of the
    loop that ends normally does so on an answer that has [automationStatus]
    present with a null or absent [currentStepName]. *)
Theorem absent_automationStatus_polls_again (w : W) (response : IWorkflowInfo) (x : bool) :
  fst (remote (GetWorkflowProperties mSession (workflowKey arguments)) w) = inr response ->
  truthy_object (automationStatus response) = false ->
  runs_to remote (poll mSession arguments x) w
    [answered (GetWorkflowProperties mSession (workflowKey arguments)) (inr response)]
    (inr x)
    (snd (remote (GetWorkflowProperties mSession (workflowKey arguments)) w)) /\
  (forall tr r w',
      runs_to remote (while (fun x : bool => x) (poll mSession arguments) true) w tr r w' <->
      exists rest,
        tr = answered (GetWorkflowProperties mSession (workflowKey arguments)) (inr response)
             :: rest /\
        runs_to remote (while (fun x : bool => x) (poll mSession arguments) true)
          (snd (remote (GetWorkflowProperties mSession (workflowKey arguments)) w))
          rest r w') /\
  ((forall n, exists later,
       answer_at remote mSession (workflowKey arguments) n w = inr later /\
       truthy_object (automationStatus later) = false) ->
   diverges remote (while (fun x : bool => x) (poll mSession arguments) true) w) /\
  (forall tr x' w',
      runs_to remote (while (fun x : bool => x) (poll mSession arguments) true) w
        tr (inr x') w' ->
      exists n last status,
        answer_at remote mSession (workflowKey arguments) n w = inr last /\
        automationStatus last = val status /\
        isNullOrUndefined (currentStepName status) = true /\
        tr = queries remote mSession (workflowKey arguments) (S n) w ++ report last).
Proof.
  fold key. fold query. intros Hanswer Habsent.
  assert (Hnot : forall info, truthy_object (automationStatus info) = false ->
                              step_finished info = false).
  { intros info Hinfo. unfold step_finished.
    destruct (automationStatus info); [reflexivity | reflexivity | discriminate Hinfo]. }
  pose proof (Hnot response Habsent) as Hstep.
  split; [|split; [|split]].
  - apply poll_continues; assumption.
  - intros tr r w'. split.
    + intros Hrun. apply while_inv in Hrun.
      destruct Hrun as [(Hcond & _) | (_ & [(v & Hpass & ->)
                                           | (tr1 & s' & w1 & tr2 & Hpass & Hrest & ->)])];
        [discriminate Hcond | |].
      * apply poll_inv in Hpass. fold key in Hpass. fold query in Hpass.
        rewrite Hanswer, Hstep in Hpass. destruct Hpass as (_ & Hv & _). discriminate Hv.
      * apply poll_inv in Hpass. fold key in Hpass. fold query in Hpass.
        rewrite Hanswer, Hstep in Hpass. destruct Hpass as (-> & Hx & ->).
        injection Hx as ->. exists tr2. auto.
    + intros (rest & -> & Hrest).
      eapply while_again with (tr1 := [answered query (inr response)]);
        [reflexivity | apply poll_continues; eassumption | exact Hrest].
  - intros Hnever. apply (loop_never_ends arguments). intros n i Hi.
    destruct (Hnever i) as (later & Hlater & Hlacks).
    exists later. split; [exact Hlater | apply Hnot; exact Hlacks].
  - intros tr x' w' Hrun. apply loop_inv in Hrun.
    destruct Hrun as (n & _ & [(last & Hlast & Hfin & -> & _) | (e & _ & _ & Hr)]);
      [|discriminate Hr].
    unfold step_finished in Hfin.
    destruct (automationStatus last) as [| |status] eqn:Hstatus; try discriminate Hfin.
    exists n, last, status. auto.
Qed.
End ProcessCmdFacts.

(** A sample workflow whose first two answers lack [automationStatus] (and
    already say "complete"), whose third is inside a step and whose fourth is
    finished: four queries back to back, then the report. *)
Example wait_sample_complete :
  runs_to (sample_workflow false (sample_script "complete"))
    (processCmd "zosmf" (sample_arguments (val true))) 0
    [answered (start_call "zosmf" (sample_arguments (val true))) (inr tt);
     answered (GetWorkflowProperties "zosmf" (workflowKey (sample_arguments (val true))))
       (inr (not_automated "complete"));
     answered (GetWorkflowProperties "zosmf" (workflowKey (sample_arguments (val true))))
       (inr (not_automated "complete"));
     answered (GetWorkflowProperties "zosmf" (workflowKey (sample_arguments (val true))))
       (inr (in_step "Step 1"));
     answered (GetWorkflowProperties "zosmf" (workflowKey (sample_arguments (val true))))
       (inr (finished "complete"));
     answered (SetObj "Complete.") tt;
     answered (ConsoleLog "Workflow completed successfully.") tt]
    (inr tt) 4.
Proof. exists 40. vm_compute. reflexivity. Qed.

Example wait_sample_failed :
  runs_to (sample_workflow false (sample_script "automation-failed"))
    (processCmd "zosmf" (sample_arguments (val true))) 0
    [answered (start_call "zosmf" (sample_arguments (val true))) (inr tt);
     answered (GetWorkflowProperties "zosmf" (workflowKey (sample_arguments (val true))))
       (inr (not_automated "complete"));
     answered (GetWorkflowProperties "zosmf" (workflowKey (sample_arguments (val true))))
       (inr (not_automated "complete"));
     answered (GetWorkflowProperties "zosmf" (workflowKey (sample_arguments (val true))))
       (inr (in_step "Step 1"));
     answered (GetWorkflowProperties "zosmf" (workflowKey (sample_arguments (val true))))
       (inr (finished "automation-failed"));
     answered (SetObj "Fail.") tt;
     answered (ConsoleLog "Workflow failed.") tt]
    (inr tt) 4.
Proof. exists 40. vm_compute. reflexivity. Qed.

Example no_wait_sample :
  runs_to (sample_workflow false (sample_script "complete"))
    (processCmd "zosmf" (sample_arguments undefined)) 0
    [answered (start_call "zosmf" (sample_arguments undefined)) (inr tt);
     answered (SetObj "Started.") tt;
     answered (ConsoleLog "Workflow started.") tt]
    (inr tt) 0.
Proof. exists 40. vm_compute. reflexivity. Qed.

Lemma processCmd_waits_until_step_finished_witness :
  truthy_bool (wait (sample_arguments (val true))) = true /\
  (exists w',
      runs_to (sample_workflow false (sample_script "complete"))
        (processCmd "zosmf" (sample_arguments (val true))) 0
        [answered (start_call "zosmf" (sample_arguments (val true))) (inr tt);
         answered (GetWorkflowProperties "zosmf" (workflowKey (sample_arguments (val true))))
           (inr (not_automated "complete"));
         answered (GetWorkflowProperties "zosmf" (workflowKey (sample_arguments (val true))))
           (inr (not_automated "complete"));
         answered (GetWorkflowProperties "zosmf" (workflowKey (sample_arguments (val true))))
           (inr (in_step "Step 1"));
         answered (GetWorkflowProperties "zosmf" (workflowKey (sample_arguments (val true))))
           (inr (finished "complete"));
         answered (SetObj "Complete.") tt;
         answered (ConsoleLog "Workflow completed successfully.") tt]
        (inr tt) w') /\
  diverges (sample_workflow false never_automated)
    (processCmd "zosmf" (sample_arguments (val true))) 0.
Proof.
  split; [reflexivity|]. split.
  - apply (proj1 (@processCmd_waits_until_step_finished nat
                    (sample_workflow false (sample_script "complete"))
                    "zosmf" (sample_arguments (val true)) 0 eq_refl eq_refl)
             3 (finished "complete")).
    + intros [|[|[|i]]] Hi;
        [exists (not_automated "complete") | exists (not_automated "complete")
        | exists (in_step "Step 1") | exfalso; lia];
        split; reflexivity.
    + reflexivity.
    + reflexivity.
  - apply (proj1 (proj2 (@processCmd_waits_until_step_finished nat
                    (sample_workflow false never_automated)
                    "zosmf" (sample_arguments (val true)) 0 eq_refl eq_refl))).
    intros n i Hi. exists (not_automated "complete"). split; reflexivity.
Defined.

Lemma absent_automationStatus_polls_again_witness :
  runs_to (sample_workflow false (sample_script "complete"))
    (poll "zosmf" (sample_arguments (val true)) true) 0
    [answered (GetWorkflowProperties "zosmf" (workflowKey (sample_arguments (val true))))
       (inr (not_automated "complete"))]
    (inr true) 1 /\
  diverges (sample_workflow false never_automated)
    (while (fun x : bool => x) (poll "zosmf" (sample_arguments (val true))) true) 0.
Proof.
  split.
  - exact (proj1 (@absent_automationStatus_polls_again nat
                    (sample_workflow false (sample_script "complete"))
                    "zosmf" (sample_arguments (val true)) 0 (not_automated "complete") true
                    eq_refl eq_refl)).
  - apply (proj1 (proj2 (proj2 (@absent_automationStatus_polls_again nat
                    (sample_workflow false never_automated)
                    "zosmf" (sample_arguments (val true)) 0 (not_automated "complete") true
                    eq_refl eq_refl)))).
    intros n. exists (not_automated "complete"). split; reflexivity.
Defined.

Section HandlerFailures.
Context {W : Type}.
Variable remote : forall X, StartE X -> W -> X * W.
Variable mSession : StartCommonHandler.AbstractSession.
Variable arguments : Arguments.

Let key := workflowKey arguments.
Let query := GetWorkflowProperties mSession key.
Let start := start_call mSession arguments.

Lemma queries_last n : forall w,
  queries remote mSession key (S n) w =
  queries remote mSession key n w ++ [answered query (answer_at remote mSession key n w)].
Proof.
  induction n as [|n IH]; intros w; [reflexivity|].
  change (queries remote mSession key (S (S n)) w)
    with (answered query (fst (remote query w)) ::
          queries remote mSession key (S n) (snd (remote query w))).
  rewrite IH. reflexivity.
Qed.

Lemma queries_running n : forall w c,
  still_running remote mSession key n w ->
  In c (queries remote mSession key n w) ->
  StartCommonHandler.rejection c = None.
Proof.
  induction n as [|n IH]; intros w c Hrunning Hin; [destruct Hin|].
  destruct Hin as [<-|Hin].
  - destruct (Hrunning 0 ltac:(lia)) as (response & Hanswer & _).
    unfold answer_at in Hanswer. simpl in Hanswer.
    unfold query. rewrite Hanswer. reflexivity.
  - apply (IH (snd (remote query w))); [|exact Hin].
    intros i Hi. apply (Hrunning (S i)). lia.
Qed.

Lemma report_not_rejected response c :
  In c (report response) -> StartCommonHandler.rejection c = None.
Proof.
  unfold report. destruct (strict_equal (statusName response) "complete");
    intros [<-|[<-|[]]]; reflexivity.
Qed.

(** A failed start is caught and rethrown as a string. *)
Lemma processCmd_start_rejected w e :
  fst (remote start w) = inl e ->
  runs_to remote (processCmd mSession arguments) w
    [answered start (inl e)]
    (inl (ThrownString ("Start workflow: " ++ toString e)%string))
    (snd (remote start w)).
Proof.
  intros Hanswer. rewrite processCmd_start_call.
  apply runs_to_andThen_rejected. apply start_rejected. exact Hanswer.
Qed.

(** A failed properties query ends the handler with the error as it is. *)
Lemma processCmd_query_rejected w tr r w' c e :
  runs_to remote (processCmd mSession arguments) w tr r w' ->
  In c tr -> is_query c = true -> StartCommonHandler.rejection c = Some e ->
  r = inl (Rejected e).
Proof.
  intros Hrun Hin Hquery Hrej. rewrite processCmd_start_call in Hrun.
  apply runs_to_andThen_inv in Hrun.
  destruct Hrun as [(v & Hstart & ->) | (tr1 & [] & w1 & tr2 & Hstart & Hrest & ->)].
  - exfalso. destruct (fst (remote start w)) as [e0|[]] eqn:Hanswer.
    + destruct (runs_to_deterministic Hstart (start_rejected remote mSession arguments w Hanswer))
        as (-> & _).
      destruct Hin as [<-|[]]. discriminate Hquery.
    + destruct (runs_to_deterministic Hstart (start_succeeds remote mSession arguments w Hanswer))
        as (_ & Hv & _).
      discriminate Hv.
  - destruct (fst (remote start w)) as [e0|[]] eqn:Hanswer.
    { destruct (runs_to_deterministic Hstart (start_rejected remote mSession arguments w Hanswer))
        as (_ & Hv & _).
      discriminate Hv. }
    destruct (runs_to_deterministic Hstart (start_succeeds remote mSession arguments w Hanswer))
      as (-> & _ & ->).
    destruct Hin as [<-|Hin]; [discriminate Hquery|].
    change (In c tr2) in Hin.
    destruct (truthy_bool (wait arguments)).
    + apply runs_to_andThen_inv in Hrest.
      destruct Hrest as [(v & Hloop & ->) | (tr3 & x & w3 & tr4 & Hloop & Hend & ->)].
      * apply loop_inv in Hloop. fold key in Hloop.
        destruct Hloop as (n & Hrunning & [(last & _ & _ & _ & Hv)
                                          | (e' & Hlast & -> & Hv)]);
          [discriminate Hv | injection Hv as ->].
        rewrite queries_last in Hin. rewrite in_app_iff in Hin.
        destruct Hin as [Hin|[<-|[]]].
        -- rewrite (queries_running _ Hrunning Hin) in Hrej. discriminate Hrej.
        -- rewrite Hlast in Hrej. injection Hrej as ->. reflexivity.
      * exfalso. apply loop_inv in Hloop. fold key in Hloop.
        destruct Hloop as (n & Hrunning & [(last & Hlast & _ & -> & _)
                                          | (e' & _ & _ & Hv)]);
          [|discriminate Hv].
        apply runs_to_resolve_inv in Hend. destruct Hend as (-> & _).
        rewrite app_nil_r in Hin. rewrite in_app_iff in Hin.
        destruct Hin as [Hin|Hin].
        -- rewrite queries_last in Hin. rewrite in_app_iff in Hin.
           destruct Hin as [Hin|[<-|[]]].
           ++ rewrite (queries_running _ Hrunning Hin) in Hrej. discriminate Hrej.
           ++ rewrite Hlast in Hrej. discriminate Hrej.
        -- rewrite (report_not_rejected _ _ Hin) in Hrej. discriminate Hrej.
    + exfalso. split_run Hrest; tidy_run.
      destruct Hin as [<-|[<-|[]]]; discriminate Hquery.
Qed.
End HandlerFailures.

(** C8, as the code has it.  Every operation of SubmitJobs hands a rejected
    remote call to its caller unchanged: whatever the remote system does, a
    run in which a call was rejected with an error rejects with that very
    error.  The workflow start handler does the same for a rejected
    properties query, but it catches a rejected start call and throws a
    string instead, "Start workflow: " followed by the text of the error. *)
Theorem remote_failures_reach_the_caller :
  (forall session R (op : operation session R), propagates (call_operation op)) /\
  (forall (W : Type) (remote : forall X, StartE X -> W -> X * W)
          (mSession : StartCommonHandler.AbstractSession) (arguments : Arguments) (w : W),
      (forall tr r w' c e,
          runs_to remote (processCmd mSession arguments) w tr r w' ->
          In c tr -> is_query c = true -> StartCommonHandler.rejection c = Some e ->
          r = inl (Rejected e)) /\
      (forall e,
          fst (remote _ (start_call mSession arguments) w) = inl e ->
          runs_to remote (processCmd mSession arguments) w
            [answered (start_call mSession arguments) (inl e)]
            (inl (ThrownString ("Start workflow: " ++ toString e)%string))
            (snd (remote _ (start_call mSession arguments) w)))).
Proof.
  split.
  - apply propagates_operation.
  - intros W remote mSession arguments w. split.
    + intros tr r w' c e. apply processCmd_query_rejected.
    + intros e. apply processCmd_start_rejected.
Qed.

(** The error of a failed start call does not reach the caller of
    [processCmd]: it is replaced by a string. *)
Lemma processCmd_rewraps_start_failure :
  runs_to (sample_workflow true (sample_script "complete"))
    (processCmd "zosmf" (sample_arguments (val true))) 0
    [answered (start_call "zosmf" (sample_arguments (val true))) (inl start_error)]
    (inl (ThrownString "Start workflow: Error: Workflow key not found")) 0 /\
  ~ (exists tr w',
       runs_to (sample_workflow true (sample_script "complete"))
         (processCmd "zosmf" (sample_arguments (val true))) 0
         tr (inl (Rejected start_error)) w').
Proof.
  assert (Hrun :
    runs_to (sample_workflow true (sample_script "complete"))
      (processCmd "zosmf" (sample_arguments (val true))) 0
      [answered (start_call "zosmf" (sample_arguments (val true))) (inl start_error)]
      (inl (ThrownString "Start workflow: Error: Workflow key not found")) 0).
  { exists 10. vm_compute. reflexivity. }
  split; [exact Hrun|].
  intros (tr & w' & Hother).
  destruct (runs_to_deterministic Hrun Hother) as (_ & Hr & _). discriminate Hr.
Qed.

Lemma remote_failures_reach_the_caller_witness :
  (exists tr w',
      runs_to (sample_remote (val "TESTJOB") (Some 3))
        (submitJclString "zosmf" (val "//TESTJOB JOB"%string) view_all) 0
        tr (inl (Rejected sample_error)) w') /\
  (exists tr w',
      runs_to (sample_workflow false rejecting_script)
        (processCmd "zosmf" (sample_arguments (val true))) 0
        tr (inl (Rejected start_error)) w') /\
  runs_to (sample_workflow true rejecting_script)
    (processCmd "zosmf" (sample_arguments (val true))) 0
    [answered (start_call "zosmf" (sample_arguments (val true))) (inl start_error)]
    (inl (ThrownString "Start workflow: Error: Workflow key not found")) 0.
Proof.
  destruct remote_failures_reach_the_caller as (Hsubmit & Hhandler).
  split; [|split].
  - assert (Hrun : exists tr r w',
              runs_to (sample_remote (val "TESTJOB") (Some 3))
                (submitJclString "zosmf" (val "//TESTJOB JOB"%string) view_all) 0 tr r w' /\
              In (answered (GetSpoolContent "zosmf"
                    {| id := 3; ddname := "JESJCL"; stepname := "JES2"; procstep := "" |})
                    (inl sample_error)) tr).
    { do 3 eexists. split; [exists 40; vm_compute; reflexivity|]. simpl. tauto. }
    destruct Hrun as (tr & r & w' & Hrun & Hin).
    exists tr, w'.
    rewrite <- (Hsubmit "zosmf" _
                  (op_submitJclString "zosmf" (val "//TESTJOB JOB"%string) view_all)
                  nat _ _ _ _ _ Hrun _ sample_error Hin eq_refl).
    exact Hrun.
  - assert (Hrun : exists tr r w',
              runs_to (sample_workflow false rejecting_script)
                (processCmd "zosmf" (sample_arguments (val true))) 0 tr r w' /\
              In (answered (GetWorkflowProperties "zosmf"
                              (workflowKey (sample_arguments (val true))))
                    (inl start_error)) tr).
    { do 3 eexists. split; [exists 40; vm_compute; reflexivity|]. simpl. tauto. }
    destruct Hrun as (tr & r & w' & Hrun & Hin).
    exists tr, w'.
    rewrite <- (proj1 (Hhandler nat (sample_workflow false rejecting_script) "zosmf"
                         (sample_arguments (val true)) 0)
                  _ _ _ _ start_error Hrun Hin eq_refl eq_refl).
    exact Hrun.
  - exact (proj2 (Hhandler nat (sample_workflow true rejecting_script) "zosmf"
                    (sample_arguments (val true)) 0)
             start_error eq_refl).
Defined.

(** ** Every run of the handler *)

Section HandlerRuns.
Context {W : Type}.
Variable remote : forall X, StartE X -> W -> X * W.
Variable mSession : StartCommonHandler.AbstractSession.
Variable arguments : Arguments.

Let key := workflowKey arguments.
Let query := GetWorkflowProperties mSession key.
Let start := start_call mSession arguments.

(** The runs of [processCmd] that end, all of them: the start is rejected;
    or there is no wait and the start is reported; or the wait ends at the
    first finished answer or at the first rejected query. *)
Lemma processCmd_inv w tr r w' :
  runs_to remote (processCmd mSession arguments) w tr r w' ->
  match fst (remote start w) with
  | inl e =>
      tr = [answered start (inl e)] /\
      r = inl (ThrownString ("Start workflow: " ++ toString e)%string)
  | inr _ =>
      exists rest,
        tr = answered start (inr tt) :: rest /\
        if truthy_bool (wait arguments) then
          exists n,
            still_running remote mSession key n (snd (remote start w)) /\
            match answer_at remote mSession key n (snd (remote start w)) with
            | inr response =>
                step_finished response = true /\
                rest = queries remote mSession key (S n) (snd (remote start w))
                         ++ report response /\
                r = inr tt
            | inl e =>
                rest = queries remote mSession key (S n) (snd (remote start w)) /\
                r = inl (Rejected e)
            end
        else
          rest = [answered (SetObj "Started.") tt;
                  answered (ConsoleLog "Workflow started.") tt] /\
          r = inr tt
  end.
Proof.
  intros Hrun. rewrite processCmd_start_call in Hrun.
  apply runs_to_andThen_inv in Hrun.
  destruct (fst (remote start w)) as [e0|[]] eqn:Hanswer.
  - destruct Hrun as [(v & Hstart & ->) | (tr1 & [] & w1 & tr2 & Hstart & Hrest & ->)].
    + destruct (runs_to_deterministic Hstart
                  (start_rejected remote mSession arguments w Hanswer)) as (-> & Hv & _).
      injection Hv as ->. auto.
    + destruct (runs_to_deterministic Hstart
                  (start_rejected remote mSession arguments w Hanswer)) as (_ & Hv & _).
      discriminate Hv.
  - destruct Hrun as [(v & Hstart & ->) | (tr1 & [] & w1 & tr2 & Hstart & Hrest & ->)].
    + destruct (runs_to_deterministic Hstart
                  (start_succeeds remote mSession arguments w Hanswer)) as (_ & Hv & _).
      discriminate Hv.
    + destruct (runs_to_deterministic Hstart
                  (start_succeeds remote mSession arguments w Hanswer)) as (-> & _ & ->).
      exists tr2. split; [reflexivity|].
      destruct (truthy_bool (wait arguments)).
      * apply runs_to_andThen_inv in Hrest.
        destruct Hrest as [(v & Hloop & ->) | (tr3 & x & w3 & tr4 & Hloop & Hend & ->)];
          apply loop_inv in Hloop; fold key in Hloop;
          destruct Hloop as (n & Hrunning & [(last & Hlast & Hstep & Htr & Hv)
                                            | (e' & Hlast & Htr & Hv)]);
          try discriminate Hv; exists n; (split; [exact Hrunning|]);
          unfold start; rewrite Hlast.
        -- injection Hv as ->. auto.
        -- apply runs_to_resolve_inv in Hend. destruct Hend as (-> & -> & _).
           rewrite app_nil_r. auto.
      * split_run Hrest; tidy_run. unit_answers. auto.
Qed.

Lemma is_start_queries n : forall w,
  existsb is_start (queries remote mSession key n w) = false.
Proof. induction n as [|n IH]; intros w; [reflexivity|]. apply IH. Qed.

Lemma reports_queries n : forall w, reports (queries remote mSession key n w) = [].
Proof. induction n as [|n IH]; intros w; [reflexivity|]. apply IH. Qed.

Lemma console_queries n : forall w, console (queries remote mSession key n w) = [].
Proof. induction n as [|n IH]; intros w; [reflexivity|]. apply IH. Qed.

(** X13. In every run of [processCmd] that ends, the first call is the
    start of the workflow, for the key, the conflict resolution and the step
    name of the arguments, and it is the only start: the handler never
    starts the workflow twice.  The flag for the subsequent steps is the
    negation of [performOneStep], and so it is set when [performOneStep] is
    null, undefined or false.  After a start that was rejected the handler
    does nothing more. *)
Theorem processCmd_starts_once (w : W) tr r w' :
  runs_to remote (processCmd mSession arguments) w tr r w' ->
  exists answer rest,
    tr = answered
           (StartWorkflow mSession (workflowKey arguments) (resolveConflict arguments)
              (stepName arguments)
              (match performOneStep arguments with
               | val true => false
               | _ => true
               end))
           answer :: rest /\
    existsb is_start rest = false /\
    (forall e, answer = inl e -> rest = []).
Proof.
  intros Hrun. apply processCmd_inv in Hrun.
  assert (Hflag : start =
            StartWorkflow mSession (workflowKey arguments) (resolveConflict arguments)
              (stepName arguments)
              (match performOneStep arguments with
               | val true => false
               | _ => true
               end)).
  { unfold start, start_call. destruct (performOneStep arguments) as [| |[|]]; reflexivity. }
  rewrite <- Hflag.
  destruct (fst (remote start w)) as [e0|[]].
  - destruct Hrun as (-> & _). exists (inl e0), []. auto.
  - destruct Hrun as (rest & -> & Hrest). exists (inr tt), rest.
    split; [reflexivity|]. split; [|discriminate].
    destruct (truthy_bool (wait arguments)).
    + destruct Hrest as (n & _ & Hrest).
      destruct (answer_at remote mSession key n (snd (remote start w))) as [e|response].
      * destruct Hrest as (-> & _). apply is_start_queries.
      * destruct Hrest as (_ & -> & _). rewrite existsb_app, is_start_queries.
        unfold report. destruct (strict_equal (statusName response) "complete");
          reflexivity.
    + destruct Hrest as (-> & _). reflexivity.
Qed.

(** X14. Without the wait flag, and with a start that succeeds,
    [processCmd] never asks for the properties of the workflow: it starts
    the workflow, sets the response object to "Started.", writes
    "Workflow started." to the console and resolves. *)
Theorem processCmd_without_wait (w : W) :
  truthy_bool (wait arguments) = false ->
  fst (remote (start_call mSession arguments) w) = inr tt ->
  exists w',
    runs_to remote (processCmd mSession arguments) w
      [answered (start_call mSession arguments) (inr tt);
       answered (SetObj "Started.") tt;
       answered (ConsoleLog "Workflow started.") tt]
      (inr tt) w'.
Proof.
  intros Hwait Hanswer.
  assert (Hends : exists tr r w', runs_to remote (processCmd mSession arguments) w tr r w').
  { rewrite processCmd_start_call, Hwait. do 3 eexists.
    eapply runs_to_andThen_ok; [apply start_succeeds; exact Hanswer|].
    eapply runs_to_andThen_ok; apply runs_to_perform. }
  destruct Hends as (tr & r & w' & Hrun). exists w'.
  pose proof (processCmd_inv Hrun) as Hshape. fold start in Hanswer.
  rewrite Hanswer, Hwait in Hshape.
  destruct Hshape as (rest & -> & -> & ->). exact Hrun.
Qed.

(** X15. The handler reports exactly once when it resolves and not at all
    when it rejects.  Without the wait flag the report is "Started." with
    the console line "Workflow started."; with the wait flag it is either
    "Complete." with "Workflow completed successfully." or "Fail." with
    "Workflow failed.", and never "Started.". *)
Theorem processCmd_reports_once (w : W) tr r w' :
  runs_to remote (processCmd mSession arguments) w tr r w' ->
  match r with
  | inl _ => reports tr = [] /\ console tr = []
  | inr _ =>
      if truthy_bool (wait arguments) then
        (reports tr = ["Complete."%string] /\
         console tr = ["Workflow completed successfully."%string]) \/
        (reports tr = ["Fail."%string] /\ console tr = ["Workflow failed."%string])
      else
        reports tr = ["Started."%string] /\ console tr = ["Workflow started."%string]
  end.
Proof.
  intros Hrun. apply processCmd_inv in Hrun.
  destruct (fst (remote start w)) as [e0|[]].
  - destruct Hrun as (-> & ->). split; reflexivity.
  - destruct Hrun as (rest & -> & Hrest).
    destruct (truthy_bool (wait arguments)).
    + destruct Hrest as (n & _ & Hrest).
      destruct (answer_at remote mSession key n (snd (remote start w))) as [e|response].
      * destruct Hrest as (-> & ->).
        change (reports (queries remote mSession key (S n) (snd (remote start w))) = [] /\
                console (queries remote mSession key (S n) (snd (remote start w))) = []).
        rewrite reports_queries, console_queries. split; reflexivity.
      * destruct Hrest as (_ & -> & ->).
        change (reports (queries remote mSession key (S n) (snd (remote start w))
                         ++ report response) = ["Complete."%string] /\
                console (queries remote mSession key (S n) (snd (remote start w))
                         ++ report response) = ["Workflow completed successfully."%string] \/
                reports (queries remote mSession key (S n) (snd (remote start w))
                         ++ report response) = ["Fail."%string] /\
                console (queries remote mSession key (S n) (snd (remote start w))
                         ++ report response) = ["Workflow failed."%string]).
        unfold reports, console. rewrite !flat_map_app.
        fold (reports (queries remote mSession key (S n) (snd (remote start w)))).
        fold (console (queries remote mSession key (S n) (snd (remote start w)))).
        rewrite reports_queries, console_queries.
        unfold report. destruct (strict_equal (statusName response) "complete");
          [left | right]; split; reflexivity.
    + destruct Hrest as (-> & ->). split; reflexivity.
Qed.

(** X16. While it waits, the handler does not try again: when the start
    has succeeded and, after [n] answers of a workflow still in a step, the
    next query of the properties is rejected, the handler stops there.  Its
    trace is the start and these [n]+1 queries, nothing is reported, and it
    rejects with the error of the query as it is. *)
Theorem processCmd_query_rejection_ends_wait (w : W) (n : nat) (e : ErrorObject) :
  truthy_bool (wait arguments) = true ->
  fst (remote (start_call mSession arguments) w) = inr tt ->
  still_running remote mSession (workflowKey arguments) n
    (snd (remote (start_call mSession arguments) w)) ->
  answer_at remote mSession (workflowKey arguments) n
    (snd (remote (start_call mSession arguments) w)) = inl e ->
  exists w',
    runs_to remote (processCmd mSession arguments) w
      (answered (start_call mSession arguments) (inr tt) ::
       queries remote mSession (workflowKey arguments) (S n)
         (snd (remote (start_call mSession arguments) w)))
      (inl (Rejected e)) w'.
Proof.
  intros Hwait Hanswer Hrunning Hlast.
  rewrite processCmd_start_call, Hwait. eexists.
  change (?c :: ?l) with ([c] ++ l).
  eapply runs_to_andThen_ok; [apply start_succeeds; exact Hanswer|].
  apply runs_to_andThen_rejected. apply loop_rejected; assumption.
Qed.
End HandlerRuns.

Lemma processCmd_starts_once_witness :
  exists answer rest,
    [answered (start_call "zosmf" (sample_arguments undefined)) (inr tt);
     answered (SetObj "Started.") tt;
     answered (ConsoleLog "Workflow started.") tt] =
    answered
      (StartWorkflow "zosmf" (workflowKey (sample_arguments undefined))
         (resolveConflict (sample_arguments undefined))
         (stepName (sample_arguments undefined)) true)
      answer :: rest /\
    existsb is_start rest = false /\
    (forall e, answer = inl e -> rest = []).
Proof.
  apply (@processCmd_starts_once nat (sample_workflow false (sample_script "complete"))
           "zosmf" (sample_arguments undefined) 0 _ (inr tt) 0).
  exists 40. vm_compute. reflexivity.
Defined.

Lemma processCmd_without_wait_witness :
  exists w',
    runs_to (sample_workflow false (sample_script "complete"))
      (processCmd "zosmf" (sample_arguments undefined)) 0
      [answered (start_call "zosmf" (sample_arguments undefined)) (inr tt);
       answered (SetObj "Started.") tt;
       answered (ConsoleLog "Workflow started.") tt]
      (inr tt) w'.
Proof.
  exact (@processCmd_without_wait nat (sample_workflow false (sample_script "complete"))
           "zosmf" (sample_arguments undefined) 0 eq_refl eq_refl).
Defined.

Lemma processCmd_reports_once_witness :
  (reports
     [answered (start_call "zosmf" (sample_arguments (val true))) (inr tt);
      answered (GetWorkflowProperties "zosmf" (workflowKey (sample_arguments (val true))))
        (inr (in_step "Step 1"));
      answered (GetWorkflowProperties "zosmf" (workflowKey (sample_arguments (val true))))
        (inl start_error)] = [] /\
   console
     [answered (start_call "zosmf" (sample_arguments (val true))) (inr tt);
      answered (GetWorkflowProperties "zosmf" (workflowKey (sample_arguments (val true))))
        (inr (in_step "Step 1"));
      answered (GetWorkflowProperties "zosmf" (workflowKey (sample_arguments (val true))))
        (inl start_error)] = []) /\
  (reports
     [answered (start_call "zosmf" (sample_arguments undefined)) (inr tt);
      answered (SetObj "Started.") tt;
      answered (ConsoleLog "Workflow started.") tt] = ["Started."%string] /\
   console
     [answered (start_call "zosmf" (sample_arguments undefined)) (inr tt);
      answered (SetObj "Started.") tt;
      answered (ConsoleLog "Workflow started.") tt] = ["Workflow started."%string]).
Proof.
  split.
  - apply (@processCmd_reports_once nat (sample_workflow false rejecting_script)
             "zosmf" (sample_arguments (val true)) 0 _ (inl (Rejected start_error)) 2).
    exists 40. vm_compute. reflexivity.
  - apply (@processCmd_reports_once nat (sample_workflow false (sample_script "complete"))
             "zosmf" (sample_arguments undefined) 0 _ (inr tt) 0).
    exists 40. vm_compute. reflexivity.
Defined.

Lemma processCmd_query_rejection_ends_wait_witness :
  exists w',
    runs_to (sample_workflow false rejecting_script)
      (processCmd "zosmf" (sample_arguments (val true))) 0
      [answered (start_call "zosmf" (sample_arguments (val true))) (inr tt);
       answered (GetWorkflowProperties "zosmf" (workflowKey (sample_arguments (val true))))
         (inr (in_step "Step 1"));
       answered (GetWorkflowProperties "zosmf" (workflowKey (sample_arguments (val true))))
         (inl start_error)]
      (inl (Rejected start_error)) w'.
Proof.
  apply (@processCmd_query_rejection_ends_wait nat (sample_workflow false rejecting_script)
           "zosmf" (sample_arguments (val true)) 0 1 start_error eq_refl eq_refl).
  - intros [|i] Hi; [|exfalso; lia]. exists (in_step "Step 1"). split; reflexivity.
  - reflexivity.
Defined.
